(** * Centris.ca scraper: the crawl / extract / filter / paginate pipeline

    A shallow embedding of [src/main.js].  The file holds three complete
    variants of the actor (version 1.1.0, version 2.0.0 and version 1.0.0, in
    that order); the functions they share textually ([parsePrice], the region
    table lookup) are modelled once, the ones that differ live in the modules
    [V1_1], [V2_0] and [V1_0].

    Conventions of the model
    - a JavaScript string is the list of its UTF-16 code units;
    - a numeric field of a listing is a [jsnum]: the property may be missing
      ([JUndefined]), hold [null], hold [NaN] (a failed [parseInt]) or hold an
      integer.  Prices, counts, years and areas are integers far below 2^53,
      where JavaScript numbers are exact, so they are modelled by [Z];
    - logging, status messages, timestamps and waiting are not modelled;
    - the browser page is abstracted to what the selectors of a variant find
      on it (records [Card], [Page]);
    - the crawler library runs up to [maxConcurrency] handlers at a time (3
      when the input gives none) and switches between them at an [await].
      [step] and [crawl] are the schedule that takes one task at a time
      ([maxConcurrency: 1]); a statement about a whole run is a statement
      about that schedule.  A statement about one task ([tallied],
      [page_within_quota]) is about the records that task appends and the
      increments it makes, from whatever state it finds. *)

From Stdlib Require Import ZArith NArith List String Ascii Bool Lia DecimalN DecimalString.
From stdpp Require Import base option list gmap.

Local Open Scope N_scope.

(** ** Strings *)

Abbreviation jsstring := (list N).

(** A string literal of the source, for literals made of ASCII characters. *)
Definition str (s : string) : jsstring :=
  List.map N_of_ascii (list_ascii_of_string s).

Definition is_digit (c : N) : bool := (48 <=? c) && (c <=? 57).
Definition is_upper (c : N) : bool := (65 <=? c) && (c <=? 90).
Definition is_lower (c : N) : bool := (97 <=? c) && (c <=? 122).
Definition is_letter (c : N) : bool := is_upper c || is_lower c.

(** The class [\s] of regular expressions, which is also what [trim] strips:
    WhiteSpace and LineTerminator of ECMAScript. *)
Definition is_space (c : N) : bool :=
  ((9 <=? c) && (c <=? 13)) || (c =? 32) || (c =? 160) || (c =? 5760)
  || ((8192 <=? c) && (c <=? 8202)) || (c =? 8232) || (c =? 8233)
  || (c =? 8239) || (c =? 8287) || (c =? 12288) || (c =? 65279).

(** [String.prototype.toLowerCase] and [toUpperCase], given on Basic Latin
    and the Latin-1 Supplement, the alphabet of every table of the program.
    Code units above U+00FF are left as they are. *)
Definition lower_char (c : N) : N :=
  if is_upper c then c + 32
  else if (192 <=? c) && (c <=? 222) && negb (c =? 215) then c + 32
  else c.

Definition toLowerCase (s : jsstring) : jsstring := List.map lower_char s.

Definition upper_char (c : N) : jsstring :=
  if is_lower c then [c - 32]
  else if (224 <=? c) && (c <=? 254) && negb (c =? 247) then [c - 32]
  else if c =? 223 then [83; 83]
  else if c =? 181 then [924]
  else if c =? 255 then [376]
  else [c].

Definition toUpperCase (s : jsstring) : jsstring := flat_map upper_char s.

Fixpoint dropWhile (p : N -> bool) (s : jsstring) : jsstring :=
  match s with
  | [] => []
  | c :: t => if p c then dropWhile p t else s
  end.

Fixpoint takeWhile (p : N -> bool) (s : jsstring) : jsstring :=
  match s with
  | [] => []
  | c :: t => if p c then c :: takeWhile p t else []
  end.

(** [s.trim()] *)
Definition trim (s : jsstring) : jsstring :=
  rev (dropWhile is_space (rev (dropWhile is_space s))).

Fixpoint startsWith (s p : jsstring) {struct p} : bool :=
  match p, s with
  | [], _ => true
  | _ :: _, [] => false
  | a :: p', b :: s' => (a =? b) && startsWith s' p'
  end.

(** [s.includes(sub)] *)
Fixpoint includes (s sub : jsstring) : bool :=
  startsWith s sub ||
  match s with
  | [] => false
  | _ :: t => includes t sub
  end.

(** [s.split(sep)] for a separator of one code unit: never the empty list. *)
Fixpoint split (sep : N) (s : jsstring) : list jsstring :=
  match s with
  | [] => [[]]
  | c :: t =>
      if c =? sep then [] :: split sep t
      else match split sep t with
           | [] => [[c]]
           | p :: ps => (c :: p) :: ps
           end
  end.

(** [s.replace(pat, '')] for a string pattern: the first occurrence goes. *)
Fixpoint remove_first (s pat : jsstring) : jsstring :=
  if startsWith s pat then drop (length pat) s
  else match s with
       | [] => []
       | c :: t => c :: remove_first t pat
       end.

(** [s.replace(/\s+/g, '-')]: every maximal run of white space becomes one
    hyphen.  [in_run] tells that the previous code unit was white space. *)
Fixpoint hyphenate (in_run : bool) (s : jsstring) : jsstring :=
  match s with
  | [] => []
  | c :: t =>
      if is_space c
      then (if in_run then hyphenate true t else 45 :: hyphenate true t)
      else c :: hyphenate false t
  end.

(** ** Numbers *)

Inductive jsnum : Type :=
  | JUndefined
  | JNull
  | JNaN
  | JNum (z : Z).

(** ToBoolean: [undefined], [null], [NaN] and [0] are falsy. *)
Definition truthy (v : jsnum) : bool :=
  match v with
  | JNum z => negb (Z.eqb z 0)
  | _ => false
  end.

(** [v || null] *)
Definition or_null (v : jsnum) : jsnum := if truthy v then v else JNull.

(** [v < b] and [v > b] against a configured number: ToNumber sends
    [undefined] to [NaN], which compares false, and [null] to [0]. *)
Definition js_lt (v : jsnum) (b : Z) : bool :=
  match v with
  | JNum z => Z.ltb z b
  | JNull => Z.ltb 0 b
  | _ => false
  end.

Definition js_gt (v : jsnum) (b : Z) : bool :=
  match v with
  | JNum z => Z.ltb b z
  | JNull => Z.ltb b 0
  | _ => false
  end.

(** [v !== null] *)
Definition not_null (v : jsnum) : bool :=
  match v with
  | JNull => false
  | _ => true
  end.

Definition digit_value (c : N) : Z := Z.of_N (c - 48).

Definition decimal (ds : jsstring) : Z :=
  fold_left (fun acc c => (10 * acc + digit_value c)%Z) ds 0%Z.

(** [parseInt(s, 10)]: leading white space and one sign are skipped, the
    longest prefix of digits is read, and no digit at all gives [NaN]. *)
Definition parseInt (s : jsstring) : jsnum :=
  let s1 := dropWhile is_space s in
  let '(neg, s2) :=
    match s1 with
    | c :: t =>
        if c =? 45 then (true, t)            (* - *)
        else if c =? 43 then (false, t)      (* + *)
        else (false, s1)
    | [] => (false, s1)
    end in
  match takeWhile is_digit s2 with
  | [] => JNaN
  | ds => JNum (if neg then - decimal ds else decimal ds)%Z
  end.

(** [n.toString()] of an integer from 0 to 2^53 - 1: its plain decimal
    digits.  (From 10^21 on JavaScript writes a number with an exponent;
    the bounds of a search are far below that.) *)
Definition digits_of (z : Z) : jsstring :=
  str (NilZero.string_of_uint (N.to_uint (Z.to_N z))).

(** ** Price extraction *)

(** [parsePrice], the same text in the three variants:
<<
    if (!priceStr) return null;
    const cleaned = priceStr.replace(/[^0-9]/g, '');
    return cleaned ? parseInt(cleaned, 10) : null;
>>
    [None] is a missing ([undefined] or [null]) argument. *)
Definition parsePrice (priceStr : option jsstring) : jsnum :=
  match priceStr with
  | None | Some [] => JNull
  | Some s =>
      match List.filter is_digit s with
      | [] => JNull
      | cleaned => parseInt cleaned
      end
  end.

(** ** Property reads on object literals

    The tables of the program are object literals read with [TABLE[key]].
    Such a read finds the own properties of the literal and, after them, the
    properties every object inherits from [Object.prototype]. *)

Definition Object_prototype_methods : list jsstring :=
  List.map str
    [ "constructor"; "hasOwnProperty"; "isPrototypeOf";
      "propertyIsEnumerable"; "toLocaleString"; "toString"; "valueOf";
      "__defineGetter__"; "__defineSetter__"; "__lookupGetter__";
      "__lookupSetter__" ]%string.

Definition jsstring_eqb (a b : jsstring) : bool :=
  bool_decide (a = b).

Inductive property (A : Type) : Type :=
  | Own (a : A)                        (* an entry of the literal *)
  | InheritedMethod (name : jsstring)  (* a function of Object.prototype *)
  | InheritedProto.                    (* the accessor __proto__ *)
Arguments Own {A} a.
Arguments InheritedMethod {A} name.
Arguments InheritedProto {A}.

Definition object_get {A : Type} (o : gmap jsstring A) (key : jsstring)
  : option (property A) :=
  match o !! key with
  | Some v => Some (Own v)
  | None =>
      if existsb (jsstring_eqb key) Object_prototype_methods
      then Some (InheritedMethod key)
      else if jsstring_eqb key (str "__proto__") then Some InheritedProto
      else None
  end.

(** ** Run configuration and listings *)

Local Open Scope Z_scope.

(** The input of the actor, destructured at the top of each variant, with
    the defaults of the source in [defaultInput]. *)
Record Config : Type := {
  searchType : jsstring;
  propertyTypes : list jsstring;
  regions : list jsstring;
  minPrice : Z;
  maxPrice : Z;
  minBedrooms : Z;
  maxBedrooms : Z;
  minBathrooms : Z;
  maxBathrooms : Z;
  minLivingArea : Z;
  maxLivingArea : Z;
  minLotSize : Z;
  maxLotSize : Z;
  yearBuiltMin : Z;
  yearBuiltMax : Z;
  maxListings : Z;
  includeDetails : bool;
  language : jsstring;
  maxRequestRetries : nat
}.

Definition defaultInput : Config := {|
  searchType := str "buy";
  propertyTypes := [];
  regions := [str "Montreal"];
  minPrice := 0; maxPrice := 0;
  minBedrooms := 0; maxBedrooms := 0;
  minBathrooms := 0; maxBathrooms := 0;
  minLivingArea := 0; maxLivingArea := 0;
  minLotSize := 0; maxLotSize := 0;
  yearBuiltMin := 0; yearBuiltMax := 0;
  maxListings := 100;
  includeDetails := true;
  language := str "fr";
  maxRequestRetries := 3
|}.

(** A listing object: the properties the pipeline reads or writes.  A
    property that holds a string is [None] while it is not set. *)
Record Listing : Type := {
  url : option jsstring;
  priceFormatted : option jsstring;
  price : jsnum;
  propertyType : option jsstring;
  bedrooms : jsnum;
  bathrooms : jsnum;
  livingArea : jsnum;
  lotSize : jsnum;
  yearBuilt : jsnum;
  transactionType : option jsstring
}.

Definition emptyListing : Listing := {|
  url := None; priceFormatted := None; price := JUndefined;
  propertyType := None;
  bedrooms := JUndefined; bathrooms := JUndefined;
  livingArea := JUndefined; lotSize := JUndefined; yearBuilt := JUndefined;
  transactionType := None
|}.

Definition set_price (v : jsnum) (l : Listing) : Listing :=
  {| url := url l; priceFormatted := priceFormatted l; price := v;
     propertyType := propertyType l;
     bedrooms := bedrooms l; bathrooms := bathrooms l;
     livingArea := livingArea l; lotSize := lotSize l;
     yearBuilt := yearBuilt l; transactionType := transactionType l |}.


Definition set_transactionType (v : jsstring) (l : Listing) : Listing :=
  {| url := url l; priceFormatted := priceFormatted l; price := price l;
     propertyType := propertyType l;
     bedrooms := bedrooms l; bathrooms := bathrooms l;
     livingArea := livingArea l; lotSize := lotSize l;
     yearBuilt := yearBuilt l; transactionType := Some v |}.

(** ToBoolean of a string-valued property: unset and empty are falsy. *)
Definition nonempty (s : option jsstring) : bool :=
  match s with
  | Some (_ :: _) => true
  | _ => false
  end.

(** A numeric property after [Object.assign(details, pageData)] or
    [{ ...basicListing, ...details }]: the detail page wins where it set the
    property. *)
Definition assigned (detail basic : jsnum) : jsnum :=
  match detail with
  | JUndefined => basic
  | _ => detail
  end.

(** What a JavaScript function does: it returns a value or it throws. *)
Inductive result (A : Type) : Type :=
  | Returns (a : A)
  | Throws.
Arguments Returns {A} a.
Arguments Throws {A}.

(** [searchType === 'rent'] *)
Definition isRent (cfg : Config) : bool :=
  jsstring_eqb (searchType cfg) (str "rent").

(** ** The URL builder

    [buildRegionSearchUrl] has the same text in versions 1.1.0 and 2.0.0 and
    reads the region table of its variant. *)

Definition CENTRIS_BASE_URL : jsstring := str "https://www.centris.ca".

(** The name a method of [Object.prototype] prints: its property name,
    except that [constructor] is the function [Object]. *)
Definition functionName (key : jsstring) : jsstring :=
  if jsstring_eqb key (str "constructor") then str "Object" else key.

(** [REGION_MAP[region.toLowerCase()] || region.toLowerCase().replace(/\s+/g, '-')]
    as the template literal prints it.  An inherited property is truthy: a
    function prints as its source text, the prototype as [[object Object]]. *)
Definition regionSlugIn (REGION_MAP : gmap jsstring jsstring)
    (regionName : jsstring) : jsstring :=
  let key := toLowerCase regionName in
  match object_get REGION_MAP key with
  | Some (Own ((_ :: _) as slug)) => slug
  | Some (InheritedMethod name) =>
      str "function " ++ functionName name ++ str "() { [native code] }"
  | Some InheritedProto => str "[object Object]"
  | Some (Own []) | None => hyphenate false key
  end.

(** [URLSearchParams.prototype.toString].  Every name and value this builder
    appends is made of letters and digits, which the form encoding leaves
    as they are. *)
Fixpoint paramsToString (params : list (jsstring * jsstring)) : jsstring :=
  match params with
  | [] => []
  | [(k, v)] => k ++ str "=" ++ v
  | (k, v) :: rest => k ++ str "=" ++ v ++ str "&" ++ paramsToString rest
  end.

Definition buildRegionSearchUrlIn (REGION_MAP : gmap jsstring jsstring)
    (cfg : Config) (regionName : jsstring) (pageNumber : Z) : jsstring :=
  let isFrench := jsstring_eqb (language cfg) (str "fr") in
  let regionSlug := regionSlugIn REGION_MAP regionName in
  let baseUrl :=
    if isRent cfg then
      if isFrench
      then CENTRIS_BASE_URL ++ str "/fr/propriete~a-louer~" ++ regionSlug
      else CENTRIS_BASE_URL ++ str "/en/properties~for-rent~" ++ regionSlug
    else
      if isFrench
      then CENTRIS_BASE_URL ++ str "/fr/propriete~a-vendre~" ++ regionSlug
      else CENTRIS_BASE_URL ++ str "/en/properties~for-sale~" ++ regionSlug in
  let params := [] in
  let params :=
    if 0 <? minPrice cfg
    then params ++ [(str "pmin", digits_of (minPrice cfg))] else params in
  let params :=
    if 0 <? maxPrice cfg
    then params ++ [(str "pmax", digits_of (maxPrice cfg))] else params in
  let params :=
    if 0 <? minBedrooms cfg
    then params ++ [(str "bed", digits_of (minBedrooms cfg))] else params in
  let params :=
    if 1 <? pageNumber
    then params ++ [(str "view", str "Thumbnail"); (str "uc", str "0")]
    else params in
  let queryString := paramsToString params in
  match queryString with
  | [] => baseUrl
  | _ => baseUrl ++ str "?" ++ queryString
  end.

(** ** The crawler: requests, pages, run state

    The request queue, its order (first in, first out) and the retry policy
    belong to the crawler library the three variants instantiate; they are
    modelled as far as the handlers of the source depend on them, with tasks
    processed one at a time ([maxConcurrency: 1]): a handler runs from its
    first statement to its last before the next task starts. *)

(** [request.userData]: a search-results page, or the page of one listing
    together with the summary found on its card. *)
Inductive Label : Type :=
  | LIST
  | LISTING (listing : Listing).

Record Request : Type := {
  requestUrl : jsstring;
  userData : Label;
  retryCount : nat
}.

(** What the selectors of a variant find on one result card. *)
Record Card : Type := {
  linkHref : option jsstring;          (* [href] of the card's link, if any *)
  priceTexts : list (option jsstring); (* per price selector: text found *)
  typeText : option jsstring;
  cardBedrooms : jsnum;
  cardBathrooms : jsnum
}.

(** What the selectors of a variant find on a rendered page. *)
Record Page : Type := {
  cards : list Card;
  nextHref : option jsstring;          (* [href] of the next-page link *)
  detailPriceText : option jsstring;
  detailPropertyType : option jsstring;
  detailBedrooms : jsnum;
  detailBathrooms : jsnum;
  detailLivingArea : jsnum;
  detailLotSize : jsnum;
  detailYearBuilt : jsnum;
  evaluateThrows : bool                (* reading the page raises *)
}.

Definition blankPage : Page := {|
  cards := []; nextHref := None;
  detailPriceText := None; detailPropertyType := None;
  detailBedrooms := JUndefined; detailBathrooms := JUndefined;
  detailLivingArea := JUndefined; detailLotSize := JUndefined;
  detailYearBuilt := JUndefined;
  evaluateThrows := false
|}.

(** The outcome of navigating to a URL. *)
Inductive Navigation : Type :=
  | NavigationError
  | Rendered (page : Page).

(** The site: what navigating to a URL gives at the attempt of that number
    (the retry count of the request). *)
Definition Web : Type := jsstring -> nat -> Navigation.

(** A record of the output dataset: a listing, or the failure record
    [{ url, error, '#failed': true }]. *)
Inductive Item : Type :=
  | ListingItem (listing : Listing)
  | FailedItem (failedUrl : jsstring).

(** The counters of the run (module-level [let] variables), the dataset
    [Actor.pushData] appends to, and the request queue with the URLs it has
    already accepted. *)
Record RunState : Type := {
  listingsScraped : Z;
  listingsFiltered : Z;
  pagesScraped : Z;
  errors : Z;
  dataset : list Item;
  queue : list Request;
  seen : list jsstring
}.

Definition initialState : RunState := {|
  listingsScraped := 0; listingsFiltered := 0; pagesScraped := 0; errors := 0;
  dataset := []; queue := []; seen := []
|}.

Definition incrListingsScraped (st : RunState) : RunState :=
  {| listingsScraped := listingsScraped st + 1;
     listingsFiltered := listingsFiltered st;
     pagesScraped := pagesScraped st; errors := errors st;
     dataset := dataset st; queue := queue st; seen := seen st |}.

Definition incrListingsFiltered (st : RunState) : RunState :=
  {| listingsScraped := listingsScraped st;
     listingsFiltered := listingsFiltered st + 1;
     pagesScraped := pagesScraped st; errors := errors st;
     dataset := dataset st; queue := queue st; seen := seen st |}.

Definition incrPagesScraped (st : RunState) : RunState :=
  {| listingsScraped := listingsScraped st;
     listingsFiltered := listingsFiltered st;
     pagesScraped := pagesScraped st + 1; errors := errors st;
     dataset := dataset st; queue := queue st; seen := seen st |}.

Definition incrErrors (st : RunState) : RunState :=
  {| listingsScraped := listingsScraped st;
     listingsFiltered := listingsFiltered st;
     pagesScraped := pagesScraped st; errors := errors st + 1;
     dataset := dataset st; queue := queue st; seen := seen st |}.

(** [await Actor.pushData(item)] *)
Definition pushData (item : Item) (st : RunState) : RunState :=
  {| listingsScraped := listingsScraped st;
     listingsFiltered := listingsFiltered st;
     pagesScraped := pagesScraped st; errors := errors st;
     dataset := dataset st ++ [item]; queue := queue st; seen := seen st |}.

Definition with_queue (q : list Request) (st : RunState) : RunState :=
  {| listingsScraped := listingsScraped st;
     listingsFiltered := listingsFiltered st;
     pagesScraped := pagesScraped st; errors := errors st;
     dataset := dataset st; queue := q; seen := seen st |}.

(** [await crawler.addRequests([{ url, userData }])].  The request queue
    keeps one request per URL: a URL it has accepted before is dropped. *)
Definition addRequest (u : jsstring) (label : Label) (st : RunState) : RunState :=
  if existsb (jsstring_eqb u) (seen st) then st
  else
    {| listingsScraped := listingsScraped st;
       listingsFiltered := listingsFiltered st;
       pagesScraped := pagesScraped st; errors := errors st;
       dataset := dataset st;
       queue := queue st ++ [{| requestUrl := u; userData := label; retryCount := 0 |}];
       seen := seen st ++ [u] |}.

(** How a run of [requestHandler] ends, with the state it leaves behind. *)
Inductive Outcome : Type :=
  | Finished (st : RunState)
  | Failed (st : RunState).

(** The two callbacks a variant hands to [new PlaywrightCrawler({...})]. *)
Record Crawler : Type := {
  onRequest : Config -> Request -> Page -> RunState -> Outcome;
  onFailedRequest : Config -> Request -> RunState -> RunState
}.

(** Modelled from the spec: the task state machine of section 4.6, which the
    source leaves to the crawler library ([maxRequestRetries] and
    [failedRequestHandler] of [PlaywrightCrawler]).  A task whose navigation
    or handler failed goes back to the queue with its retry count raised
    while the count is below [maxRequestRetries]; otherwise it is terminal
    and [failedRequestHandler] runs, once. *)
Definition onFailure (c : Crawler) (cfg : Config) (r : Request) (st : RunState)
  : RunState :=
  if (retryCount r <? maxRequestRetries cfg)%nat
  then with_queue
         (queue st ++ [{| requestUrl := requestUrl r; userData := userData r;
                          retryCount := S (retryCount r) |}]) st
  else onFailedRequest c cfg r st.

(** One task, taken from the head of the queue and processed to its end
    with no other task in between: [None] when the frontier is empty. *)
Definition step (c : Crawler) (web : Web) (cfg : Config) (st : RunState)
  : option RunState :=
  match queue st with
  | [] => None
  | r :: rest =>
      let st := with_queue rest st in
      match web (requestUrl r) (retryCount r) with
      | NavigationError => Some (onFailure c cfg r st)
      | Rendered page =>
          match onRequest c cfg r page st with
          | Finished st' => Some st'
          | Failed st' => Some (onFailure c cfg r st')
          end
      end
  end.

(** [await crawler.run(startUrls)], one task at a time, for at most [fuel]
    tasks. *)
Fixpoint crawl (fuel : nat) (c : Crawler) (web : Web) (cfg : Config)
    (st : RunState) : RunState :=
  match fuel with
  | O => st
  | S fuel' =>
      match step c web cfg st with
      | None => st
      | Some st' => crawl fuel' c web cfg st'
      end
  end.

Definition enqueueAll (urls : list jsstring) (st : RunState) : RunState :=
  fold_left (fun st u => addRequest u LIST st) urls st.

(** The listings of the dataset, in the order they were pushed. *)
Definition emitted (st : RunState) : list Listing :=
  omap (fun i => match i with ListingItem l => Some l | FailedItem _ => None end)
       (dataset st).

(** [nextUrl.startsWith('http') ? nextUrl : `${CENTRIS_BASE_URL}${nextUrl}`] *)
Definition absoluteUrl (href : jsstring) : jsstring :=
  if startsWith href (str "http") then href else CENTRIS_BASE_URL ++ href.

(** ** Further helpers of the extractors and of the URL builders *)

(** [TABLE[key] || fallback] as a string conversion prints it (a template
    literal, [Array.prototype.join], [URLSearchParams.append]): the entry of
    the literal, the text of an inherited property, or the fallback. *)
Definition lookupOr (table : gmap jsstring jsstring) (key fallback : jsstring)
  : jsstring :=
  match object_get table key with
  | Some (Own ((_ :: _) as v)) => v
  | Some (InheritedMethod name) =>
      str "function " ++ functionName name ++ str "() { [native code] }"
  | Some InheritedProto => str "[object Object]"
  | Some (Own []) | None => fallback
  end.

(** [parts.join(sep)] *)
Fixpoint join (sep : jsstring) (parts : list jsstring) : jsstring :=
  match parts with
  | [] => []
  | [p] => p
  | p :: rest => p ++ sep ++ join sep rest
  end.

(** The code points of a string as a USVString has them: a surrogate pair
    is one code point, a lone surrogate is U+FFFD. *)
Fixpoint codePoints (s : jsstring) : list N :=
  match s with
  | [] => []
  | c :: t =>
      if ((55296 <=? c) && (c <=? 56319))%N then
        match t with
        | d :: t' =>
            if ((56320 <=? d) && (d <=? 57343))%N
            then (65536 + (c - 55296) * 1024 + (d - 56320))%N :: codePoints t'
            else 65533%N :: codePoints t
        | [] => [65533%N]
        end
      else if ((56320 <=? c) && (c <=? 57343))%N then 65533%N :: codePoints t
      else c :: codePoints t
  end.

(** The UTF-8 bytes of a code point. *)
Definition utf8 (cp : N) : list N :=
  (if cp <? 128 then [cp]
   else if cp <? 2048 then [192 + cp / 64; 128 + cp mod 64]
   else if cp <? 65536
   then [224 + cp / 4096; 128 + (cp / 64) mod 64; 128 + cp mod 64]
   else [240 + cp / 262144; 128 + (cp / 4096) mod 64;
         128 + (cp / 64) mod 64; 128 + cp mod 64])%N.

Definition hexDigit (n : N) : N := (if n <? 10 then 48 + n else 55 + n)%N.

(** A byte that the [application/x-www-form-urlencoded] serializer leaves as
    it is: a letter, a digit, [*], [-], [.] or [_]. *)
Definition is_form_safe (b : N) : bool :=
  is_digit b || is_letter b
  || (b =? 42)%N || (b =? 45)%N || (b =? 46)%N || (b =? 95)%N.

Definition encodeByte (b : N) : jsstring :=
  if is_form_safe b then [b]
  else if (b =? 32)%N then [43%N]
  else [37%N; hexDigit (b / 16); hexDigit (b mod 16)].

(** One name or value as [URLSearchParams.prototype.toString] writes it. *)
Definition formEncode (s : jsstring) : jsstring :=
  flat_map encodeByte (flat_map utf8 (codePoints s)).

(** [URLSearchParams.prototype.toString] *)
Definition serializeParams (params : list (jsstring * jsstring)) : jsstring :=
  join (str "&")
    (List.map (fun kv => formEncode (fst kv) ++ str "=" ++ formEncode (snd kv)) params).

(** [s.match(/(\d{min,})/)]: the leftmost run of at least [min] digits, taken
    to its end. *)
Fixpoint digitRun (min : nat) (s : jsstring) : option jsstring :=
  if (min <=? length (takeWhile is_digit s))%nat
  then Some (takeWhile is_digit s)
  else match s with
       | [] => None
       | _ :: t => digitRun min t
       end.

(** An [img] element: its [src] and its [data-src]. *)
Record Img : Type := {
  imgSrc : option jsstring;
  imgDataSrc : option jsstring
}.

(** [img.src || img.getAttribute('data-src')] *)
Definition srcOf (img : Img) : option jsstring :=
  if nonempty (imgSrc img) then imgSrc img else imgDataSrc img.

(** [images.includes(src)] on an array of strings. *)
Definition arrayIncludes (images : list jsstring) (src : jsstring) : bool :=
  existsb (jsstring_eqb src) images.

(** [s.replace(/\s+/g, ' ')] *)
Fixpoint collapseSpaces (in_run : bool) (s : jsstring) : jsstring :=
  match s with
  | [] => []
  | c :: t =>
      if is_space c
      then (if in_run then collapseSpaces true t
            else 32%N :: collapseSpaces true t)
      else c :: collapseSpaces false t
  end.

(** ** Version 1.1.0 *)

Module V1_1.

Definition REGION_MAP : gmap jsstring jsstring :=
  list_to_map
    [ (str "montreal", str "montreal");
      (str "montr" ++ [233%N] ++ str "al", str "montreal");
      (str "quebec city", str "quebec");
      (str "qu" ++ [233%N] ++ str "bec", str "quebec");
      (str "laval", str "laval");
      (str "longueuil", str "longueuil");
      (str "gatineau", str "gatineau");
      (str "sherbrooke", str "sherbrooke");
      (str "trois-rivi" ++ [232%N] ++ str "res", str "trois-rivieres");
      (str "trois-rivieres", str "trois-rivieres");
      (str "saguenay", str "saguenay");
      (str "l" ++ [233%N] ++ str "vis", str "levis");
      (str "levis", str "levis");
      (str "terrebonne", str "terrebonne");
      (str "brossard", str "brossard");
      (str "repentigny", str "repentigny") ].

Definition regionSlug : jsstring -> jsstring := regionSlugIn REGION_MAP.

(** [buildRegionSearchUrl(region, pageNumber = 1)] *)
Definition buildRegionSearchUrl : Config -> jsstring -> Z -> jsstring :=
  buildRegionSearchUrlIn REGION_MAP.

(** The price of a result card, read inside [extractListingsFromPage] (and
    again on the detail page):
<<
    if (priceEl && priceEl.textContent.includes('$')) {
        listing.priceFormatted = priceEl.textContent.trim();
        listing.price = parseInt(listing.priceFormatted.replace(/[^0-9]/g, ''), 10) || null;
        break;
    }
>>
    [inlinePrice] is the right-hand side of the second assignment. *)
Definition inlinePrice (priceFormatted : jsstring) : jsnum :=
  or_null (parseInt (List.filter is_digit priceFormatted)).

(** The loop over the price selectors; the result is the pair
    [(priceFormatted, price)] of the listing. *)
Fixpoint cardPrice (els : list (option jsstring)) : option jsstring * jsnum :=
  match els with
  | [] => (None, JUndefined)
  | None :: rest => cardPrice rest
  | Some text :: rest =>
      if includes text (str "$")
      then (Some (trim text), inlinePrice (trim text))
      else cardPrice rest
  end.

(** The body of [cards.forEach] in [extractListingsFromPage]: the listing of
    a card, kept when it has a URL of the site. *)
Definition extractCard (card : Card) : option Listing :=
  let listing :=
    {| url := linkHref card;
       priceFormatted := fst (cardPrice (priceTexts card));
       price := snd (cardPrice (priceTexts card));
       propertyType := trim <$> typeText card;
       bedrooms := cardBedrooms card;
       bathrooms := cardBathrooms card;
       livingArea := JUndefined; lotSize := JUndefined;
       yearBuilt := JUndefined;
       transactionType := None |} in
  match url listing with
  | Some u => if includes u (str "centris.ca") then Some listing else None
  | None => None
  end.

Definition extractListingsFromPage (page : Page) : list Listing :=
  omap extractCard (cards page).

(** [details.transactionType = searchType === 'rent' ? 'Rent' : 'Sale'] *)
Definition transactionTypeOf (cfg : Config) : jsstring :=
  if isRent cfg then str "Rent" else str "Sale".

(** [extractListingDetails(page, basicListing)]: the page data is merged
    over the summary; a failure while reading the page is caught and leaves
    the summary as it is.  The transaction type is set in both cases. *)
Definition extractListingDetails (cfg : Config) (page : Page)
    (basicListing : Listing) : Listing :=
  let details :=
    if evaluateThrows page then basicListing
    else
      let priceFound := trim <$> detailPriceText page in
      {| url := url basicListing;
         priceFormatted :=
           match priceFound with
           | Some ((_ :: _) as t) => Some t
           | Some [] => None
           | None => priceFormatted basicListing
           end;
         price :=
           match priceFound with
           | Some ((_ :: _) as t) => inlinePrice t
           | _ => price basicListing
           end;
         propertyType := propertyType basicListing;
         bedrooms := assigned (detailBedrooms page) (bedrooms basicListing);
         bathrooms := assigned (detailBathrooms page) (bathrooms basicListing);
         livingArea := assigned (detailLivingArea page) (livingArea basicListing);
         lotSize := lotSize basicListing;
         yearBuilt := assigned (detailYearBuilt page) (yearBuilt basicListing);
         transactionType := transactionType basicListing |} in
  set_transactionType (transactionTypeOf cfg) details.

(** The loop [for (const listing of listings)] of the search-page branch,
    returning the final value of [processed]. *)
Fixpoint processListings (cfg : Config) (listings : list Listing)
    (processed : Z) (st : RunState) : Z * RunState :=
  match listings with
  | [] => (processed, st)
  | listing :: rest =>
      if maxListings cfg <=? listingsScraped st + processed
      then (processed, st)                                       (* break *)
      else
        match url listing with
        | Some ((_ :: _) as u) =>
            let st :=
              if includeDetails cfg then addRequest u (LISTING listing) st
              else
                incrListingsScraped
                  (pushData
                     (ListingItem (set_transactionType (transactionTypeOf cfg) listing))
                     st) in
            processListings cfg rest (processed + 1) st
        | _ => processListings cfg rest processed st
        end
  end.

(** The block [// Look for pagination / next page]. *)
Definition paginate (cfg : Config) (page : Page) (listings : list Listing)
    (processed : Z) (st : RunState) : RunState :=
  if (listingsScraped st + processed <? maxListings cfg)
     && (0 <? length listings)%nat
  then
    match nextHref page with
    | Some ((_ :: _) as nextUrl) =>
        if negb (includes nextUrl (str "javascript"))
        then addRequest (absoluteUrl nextUrl) LIST st
        else st
    | _ => st
    end
  else st.

Definition requestHandler (cfg : Config) (request : Request) (page : Page)
    (st : RunState) : Outcome :=
  match userData request with
  | LISTING basicListing =>
      let detailedListing := extractListingDetails cfg page basicListing in
      Finished (incrListingsScraped (pushData (ListingItem detailedListing) st))
  | LIST =>
      let st := incrPagesScraped st in
      if evaluateThrows page then Failed st
      else
        let listings := extractListingsFromPage page in
        let '(processed, st) := processListings cfg listings 0 st in
        Finished (paginate cfg page listings processed st)
  end.

Definition failedRequestHandler (cfg : Config) (request : Request)
    (st : RunState) : RunState :=
  pushData (FailedItem (requestUrl request)) (incrErrors st).

Definition crawler : Crawler :=
  {| onRequest := requestHandler;
     onFailedRequest := failedRequestHandler |}.

Definition startUrls (cfg : Config) : list jsstring :=
  match regions cfg with
  | [] => [buildRegionSearchUrl cfg (str "montreal") 1]
  | rs => List.map (fun r => buildRegionSearchUrl cfg r 1) rs
  end.

(** The whole run: the start URLs are enqueued and the queue is worked off. *)
Definition run (fuel : nat) (web : Web) (cfg : Config) : RunState :=
  crawl fuel crawler web cfg (enqueueAll (startUrls cfg) initialState).

(** [listing.url.match(/(\d{7,})/)]: the id of a listing, read off its URL. *)
Definition centrisIdOf (u : jsstring) : option jsstring := digitRun 7 u.

(** The body of the [forEach] over the images of a detail page. *)
Definition addImage (images : list jsstring) (img : Img) : list jsstring :=
  match srcOf img with
  | Some ((_ :: _) as src) =>
      if negb (arrayIncludes images src)
         && negb (includes src (str "logo"))
         && negb (includes src (str "icon"))
      then images ++ [src]
      else images
  | _ => images
  end.

(** [data.images = images.length > 0 ? images : null] *)
Definition pageImages (imgs : list Img) : option (list jsstring) :=
  match fold_left addImage imgs [] with
  | [] => None
  | images => Some images
  end.

End V1_1.

(** ** Version 2.0.0 *)

Module V2_0.

Definition REGION_MAP : gmap jsstring jsstring :=
  list_to_map
    [ (str "montreal", str "montreal");
      (str "montr" ++ [233%N] ++ str "al", str "montreal");
      (str "quebec city", str "quebec");
      (str "qu" ++ [233%N] ++ str "bec", str "quebec");
      (str "laval", str "laval");
      (str "longueuil", str "longueuil");
      (str "gatineau", str "gatineau");
      (str "sherbrooke", str "sherbrooke");
      (str "trois-rivi" ++ [232%N] ++ str "res", str "trois-rivieres");
      (str "trois-rivieres", str "trois-rivieres");
      (str "saguenay", str "saguenay");
      (str "l" ++ [233%N] ++ str "vis", str "levis");
      (str "levis", str "levis");
      (str "terrebonne", str "terrebonne");
      (str "brossard", str "brossard");
      (str "repentigny", str "repentigny");
      (str "drummondville", str "drummondville");
      (str "saint-jean-sur-richelieu", str "saint-jean-sur-richelieu");
      (str "saint-jerome", str "saint-jerome");
      (str "granby", str "granby");
      (str "blainville", str "blainville");
      (str "saint-hyacinthe", str "saint-hyacinthe");
      (str "shawinigan", str "shawinigan");
      (str "dollard-des-ormeaux", str "dollard-des-ormeaux");
      (str "rimouski", str "rimouski");
      (str "victoriaville", str "victoriaville");
      (str "saint-eustache", str "saint-eustache");
      (str "mascouche", str "mascouche") ].

(** [PROPERTY_TYPE_MAP]: the synonyms of each property-type category. *)
Definition PROPERTY_TYPE_MAP : gmap jsstring (list jsstring) :=
  list_to_map
    [ (str "house", List.map str ["maison"; "house"; "detached"; "unifamiliale"]%string);
      (str "condo", List.map str ["condo"; "condominium"; "appartement"; "apartment"]%string);
      (str "plex", List.map str ["plex"; "duplex"; "triplex"; "quadruplex"; "multiplex"; "revenue"]%string);
      (str "land", List.map str ["terrain"; "land"; "lot"]%string);
      (str "commercial", List.map str ["commercial"; "industriel"; "industrial"]%string);
      (str "farm", List.map str ["ferme"; "farm"; "agricole"]%string);
      (str "cottage", List.map str ["chalet"; "cottage"]%string) ].

(** [PROPERTY_TYPE_MAP[requestedType.toLowerCase()] || [requestedType.toLowerCase()]],
    as the [for ... of] loop that follows can use it: an array of the table,
    the one-element array of the fallback, or [None] for an inherited
    property, which is truthy and not iterable. *)
Definition typeVariants (requestedType : jsstring) : option (list jsstring) :=
  let key := toLowerCase requestedType in
  match object_get PROPERTY_TYPE_MAP key with
  | None => Some [key]
  | Some (Own variants) => Some variants
  | Some _ => None
  end.

(** The two nested loops of the property-type filter; the value returned is
    [typeMatched] when they end. *)
Fixpoint typeMatched (listingType : jsstring) (requested : list jsstring)
  : result bool :=
  match requested with
  | [] => Returns false
  | requestedType :: rest =>
      match typeVariants requestedType with
      | None => Throws
      | Some variants =>
          if existsb (includes listingType) variants then Returns true
          else typeMatched listingType rest
      end
  end.

(** [matchesFilters(listing)], check by check in the order of the source. *)
Definition matchesFilters (cfg : Config) (listing : Listing) : result bool :=
  (* Price filter *)
  if (0 <? minPrice cfg) && truthy (price listing)
     && js_lt (price listing) (minPrice cfg) then Returns false
  else if (0 <? maxPrice cfg) && truthy (price listing)
     && js_gt (price listing) (maxPrice cfg) then Returns false
  (* Bedrooms filter *)
  else if (0 <? minBedrooms cfg) && not_null (bedrooms listing)
     && js_lt (bedrooms listing) (minBedrooms cfg) then Returns false
  else if (0 <? maxBedrooms cfg) && not_null (bedrooms listing)
     && js_gt (bedrooms listing) (maxBedrooms cfg) then Returns false
  (* Bathrooms filter *)
  else if (0 <? minBathrooms cfg) && not_null (bathrooms listing)
     && js_lt (bathrooms listing) (minBathrooms cfg) then Returns false
  else if (0 <? maxBathrooms cfg) && not_null (bathrooms listing)
     && js_gt (bathrooms listing) (maxBathrooms cfg) then Returns false
  (* Living area filter *)
  else if (0 <? minLivingArea cfg) && not_null (livingArea listing)
     && js_lt (livingArea listing) (minLivingArea cfg) then Returns false
  else if (0 <? maxLivingArea cfg) && not_null (livingArea listing)
     && js_gt (livingArea listing) (maxLivingArea cfg) then Returns false
  (* Year built filter *)
  else if (0 <? yearBuiltMin cfg) && not_null (yearBuilt listing)
     && js_lt (yearBuilt listing) (yearBuiltMin cfg) then Returns false
  else if (0 <? yearBuiltMax cfg) && not_null (yearBuilt listing)
     && js_gt (yearBuilt listing) (yearBuiltMax cfg) then Returns false
  (* Property type filter *)
  else if negb (Nat.eqb (length (propertyTypes cfg)) 0)
     && nonempty (propertyType listing) then
    match propertyType listing with
    | Some t => typeMatched (toLowerCase t) (propertyTypes cfg)
    | None => Returns true
    end
  else Returns true.

(** [buildRegionSearchUrl(region, pageNumber = 1)] *)
Definition buildRegionSearchUrl : Config -> jsstring -> Z -> jsstring :=
  buildRegionSearchUrlIn REGION_MAP.

(** A loop over selectors that keeps the trimmed text of the first element
    whose text is not blank, and otherwise the empty text of the last element
    it found. *)
Fixpoint firstText (els : list (option jsstring)) (found : option jsstring)
  : option jsstring :=
  match els with
  | [] => found
  | None :: rest => firstText rest found
  | Some text :: rest =>
      match trim text with
      | [] => firstText rest (Some [])
      | t => Some t
      end
  end.

(** The body of [cards.forEach] in [extractListingsFromPage]; the price is
    left for the request handler to parse. *)
Definition extractCard (card : Card) : option Listing :=
  match linkHref card with
  | Some ((_ :: _) as u) =>
      if includes u (str "centris.ca")
      then Some {| url := Some u;
                   priceFormatted := firstText (priceTexts card) None;
                   price := JUndefined;
                   propertyType := firstText [typeText card] None;
                   bedrooms := cardBedrooms card;
                   bathrooms := cardBathrooms card;
                   livingArea := JUndefined; lotSize := JUndefined;
                   yearBuilt := JUndefined;
                   transactionType := None |}
      else None
  | _ => None
  end.

Definition extractListingsFromPage (page : Page) : list Listing :=
  omap extractCard (cards page).

(** [extractListingDetails(page, basicListing)], which returns
    [{ ...basicListing, ...details }] when reading the page does not raise. *)
Definition extractListingDetails (page : Page) (basicListing : Listing)
  : Listing :=
  {| url := url basicListing;
     priceFormatted :=
       match detailPriceText page with
       | Some t => Some (trim t)
       | None => priceFormatted basicListing
       end;
     price := price basicListing;
     propertyType :=
       match detailPropertyType page with
       | Some t => Some (trim t)
       | None => propertyType basicListing
       end;
     bedrooms := assigned (detailBedrooms page) (bedrooms basicListing);
     bathrooms := assigned (detailBathrooms page) (bathrooms basicListing);
     livingArea := assigned (detailLivingArea page) (livingArea basicListing);
     lotSize := lotSize basicListing;
     yearBuilt := assigned (detailYearBuilt page) (yearBuilt basicListing);
     transactionType := transactionType basicListing |}.

(** [searchType === 'rent' ? 'Rental' : 'Sale'] *)
Definition transactionTypeOf (cfg : Config) : jsstring :=
  if isRent cfg then str "Rental" else str "Sale".

(** The block [// Parse price if needed]. *)
Definition parsePriceIfNeeded (detailedListing : Listing) : Listing :=
  if negb (truthy (price detailedListing))
     && nonempty (priceFormatted detailedListing)
  then set_price (parsePrice (priceFormatted detailedListing)) detailedListing
  else detailedListing.

(** The branch [if (isListingPage && basicData)]: everything sits in a
    [try] whose [catch] counts an error. *)
Definition handleListing (cfg : Config) (page : Page) (basicData : Listing)
    (st : RunState) : RunState :=
  if evaluateThrows page then incrErrors st
  else
    let detailedListing :=
      parsePriceIfNeeded (extractListingDetails page basicData) in
    match matchesFilters cfg detailedListing with
    | Returns true =>
        incrListingsScraped
          (pushData
             (ListingItem (set_transactionType (transactionTypeOf cfg) detailedListing))
             st)
    | Returns false => incrListingsFiltered st
    | Throws => incrErrors st
    end.

(** The loop [for (const listing of listings)] of the search-page branch;
    [Failed] is an exception on its way to the [catch] of the handler. *)
Fixpoint processListings (cfg : Config) (listings : list Listing)
    (st : RunState) : Outcome :=
  match listings with
  | [] => Finished st
  | listing :: rest =>
      if maxListings cfg <=? listingsScraped st then Finished st   (* break *)
      else
        let priced := nonempty (priceFormatted listing) in
        let listing :=
          if priced then set_price (parsePrice (priceFormatted listing)) listing
          else listing in
        if priced && (0 <? minPrice cfg) && truthy (price listing)
           && js_lt (price listing) (minPrice cfg)
        then processListings cfg rest (incrListingsFiltered st)   (* continue *)
        else if priced && (0 <? maxPrice cfg) && truthy (price listing)
           && js_gt (price listing) (maxPrice cfg)
        then processListings cfg rest (incrListingsFiltered st)   (* continue *)
        else
          match url listing with
          | Some ((_ :: _) as u) =>
              if includeDetails cfg
              then processListings cfg rest (addRequest u (LISTING listing) st)
              else
                let listing :=
                  set_price
                    (if truthy (price listing) then price listing
                     else parsePrice (priceFormatted listing))
                    listing in
                match matchesFilters cfg listing with
                | Returns true =>
                    processListings cfg rest
                      (incrListingsScraped
                         (pushData
                            (ListingItem
                               (set_transactionType (transactionTypeOf cfg) listing))
                            st))
                | Returns false =>
                    processListings cfg rest (incrListingsFiltered st)
                | Throws => Failed st
                end
          | _ => processListings cfg rest st
          end
  end.

(** The block [// Try to find and enqueue next page if we need more listings]. *)
Definition paginate (cfg : Config) (page : Page) (listings : list Listing)
    (st : RunState) : RunState :=
  if (listingsScraped st <? maxListings cfg) && (0 <? length listings)%nat
  then
    match nextHref page with
    | Some ((_ :: _) as href) => addRequest (absoluteUrl href) LIST st
    | _ => st
    end
  else st.

Definition requestHandler (cfg : Config) (request : Request) (page : Page)
    (st : RunState) : Outcome :=
  match userData request with
  | LISTING basicData => Finished (handleListing cfg page basicData st)
  | LIST =>
      let st := incrPagesScraped st in
      if evaluateThrows page then Finished (incrErrors st)
      else
        let listings := extractListingsFromPage page in
        match processListings cfg listings st with
        | Finished st => Finished (paginate cfg page listings st)
        | Failed st => Finished (incrErrors st)
        end
  end.

Definition failedRequestHandler (cfg : Config) (request : Request)
    (st : RunState) : RunState :=
  incrErrors st.

Definition crawler : Crawler :=
  {| onRequest := requestHandler;
     onFailedRequest := failedRequestHandler |}.

Definition startUrls (cfg : Config) : list jsstring :=
  List.map (fun r => buildRegionSearchUrl cfg r 1) (regions cfg).

Definition run (fuel : nat) (web : Web) (cfg : Config) : RunState :=
  crawl fuel crawler web cfg (enqueueAll (startUrls cfg) initialState).

(** [parseNumber(str)]:
<<
    if (!str) return null;
    const match = str.match(/(\d+)/);
    return match ? parseInt(match[1], 10) : null;
>> *)
Definition parseNumber (s : option jsstring) : jsnum :=
  match s with
  | None | Some [] => JNull
  | Some t =>
      match takeWhile is_digit (dropWhile (fun c => negb (is_digit c)) t) with
      | [] => JNull
      | digits => parseInt digits
      end
  end.

(** The regular expression [/\/(\d{7,8})(?:[?#]|$)/] tried at the head of
    [s]: a slash, a run of seven or eight digits, and then [?], [#] or the
    end of the text. *)
Definition idAt (s : jsstring) : option jsstring :=
  match s with
  | 47%N :: t =>
      let run := takeWhile is_digit t in
      if ((length run =? 7)%nat || (length run =? 8)%nat)
         && match dropWhile is_digit t with
            | [] => true
            | c :: _ => (c =? 63)%N || (c =? 35)%N
            end
      then Some run
      else None
  | _ => None
  end.

(** [listing.url.match(/\/(\d{7,8})(?:[?#]|$)/)] *)
Fixpoint centrisIdOf (u : jsstring) : option jsstring :=
  match idAt u with
  | Some id => Some id
  | None =>
      match u with
      | [] => None
      | _ :: t => centrisIdOf t
      end
  end.

(** The body of the [forEach] over the images of a detail page. *)
Definition addImage (images : list jsstring) (img : Img) : list jsstring :=
  match srcOf img with
  | Some ((_ :: _) as src) =>
      if negb (arrayIncludes images src) && includes src (str "media.ashx")
      then images ++ [src]
      else images
  | _ => images
  end.

(** [data.images = images.slice(0, 20)] *)
Definition pageImages (imgs : list Img) : list jsstring :=
  take 20 (fold_left addImage imgs []).

End V2_0.

(** ** Version 1.0.0 *)

(** A property of an address object: the object does not have it ([Unset],
    which reads as [undefined] and is left out of the JSON output), or it
    holds [null], or it holds a string. *)
Inductive jsfield : Type :=
  | Unset
  | Null
  | Text (s : jsstring).

Record Address : Type := {
  street : jsfield;
  city : jsfield;
  region : jsfield;
  postalCode : jsfield
}.

(** The object literal [{}]. *)
Definition emptyAddress : Address :=
  {| street := Unset; city := Unset; region := Unset; postalCode := Unset |}.

Definition with_street (v : jsfield) (a : Address) : Address :=
  {| street := v; city := city a; region := region a; postalCode := postalCode a |}.
Definition with_city (v : jsfield) (a : Address) : Address :=
  {| street := street a; city := v; region := region a; postalCode := postalCode a |}.
Definition with_region (v : jsfield) (a : Address) : Address :=
  {| street := street a; city := city a; region := v; postalCode := postalCode a |}.
Definition with_postalCode (v : jsfield) (a : Address) : Address :=
  {| street := street a; city := city a; region := region a; postalCode := v |}.

(** [parts[i]]: the element, or [undefined] past the end of the array. *)
Definition element (parts : list jsstring) (i : nat) : jsfield :=
  match parts !! i with
  | Some p => Text p
  | None => Unset
  end.

(** The regular expression [/[A-Z]\d[A-Z]\s*\d[A-Z]\d/i] tried at the head
    of [s]: the matched text and what follows it.  The star is greedy, and
    giving white space back never helps, since a digit must come next. *)
Definition matchPostalAt (s : jsstring) : option (jsstring * jsstring) :=
  match s with
  | a :: b :: c :: t =>
      if is_letter a && is_digit b && is_letter c then
        match dropWhile is_space t with
        | d :: e :: f :: rest =>
            if is_digit d && is_letter e && is_digit f
            then Some (a :: b :: c :: takeWhile is_space t ++ [d; e; f], rest)
            else None
        | _ => None
        end
      else None
  | _ => None
  end.

(** [s.match(/[A-Z]\d[A-Z]\s*\d[A-Z]\d/i)]: the leftmost match, with the text
    before it and the text after it. *)
Fixpoint searchPostal (s : jsstring) : option (jsstring * jsstring * jsstring) :=
  match matchPostalAt s with
  | Some (m, rest) => Some ([], m, rest)
  | None =>
      match s with
      | [] => None
      | c :: t =>
          match searchPostal t with
          | Some (before, m, rest) => Some (c :: before, m, rest)
          | None => None
          end
      end
  end.

Module V1_0.

(** [parseAddress(fullAddress)]: [None] is a missing argument, and a
    property of the result is [Unset] when the function does not set it.
<<
    if (!fullAddress) return {};
    const parts = fullAddress.split(',').map(p => p.trim());
    const result = {};
    if (parts.length >= 1) result.street = parts[0];
    if (parts.length >= 2) result.city = parts[1];
    if (parts.length >= 3) {
        const postalMatch = parts[2].match(/[A-Z]\d[A-Z]\s*\d[A-Z]\d/i);
        if (postalMatch) {
            result.postalCode = postalMatch[0].toUpperCase();
            result.region = parts[2].replace(postalMatch[0], '').trim();
        } else {
            result.region = parts[2];
        }
    }
    if (parts.length >= 4) result.postalCode = parts[3];
    return result;
>> *)
Definition parseAddress (fullAddress : option jsstring) : Address :=
  match fullAddress with
  | None | Some [] => emptyAddress
  | Some text =>
      let parts := List.map trim (split 44%N text) in
      let result := emptyAddress in
      let result :=
        if (1 <=? length parts)%nat then with_street (element parts 0) result
        else result in
      let result :=
        if (2 <=? length parts)%nat then with_city (element parts 1) result
        else result in
      let result :=
        if (3 <=? length parts)%nat then
          match parts !! 2%nat with
          | Some part =>
              match searchPostal part with
              | Some (_, postalMatch, _) =>
                  with_region (Text (trim (remove_first part postalMatch)))
                    (with_postalCode (Text (toUpperCase postalMatch)) result)
              | None => with_region (Text part) result
              end
          | None => result
          end
        else result in
      let result :=
        if (4 <=? length parts)%nat then with_postalCode (element parts 3) result
        else result in
      result
  end.

(** [extractListingFromCard(element, page)]: the listing of a card, with
    the transaction type already on it.  The address of the card goes
    through [parseAddress]; it is not among the properties kept here. *)
Definition extractListingFromCard (cfg : Config) (card : Card) : Listing :=
  let priceEl := List.find (fun el => bool_decide (is_Some el)) (priceTexts card) in
  let priceFound := trim <$> mjoin priceEl in
  {| url := absoluteUrl <$> linkHref card;
     priceFormatted := priceFound;
     price :=
       match priceFound with
       | Some t => parsePrice (Some t)
       | None => JUndefined
       end;
     propertyType := trim <$> typeText card;
     bedrooms := cardBedrooms card;
     bathrooms := cardBathrooms card;
     livingArea := JUndefined; lotSize := JUndefined; yearBuilt := JUndefined;
     transactionType := Some (if isRent cfg then str "Rent" else str "Sale") |}.

(** [extractListingDetails(page, basicListing)]: the specification rows of
    the page are written over a copy of the summary; a failure while reading
    the page is caught and leaves the copy as it is. *)
Definition extractListingDetails (page : Page) (basicListing : Listing)
  : Listing :=
  if evaluateThrows page then basicListing
  else
    {| url := url basicListing;
       priceFormatted := priceFormatted basicListing;
       price := price basicListing;
       propertyType := propertyType basicListing;
       bedrooms := bedrooms basicListing;
       bathrooms := bathrooms basicListing;
       livingArea := assigned (detailLivingArea page) (livingArea basicListing);
       lotSize := assigned (detailLotSize page) (lotSize basicListing);
       yearBuilt := assigned (detailYearBuilt page) (yearBuilt basicListing);
       transactionType := transactionType basicListing |}.

(** The loop [for (const card of cards)], which fills [listingsToProcess]. *)
Fixpoint collectListings (cfg : Config) (st : RunState) (cards : list Card)
    (listingsToProcess : list Listing) : list Listing :=
  match cards with
  | [] => listingsToProcess
  | card :: rest =>
      if maxListings cfg <=? listingsScraped st + Z.of_nat (length listingsToProcess)
      then listingsToProcess                                      (* break *)
      else
        let listing := extractListingFromCard cfg card in
        if nonempty (url listing)
        then collectListings cfg st rest (listingsToProcess ++ [listing])
        else collectListings cfg st rest listingsToProcess
  end.

Definition enqueueListing (st : RunState) (listing : Listing) : RunState :=
  match url listing with
  | Some u => addRequest u (LISTING listing) st
  | None => st
  end.

Definition saveListing (st : RunState) (listing : Listing) : RunState :=
  incrListingsScraped (pushData (ListingItem listing) st).

(** The block [// Check for next page]. *)
Definition paginate (cfg : Config) (page : Page)
    (listingsToProcess : list Listing) (st : RunState) : RunState :=
  if listingsScraped st + Z.of_nat (length listingsToProcess) <? maxListings cfg
  then
    match nextHref page with
    | Some ((_ :: _) as nextUrl) => addRequest (absoluteUrl nextUrl) LIST st
    | _ => st
    end
  else st.

(** [requestHandler]; [page.waitForSelector] for the result cards raises
    when its time runs out, which is the case of a page without cards. *)
Definition requestHandler (cfg : Config) (request : Request) (page : Page)
    (st : RunState) : Outcome :=
  match userData request with
  | LISTING basicListing =>
      let item :=
        if includeDetails cfg then extractListingDetails page basicListing
        else basicListing in
      Finished (incrListingsScraped (pushData (ListingItem item) st))
  | LIST =>
      let st := incrPagesScraped st in
      if evaluateThrows page || bool_decide (cards page = []) then Failed st
      else
        let listingsToProcess := collectListings cfg st (cards page) [] in
        let st :=
          if includeDetails cfg
          then fold_left enqueueListing listingsToProcess st
          else fold_left saveListing listingsToProcess st in
        Finished (paginate cfg page listingsToProcess st)
  end.

Definition failedRequestHandler (cfg : Config) (request : Request)
    (st : RunState) : RunState :=
  pushData (FailedItem (requestUrl request)) (incrErrors st).

Definition crawler : Crawler :=
  {| onRequest := requestHandler;
     onFailedRequest := failedRequestHandler |}.

Definition REGION_MAP : gmap jsstring jsstring :=
  list_to_map
    [ (str "montreal", str "montreal");
      (str "montr" ++ [233%N] ++ str "al", str "montreal");
      (str "quebec city", str "quebec");
      (str "qu" ++ [233%N] ++ str "bec", str "quebec");
      (str "laval", str "laval");
      (str "longueuil", str "longueuil");
      (str "gatineau", str "gatineau");
      (str "sherbrooke", str "sherbrooke");
      (str "trois-rivi" ++ [232%N] ++ str "res", str "trois-rivieres");
      (str "trois-rivieres", str "trois-rivieres");
      (str "saguenay", str "saguenay");
      (str "l" ++ [233%N] ++ str "vis", str "levis");
      (str "levis", str "levis");
      (str "terrebonne", str "terrebonne");
      (str "saint-jean-sur-richelieu", str "saint-jean-sur-richelieu");
      (str "brossard", str "brossard");
      (str "repentigny", str "repentigny");
      (str "drummondville", str "drummondville");
      (str "saint-j" ++ [233%N] ++ str "r" ++ [244%N] ++ str "me", str "saint-jerome");
      (str "granby", str "granby") ].

(** Property types as the query parameter [pt] names them. *)
Definition PROPERTY_TYPE_MAP : gmap jsstring jsstring :=
  list_to_map
    [ (str "house", str "maison"); (str "condo", str "condo");
      (str "plex", str "plex"); (str "land", str "terrain");
      (str "commercial", str "commercial"); (str "farm", str "ferme");
      (str "cottage", str "chalet") ].

Definition PROPERTY_TYPE_MAP_EN : gmap jsstring jsstring :=
  list_to_map
    [ (str "house", str "house"); (str "condo", str "condo");
      (str "plex", str "plex"); (str "land", str "land");
      (str "commercial", str "commercial"); (str "farm", str "farm");
      (str "cottage", str "cottage") ].

Definition SORT_MAP : gmap jsstring jsstring :=
  list_to_map
    [ (str "date_desc", str "DateDescending");
      (str "date_asc", str "DateAscending");
      (str "price_asc", str "PriceAscending");
      (str "price_desc", str "PriceDescending") ].

(** [buildRegionSearchUrl(region, pageNumber = 1)] of version 1.0.0, which
    sends the property types, the price, bedroom and bathroom bounds, the
    sort order and the page number.  [sortBy] is the input field of that
    name. *)
Definition buildRegionSearchUrl (cfg : Config) (sortBy : jsstring)
    (regionName : jsstring) (pageNumber : Z) : jsstring :=
  let isFrench := jsstring_eqb (language cfg) (str "fr") in
  let regionSlug := regionSlugIn REGION_MAP regionName in
  let baseUrl :=
    if isRent cfg then
      if isFrench
      then CENTRIS_BASE_URL ++ str "/fr/propriete~a-louer~" ++ regionSlug
      else CENTRIS_BASE_URL ++ str "/en/properties~for-rent~" ++ regionSlug
    else
      if isFrench
      then CENTRIS_BASE_URL ++ str "/fr/propriete~a-vendre~" ++ regionSlug
      else CENTRIS_BASE_URL ++ str "/en/properties~for-sale~" ++ regionSlug in
  let params := [] in
  let params :=
    if (0 <? length (propertyTypes cfg))%nat then
      let typeMap := if isFrench then PROPERTY_TYPE_MAP else PROPERTY_TYPE_MAP_EN in
      let types :=
        join (str ",") (List.map (fun t => lookupOr typeMap t t) (propertyTypes cfg)) in
      params ++ [(str "pt", types)]
    else params in
  let params :=
    if 0 <? minPrice cfg
    then params ++ [(str "pmin", digits_of (minPrice cfg))] else params in
  let params :=
    if 0 <? maxPrice cfg
    then params ++ [(str "pmax", digits_of (maxPrice cfg))] else params in
  let params :=
    if 0 <? minBedrooms cfg
    then params ++ [(str "nbmin", digits_of (minBedrooms cfg))] else params in
  let params :=
    if 0 <? maxBedrooms cfg
    then params ++ [(str "nbmax", digits_of (maxBedrooms cfg))] else params in
  let params :=
    if 0 <? minBathrooms cfg
    then params ++ [(str "sbmin", digits_of (minBathrooms cfg))] else params in
  let params :=
    if 0 <? maxBathrooms cfg
    then params ++ [(str "sbmax", digits_of (maxBathrooms cfg))] else params in
  let params :=
    params ++ [(str "sort", lookupOr SORT_MAP sortBy (str "DateDescending"))] in
  let params :=
    if 1 <? pageNumber
    then params ++ [(str "page", digits_of pageNumber)] else params in
  let queryString := serializeParams params in
  match queryString with
  | [] => baseUrl
  | _ => baseUrl ++ str "?" ++ queryString
  end.

(** [href?.match(/(\d{8,})/)]: the id of a listing, read off its link. *)
Definition idOf (href : jsstring) : option jsstring := digitRun 8 href.

(** The regular expression [/\/\d+x\d+\//] tried at the head of [s]: what
    follows the match. *)
Definition sizeSegmentAt (s : jsstring) : option jsstring :=
  match s with
  | 47%N :: t =>
      match takeWhile is_digit t, dropWhile is_digit t with
      | _ :: _, 120%N :: t2 =>
          match takeWhile is_digit t2, dropWhile is_digit t2 with
          | _ :: _, 47%N :: rest => Some rest
          | _, _ => None
          end
      | _, _ => None
      end
  | _ => None
  end.

(** [src.replace(/\/\d+x\d+\//, '/1200x800/')]: the first size segment of
    the URL of an image is set to 1200x800. *)
Fixpoint highRes (src : jsstring) : jsstring :=
  match sizeSegmentAt src with
  | Some rest => str "/1200x800/" ++ rest
  | None =>
      match src with
      | [] => []
      | c :: t => c :: highRes t
      end
  end.

(** The body of the loop over the images of a detail page. *)
Definition addImage (images : list jsstring) (img : Img) : list jsstring :=
  match srcOf img with
  | Some ((_ :: _) as src) =>
      if negb (arrayIncludes images src) then images ++ [highRes src]
      else images
  | _ => images
  end.

(** [details.images] after the block [if (includeImages)]: the property is
    set when images are asked for and the page has image elements.
    [includeImages] is the input field of that name. *)
Definition pageImages (includeImages : bool) (imgs : list Img)
  : option (list jsstring) :=
  if includeImages then
    match imgs with
    | [] => None
    | _ => Some (fold_left addImage imgs [])
    end
  else None.

End V1_0.

(** *** The address of a detail page (version 1.1.0)

    Inside [extractListingDetails]:
<<
    data.fullAddress = addressEl.textContent?.trim()?.replace(/\s+/g, ' ') || null;
    ...
    const parts = pageData.fullAddress.split(',').map(p => p.trim());
    details.address = { fullAddress: pageData.fullAddress,
        street: parts[0] || null, city: parts[1] || null, region: parts[2] || null };
>> *)

Definition detailFullAddress (textContent : jsstring) : option jsstring :=
  match collapseSpaces false (trim textContent) with
  | [] => None
  | t => Some t
  end.

(** [part || null]: a string that is not empty, and [null] otherwise. *)
Definition partOrNull (part : jsfield) : jsfield :=
  match part with
  | Text (_ :: _) => part
  | _ => Null
  end.

(** The address object built from a truthy [pageData.fullAddress]; it has no
    postal code. *)
Definition detailAddress (fullAddress : jsstring) : Address :=
  let parts := List.map trim (split 44%N fullAddress) in
  {| street := partOrNull (element parts 0);
     city := partOrNull (element parts 1);
     region := partOrNull (element parts 2);
     postalCode := Unset |}.

(** ** Vocabulary of the statements *)

(** *** The address parser as the claim words it

    The claim speaks of the pieces of a text between its commas, of a piece
    without the white space at its ends, and of a postal code found in a
    piece.  These are said here on their own terms, not through the
    functions of the parser. *)

(** [segs] are the pieces of [text] between its commas, in order. *)
Definition cut_at_commas (text : jsstring) (segs : list jsstring) : Prop :=
  segs <> [] /\ Forall (fun seg => ~ In 44%N seg) segs /\
  text = join (str ",") segs.

(** [t] is [s] without the white space at its two ends. *)
Definition stripped (s t : jsstring) : Prop :=
  (exists l r,
      s = l ++ t ++ r /\
      Forall (fun c => is_space c = true) l /\
      Forall (fun c => is_space c = true) r) /\
  (forall c rest, t = c :: rest -> is_space c = false) /\
  (forall init c, t = init ++ [c] -> is_space c = false).

(** The shape the regular expression accepts: letter, digit, letter, any
    white space, digit, letter, digit. *)
Inductive postal_code : jsstring -> Prop :=
  | postal_code_intro a b c ws d e f :
      is_letter a = true -> is_digit b = true -> is_letter c = true ->
      Forall (fun w => is_space w = true) ws ->
      is_digit d = true -> is_letter e = true -> is_digit f = true ->
      postal_code (a :: b :: c :: ws ++ [d; e; f]).

(** [m] is the first postal code in [s], with the text before it and the
    text after it: no postal code of [s] starts further to the left. *)
Definition first_postal (s before m after : jsstring) : Prop :=
  s = before ++ m ++ after /\ postal_code m /\
  forall b' m' a',
    s = b' ++ m' ++ a' -> postal_code m' -> (length before <= length b')%nat.

(** No part of [s] has the shape of a postal code. *)
Definition no_postal (s : jsstring) : Prop :=
  forall b m a, s = b ++ m ++ a -> ~ postal_code m.

(** The capital of a code unit of a postal code. *)
Definition capital (c : N) : N := if is_lower c then c - 32 else c.

(** A field read off a segment: the stripped segment, or [missing] where
    the text has no such segment. *)
Definition filled (missing : jsfield) (seg : option jsstring) (f : jsfield)
  : Prop :=
  match seg with
  | Some s => exists t, stripped s t /\ f = Text t
  | None => f = missing
  end.

(** The fields of [a] are read off the segments by position: segment 0 is
    the street, segment 1 the city; segment 2 is the region, or, when it
    holds a postal code, the first one (in capitals) is the postal code and
    the rest of the segment, stripped, is the region; segment 3, when there
    is one, is the postal code instead.  A field without segment is
    [missing]. *)
Definition by_position (missing : jsfield) (segs : list jsstring)
    (a : Address) : Prop :=
  filled missing (segs !! 0%nat) (street a) /\
  filled missing (segs !! 1%nat) (city a) /\
  match segs !! 2%nat with
  | None => region a = missing /\ postalCode a = missing
  | Some s =>
      exists t, stripped s t /\
        ((no_postal t /\ region a = Text t /\
          (segs !! 3%nat = None -> postalCode a = missing))
         \/
         (exists before m after r,
             first_postal t before m after /\
             stripped (before ++ after) r /\
             region a = Text r /\
             (segs !! 3%nat = None ->
              postalCode a = Text (List.map capital m))))
  end /\
  (forall s, segs !! 3%nat = Some s ->
     exists t, stripped s t /\ postalCode a = Text t).

(** The claim on one text: missing segments give [null]. *)
Definition parsed_as_claimed (text : jsstring) : Prop :=
  exists segs,
    cut_at_commas text segs /\
    by_position Null segs (V1_0.parseAddress (Some text)).

(** What the parser does on one text: missing segments leave the field
    unset. *)
Definition parsed_by_position (text : jsstring) : Prop :=
  exists segs,
    cut_at_commas text segs /\
    by_position Unset segs (V1_0.parseAddress (Some text)).

(** *** The range bounds of the filter *)

Inductive bound : Type :=
  | MinPrice | MaxPrice
  | MinBedrooms | MaxBedrooms
  | MinBathrooms | MaxBathrooms
  | MinLivingArea | MaxLivingArea
  | YearBuiltMin | YearBuiltMax.

Definition bound_eqb (a b : bound) : bool :=
  match a, b with
  | MinPrice, MinPrice | MaxPrice, MaxPrice
  | MinBedrooms, MinBedrooms | MaxBedrooms, MaxBedrooms
  | MinBathrooms, MinBathrooms | MaxBathrooms, MaxBathrooms
  | MinLivingArea, MinLivingArea | MaxLivingArea, MaxLivingArea
  | YearBuiltMin, YearBuiltMin | YearBuiltMax, YearBuiltMax => true
  | _, _ => false
  end.

(** The configured value of a bound; the bound is active when it is [> 0]. *)
Definition bound_value (b : bound) (cfg : Config) : Z :=
  match b with
  | MinPrice => minPrice cfg | MaxPrice => maxPrice cfg
  | MinBedrooms => minBedrooms cfg | MaxBedrooms => maxBedrooms cfg
  | MinBathrooms => minBathrooms cfg | MaxBathrooms => maxBathrooms cfg
  | MinLivingArea => minLivingArea cfg | MaxLivingArea => maxLivingArea cfg
  | YearBuiltMin => yearBuiltMin cfg | YearBuiltMax => yearBuiltMax cfg
  end.

(** The field of the listing a bound constrains. *)
Definition bound_field (b : bound) (l : Listing) : jsnum :=
  match b with
  | MinPrice | MaxPrice => price l
  | MinBedrooms | MaxBedrooms => bedrooms l
  | MinBathrooms | MaxBathrooms => bathrooms l
  | MinLivingArea | MaxLivingArea => livingArea l
  | YearBuiltMin | YearBuiltMax => yearBuilt l
  end.

(** The same configuration with one bound set to [v]. *)
Definition set_bound (b : bound) (v : Z) (cfg : Config) : Config :=
  let pick b' old := if bound_eqb b b' then v else old in
  {| searchType := searchType cfg;
     propertyTypes := propertyTypes cfg;
     regions := regions cfg;
     minPrice := pick MinPrice (minPrice cfg);
     maxPrice := pick MaxPrice (maxPrice cfg);
     minBedrooms := pick MinBedrooms (minBedrooms cfg);
     maxBedrooms := pick MaxBedrooms (maxBedrooms cfg);
     minBathrooms := pick MinBathrooms (minBathrooms cfg);
     maxBathrooms := pick MaxBathrooms (maxBathrooms cfg);
     minLivingArea := pick MinLivingArea (minLivingArea cfg);
     maxLivingArea := pick MaxLivingArea (maxLivingArea cfg);
     minLotSize := minLotSize cfg;
     maxLotSize := maxLotSize cfg;
     yearBuiltMin := pick YearBuiltMin (yearBuiltMin cfg);
     yearBuiltMax := pick YearBuiltMax (yearBuiltMax cfg);
     maxListings := maxListings cfg;
     includeDetails := includeDetails cfg;
     language := language cfg;
     maxRequestRetries := maxRequestRetries cfg |}.


(** The same configuration with the requested property types set to [ts]. *)
Definition set_propertyTypes (ts : list jsstring) (cfg : Config) : Config :=
  {| searchType := searchType cfg;
     propertyTypes := ts;
     regions := regions cfg;
     minPrice := minPrice cfg; maxPrice := maxPrice cfg;
     minBedrooms := minBedrooms cfg; maxBedrooms := maxBedrooms cfg;
     minBathrooms := minBathrooms cfg; maxBathrooms := maxBathrooms cfg;
     minLivingArea := minLivingArea cfg; maxLivingArea := maxLivingArea cfg;
     minLotSize := minLotSize cfg; maxLotSize := maxLotSize cfg;
     yearBuiltMin := yearBuiltMin cfg; yearBuiltMax := yearBuiltMax cfg;
     maxListings := maxListings cfg;
     includeDetails := includeDetails cfg;
     language := language cfg;
     maxRequestRetries := maxRequestRetries cfg |}.

(** *** The checks of the filter, one by one *)

(** The two checks on a field guarded by [!== null]. *)
Definition passes_range (lo hi : Z) (v : jsnum) : bool :=
  negb ((0 <? lo) && not_null v && js_lt v lo)
  && negb ((0 <? hi) && not_null v && js_gt v hi).

(** The two checks on the price, guarded by its truthiness. *)
Definition passes_price (lo hi : Z) (v : jsnum) : bool :=
  negb ((0 <? lo) && truthy v && js_lt v lo)
  && negb ((0 <? hi) && truthy v && js_gt v hi).

(** The property-type check. *)
Definition passes_type (cfg : Config) (listing : Listing) : result bool :=
  match propertyTypes cfg, propertyType listing with
  | _ :: _, Some ((_ :: _) as t) =>
      V2_0.typeMatched (toLowerCase t) (propertyTypes cfg)
  | _, _ => Returns true
  end.

(** *** Labels of the emitted listings *)

(** Every listing emitted so far carries one of the [allowed] labels. *)
Definition labelled (allowed : list jsstring) (st : RunState) : Prop :=
  Forall (fun l => exists t, transactionType l = Some t /\ In t allowed)
         (emitted st).

(** *** The filter as the claim words it *)










(** *** A bound that rejects *)

(** The value of a field is known to break a bound: the bound is active, the
    field holds a number, and the number is on the wrong side of the bound.
    A price of 0 counts as unknown. *)
Definition breaks (b : bound) (cfg : Config) (listing : Listing) : Prop :=
  0 < bound_value b cfg /\
  exists z, bound_field b listing = JNum z /\
    match b with
    | MinPrice => z <> 0 /\ z < bound_value b cfg
    | MaxPrice => z <> 0 /\ bound_value b cfg < z
    | MinBedrooms | MinBathrooms | MinLivingArea | YearBuiltMin =>
        z < bound_value b cfg
    | MaxBedrooms | MaxBathrooms | MaxLivingArea | YearBuiltMax =>
        bound_value b cfg < z
    end.

(** *** Texts of a URL *)

(** No code unit of the text is white space. *)
Definition spaceless (s : jsstring) : Prop :=
  Forall (fun c => is_space c = false) s.

(** The text is a sequence of 16-bit code units, as every JavaScript string
    is. *)
Definition utf16 (s : jsstring) : Prop :=
  Forall (fun c => (c < 65536)%N) s.

(** The key names a property every object inherits from [Object.prototype]. *)
Definition inheritedName (key : jsstring) : bool :=
  existsb (jsstring_eqb key) Object_prototype_methods
  || jsstring_eqb key (str "__proto__").

(** What the serializer writes: a safe byte, [+] or the [%] of an escape. *)
Definition encoded_unit (c : N) : Prop :=
  is_form_safe c || (c =? 43)%N || (c =? 37)%N = true.

(** *** Normal forms of texts *)

(** A field of an address is unset or holds a text without white space at
    its ends. *)
Definition trimmed_field (f : jsfield) : Prop :=
  forall t, f = Text t -> trim t = t.

(** Every white-space code unit of the text is a plain space (U+0020) and
    none follows another; [after_space] tells that the text comes after white
    space. *)
Fixpoint single_spaced (after_space : bool) (s : jsstring) : bool :=
  match s with
  | [] => true
  | c :: t =>
      if is_space c
      then (c =? 32)%N && negb after_space && single_spaced true t
      else single_spaced false t
  end.

(** The words of a text: its maximal runs of code units that are not white
    space, in order. *)
Fixpoint words (s : jsstring) : list jsstring :=
  match s with
  | [] => []
  | c :: t =>
      if is_space c then words t
      else
        match t with
        | [] => [[c]]
        | d :: _ =>
            if is_space d then [c] :: words t
            else
              match words t with
              | w :: ws => (c :: w) :: ws
              | [] => [[c]]
              end
        end
  end.

(** *** Listing ids *)

(** [r] is what the search for a run of at least [min] digits gives on [u]:
    the leftmost such run, taken to its end, or nothing when no position of
    [u] starts [min] digits. *)
Definition is_id_of (min : nat) (u : jsstring) (r : option jsstring) : Prop :=
  match r with
  | Some id =>
      Forall (fun c => is_digit c = true) id /\ (min <= length id)%nat /\
      exists a b,
        u = a ++ id ++ b /\ takeWhile is_digit b = [] /\
        forall a1 a2, a = a1 ++ a2 -> a2 <> [] ->
          (length (takeWhile is_digit (a2 ++ id ++ b)) < min)%nat
  | None =>
      forall a b, u = a ++ b -> (length (takeWhile is_digit b) < min)%nat
  end.

(** The text that may follow the id in a URL of version 2.0.0: nothing, a
    query or a fragment. *)
Definition ends_path (b : jsstring) : Prop :=
  b = [] \/ exists c b', b = c :: b' /\ (c = 63%N \/ c = 35%N).

(** *** Images of a page *)

(** [src] is a non-empty image address given by an [img] element of the
    page. *)
Definition shown (imgs : list Img) (src : jsstring) : Prop :=
  src <> [] /\ exists img, In img imgs /\ srcOf img = Some src.

(** The image address of an [img] element, when it has one that is not
    empty. *)
Definition addressOf (img : Img) : option jsstring :=
  match srcOf img with
  | Some ((_ :: _) as src) => Some src
  | _ => None
  end.

(** An [img] element with the given [src] attribute. *)
Definition imgOf (src : jsstring) : Img :=
  {| imgSrc := Some src; imgDataSrc := None |}.

(** *** Invariants of a run *)

(** The listings and the failure records of a dataset. *)
Definition listingsIn (d : list Item) : list Listing :=
  omap (fun i => match i with ListingItem l => Some l | FailedItem _ => None end) d.

Definition failuresIn (d : list Item) : list jsstring :=
  omap (fun i => match i with FailedItem u => Some u | ListingItem _ => None end) d.

Definition failures (st : RunState) : list jsstring := failuresIn (dataset st).

(** The listing has a URL, and the URL names the site. *)
Definition from_centris (l : Listing) : Prop :=
  exists u, url l = Some u /\ includes u (str "centris.ca") = true.

(** The summary a detail task carries satisfies [Q]. *)
Definition label_ok (Q : Listing -> Prop) (r : Request) : Prop :=
  match userData r with
  | LISTING l => Q l
  | LIST => True
  end.

(** A property of the run state given by a property [K] of the counter of
    listings, the counter of errors and the dataset, and a property [Q] of
    the summaries waiting in the queue. *)
Definition invariant (K : Z -> Z -> list Item -> Prop) (Q : Listing -> Prop)
    (st : RunState) : Prop :=
  K (listingsScraped st) (errors st) (dataset st) /\
  Forall (label_ok Q) (queue st).

(** What one task adds.  [st] is the state a task finds and [st'] the state
    it leaves.  The task only appends to the dataset, and it raises the
    counter of scraped listings by the number of listings it appends.  With
    [with_failures] it raises the counter of errors by the number of failure
    records it appends; without, it appends no failure record.  These are
    the task's own records and increments, whatever other tasks write to
    the dataset or add to the counters in between. *)
Definition tallied (with_failures : bool) (st st' : RunState) : Prop :=
  exists items,
    dataset st' = dataset st ++ items /\
    listingsScraped st' = listingsScraped st + Z.of_nat (length (listingsIn items)) /\
    if with_failures
    then errors st' = errors st + Z.of_nat (length (failuresIn items))
    else failuresIn items = [].

(** The task appends at most as many listings as were left of the quota in
    the state it found (none when the quota was used up). *)
Definition page_within_quota (cfg : Config) (st st' : RunState) : Prop :=
  exists items,
    dataset st' = dataset st ++ items /\
    Z.of_nat (length (listingsIn items))
      <= Z.max 0 (maxListings cfg - listingsScraped st).

(** ** Scenarios

    Concrete inputs, sites and pages for the statements below. *)

Definition card (href : option jsstring) : Card :=
  {| linkHref := href; priceTexts := []; typeText := None;
     cardBedrooms := JUndefined; cardBathrooms := JUndefined |}.

Definition resultsPage (cs : list Card) (next : option jsstring) : Page :=
  {| cards := cs; nextHref := next;
     detailPriceText := None; detailPropertyType := None;
     detailBedrooms := JUndefined; detailBathrooms := JUndefined;
     detailLivingArea := JUndefined; detailLotSize := JUndefined;
     detailYearBuilt := JUndefined; evaluateThrows := false |}.

(** The input [{ searchType: kind, regions: rs, maxListings: n,
    includeDetails: details }], every other field at its default. *)
Definition inputWith (kind : jsstring) (rs : list jsstring) (n : Z)
    (details : bool) : Config :=
  {| searchType := kind; propertyTypes := []; regions := rs;
     minPrice := 0; maxPrice := 0; minBedrooms := 0; maxBedrooms := 0;
     minBathrooms := 0; maxBathrooms := 0;
     minLivingArea := 0; maxLivingArea := 0;
     minLotSize := 0; maxLotSize := 0; yearBuiltMin := 0; yearBuiltMax := 0;
     maxListings := n; includeDetails := details; language := str "fr";
     maxRequestRetries := 3 |}.

Definition montrealUrl : jsstring :=
  str "https://www.centris.ca/fr/propriete~a-vendre~montreal".
Definition lavalUrl : jsstring :=
  str "https://www.centris.ca/fr/propriete~a-vendre~laval".
Definition longueuilUrl : jsstring :=
  str "https://www.centris.ca/fr/propriete~a-vendre~longueuil".
Definition montrealRentUrl : jsstring :=
  str "https://www.centris.ca/fr/propriete~a-louer~montreal".
Definition houseUrl : jsstring :=
  str "https://www.centris.ca/fr/maison~a-vendre~montreal/11111111".
Definition condoUrl : jsstring :=
  str "https://www.centris.ca/fr/condo~a-vendre~montreal/22222222".
Definition flatUrl : jsstring :=
  str "https://www.centris.ca/fr/condo~a-louer~montreal/33333333".

(** A site whose result pages are: for Montreal two cards and no next page,
    for Laval and for Longueuil one card each, for rentals in Montreal one
    card.  Every other URL renders as a page on which the selectors find
    nothing, as the page of a listing does here. *)
Definition site : Web := fun u _ =>
  if jsstring_eqb u montrealUrl
  then Rendered (resultsPage [card (Some houseUrl); card (Some condoUrl)] None)
  else if jsstring_eqb u lavalUrl
  then Rendered (resultsPage [card (Some houseUrl)] None)
  else if jsstring_eqb u longueuilUrl
  then Rendered (resultsPage [card (Some condoUrl)] None)
  else if jsstring_eqb u montrealRentUrl
  then Rendered (resultsPage [card (Some flatUrl)] None)
  else Rendered blankPage.

(** A site on which every navigation fails. *)
Definition deadSite : Web := fun _ _ => NavigationError.

(** A results page with one card that carries no link, and a next-page link. *)
Definition linklessPage : Page :=
  resultsPage [card None] (Some (str "/fr/propriete~a-vendre~montreal?page=2")).

Definition listRequest (u : jsstring) : Request :=
  {| requestUrl := u; userData := LIST; retryCount := 0 |}.

(** A listing whose card gave a price and whose bedrooms are [null]. *)
Definition unknownBedrooms : Listing := {|
  url := Some houseUrl; priceFormatted := Some (str "500 000 $");
  price := JNum 500000; propertyType := Some (str "Maison");
  bedrooms := JNull; bathrooms := JNum 2;
  livingArea := JUndefined; lotSize := JUndefined; yearBuilt := JUndefined;
  transactionType := None
|}.

(** * Properties *)

(** ** Strings *)

Lemma takeWhile_dropWhile p s : takeWhile p s ++ dropWhile p s = s.
Proof.
  induction s as [|c t IH]; simpl; [reflexivity|].
  destruct (p c); simpl; [now rewrite IH | reflexivity].
Qed.

Lemma takeWhile_all p s : Forall (fun c => p c = true) (takeWhile p s).
Proof.
  induction s as [|c t IH]; simpl; [constructor|].
  destruct (p c) eqn:E; constructor; assumption.
Qed.

Lemma dropWhile_all p ws s :
  Forall (fun c => p c = true) ws ->
  dropWhile p (ws ++ s) = dropWhile p s.
Proof.
  induction 1 as [|w ws Hw _ IH]; simpl; [reflexivity|].
  now rewrite Hw.
Qed.

Lemma takeWhile_all_app p ws c s :
  Forall (fun c => p c = true) ws -> p c = false ->
  takeWhile p (ws ++ c :: s) = ws.
Proof.
  intros Hws Hc. induction Hws as [|w ws Hw _ IH]; simpl.
  - now rewrite Hc.
  - now rewrite Hw, IH.
Qed.

Lemma is_digit_not_space c : is_digit c = true -> is_space c = false.
Proof.
  unfold is_digit, is_space. intros H.
  apply andb_true_iff in H as [H1 H2].
  apply N.leb_le in H1. apply N.leb_le in H2.
  repeat match goal with
  | |- context [(?a <=? ?b)%N] => destruct (N.leb_spec a b)
  | |- context [(?a =? ?b)%N] => destruct (N.eqb_spec a b)
  end; simpl; try reflexivity; lia.
Qed.

Lemma startsWith_app m rest : startsWith (m ++ rest) m = true.
Proof.
  induction m as [|a m IH]; simpl; [reflexivity|].
  now rewrite N.eqb_refl, IH.
Qed.

Lemma startsWith_inv s m :
  startsWith s m = true -> exists rest, s = m ++ rest.
Proof.
  revert s. induction m as [|a m IH]; intros s H.
  - exists s. reflexivity.
  - destruct s as [|b s]; simpl in H; [discriminate|].
    apply andb_true_iff in H as [Hab H].
    apply N.eqb_eq in Hab. subst b.
    destruct (IH _ H) as [rest ->]. exists rest. reflexivity.
Qed.

Lemma remove_first_eq s pat :
  remove_first s pat =
  if startsWith s pat then drop (length pat) s
  else match s with
       | [] => []
       | c :: t => c :: remove_first t pat
       end.
Proof. destruct s; reflexivity. Qed.

Lemma remove_first_prefix m rest : remove_first (m ++ rest) m = rest.
Proof.
  rewrite remove_first_eq, startsWith_app. apply drop_app_length.
Qed.

(** ** The postal-code pattern *)

Lemma matchPostalAt_Some s m rest :
  matchPostalAt s = Some (m, rest) -> s = m ++ rest /\ postal_code m.
Proof.
  destruct s as [|a [|b [|c t]]]; simpl; try discriminate.
  destruct (is_letter a && is_digit b && is_letter c) eqn:Habc; [|discriminate].
  destruct (dropWhile is_space t) as [|d [|e [|f rest']]] eqn:Hdrop;
    try discriminate.
  destruct (is_digit d && is_letter e && is_digit f) eqn:Hdef; [|discriminate].
  intros [= <- <-].
  apply andb_true_iff in Habc as [Hab Hc]. apply andb_true_iff in Hab as [Ha Hb].
  apply andb_true_iff in Hdef as [Hde Hf]. apply andb_true_iff in Hde as [Hd He].
  split.
  - simpl. do 3 f_equal. rewrite <- app_assoc. simpl.
    rewrite <- Hdrop. symmetry. apply takeWhile_dropWhile.
  - constructor; auto using takeWhile_all.
Qed.

Lemma matchPostalAt_prefix s m :
  postal_code m -> startsWith s m = true -> matchPostalAt s <> None.
Proof.
  intros Hm Hs. destruct (startsWith_inv _ _ Hs) as [rest ->].
  destruct Hm as [a b c ws d e f Ha Hb Hc Hws Hd He Hf].
  simpl. rewrite Ha, Hb, Hc. simpl.
  rewrite <- app_assoc. simpl.
  rewrite dropWhile_all by assumption. simpl.
  rewrite (is_digit_not_space d Hd), Hd, He, Hf. simpl. discriminate.
Qed.

Lemma postal_code_nonempty m : postal_code m -> m <> [].
Proof. destruct 1. discriminate. Qed.

(** The leftmost match is where the pattern says, it has the shape of a
    postal code, and deleting the first occurrence of its text deletes it. *)
Lemma searchPostal_Some s before m rest :
  searchPostal s = Some (before, m, rest) ->
  s = before ++ m ++ rest /\ postal_code m /\
  remove_first s m = before ++ rest.
Proof.
  revert before. induction s as [|c t IH]; intros before.
  - simpl. discriminate.
  - cbn [searchPostal].
    destruct (matchPostalAt (c :: t)) as [[m0 r0]|] eqn:Hat.
    + intros [= <- <- <-].
      destruct (matchPostalAt_Some _ _ _ Hat) as [Hs Hm].
      rewrite Hs at 1 2. split; [reflexivity|]. split; [assumption|].
      apply remove_first_prefix.
    + destruct (searchPostal t) as [[[b' m'] r']|] eqn:Ht; [|discriminate].
      intros [= <- <- <-].
      destruct (IH _ eq_refl) as (Hs & Hm & Hr).
      split; [simpl; now f_equal|]. split; [assumption|].
      rewrite remove_first_eq.
      destruct (startsWith (c :: t) m') eqn:Hpre.
      * exfalso. now apply (matchPostalAt_prefix (c :: t) m').
      * simpl. now rewrite Hr.
Qed.

(** Without a match, no part of the text has the shape of a postal code. *)
Lemma searchPostal_None s :
  searchPostal s = None ->
  forall before m rest, s = before ++ m ++ rest -> ~ postal_code m.
Proof.
  induction s as [|c t IH]; intros Hnone before m rest Hs Hm.
  - apply (postal_code_nonempty m Hm).
    destruct before; [destruct m; [reflexivity|discriminate]|discriminate].
  - cbn [searchPostal] in Hnone.
    destruct (matchPostalAt (c :: t)) as [[m0 r0]|] eqn:Hat; [discriminate|].
    destruct (searchPostal t) as [[[b' m'] r']|] eqn:Ht; [discriminate|].
    destruct before as [|b before].
    + simpl in Hs. apply (matchPostalAt_prefix (c :: t) m Hm); [|exact Hat].
      rewrite Hs. apply startsWith_app.
    + injection Hs as _ Hs. exact (IH eq_refl before m rest Hs Hm).
Qed.

(** ** The address parser *)

Example parseAddress_full :
  V1_0.parseAddress (Some (str "123 Rue Example, Montreal, QC H2T 1A1")) =
  {| street := Text (str "123 Rue Example"); city := Text (str "Montreal");
     region := Text (str "QC"); postalCode := Text (str "H2T 1A1") |}.
Proof. vm_compute. reflexivity. Qed.

Example parseAddress_override :
  V1_0.parseAddress (Some (str "12 rue A, Laval, qc h7n0a1, H7N 0A2, Canada")) =
  {| street := Text (str "12 rue A"); city := Text (str "Laval");
     region := Text (str "qc"); postalCode := Text (str "H7N 0A2") |}.
Proof. vm_compute. reflexivity. Qed.

Example parseAddress_street_only :
  V1_0.parseAddress (Some (str " 12 rue A ")) =
  {| street := Text (str "12 rue A"); city := Unset; region := Unset;
     postalCode := Unset |}.
Proof. vm_compute. reflexivity. Qed.

Example parseAddress_nothing :
  V1_0.parseAddress None = emptyAddress /\
  V1_0.parseAddress (Some (str "")) = emptyAddress.
Proof. split; reflexivity. Qed.

(** ** Price extraction *)

Lemma takeWhile_id p s :
  Forall (fun c => p c = true) s -> takeWhile p s = s.
Proof.
  induction 1 as [|c s Hc _ IH]; simpl; [reflexivity|]. now rewrite Hc, IH.
Qed.

Lemma is_digit_not_sign c :
  is_digit c = true -> (c =? 45)%N = false /\ (c =? 43)%N = false.
Proof.
  unfold is_digit. intros H. apply andb_true_iff in H as [H1 H2].
  apply N.leb_le in H1. split; apply N.eqb_neq; lia.
Qed.

(** On a text of digits [parseInt] is the decimal value. *)
Lemma parseInt_digits c ds :
  Forall (fun c => is_digit c = true) (c :: ds) ->
  parseInt (c :: ds) = JNum (decimal (c :: ds)).
Proof.
  intros Hds. pose proof Hds as Hall. inversion Hds as [|? ? Hc _]; subst.
  unfold parseInt. cbn [dropWhile]. rewrite (is_digit_not_space c Hc).
  destruct (is_digit_not_sign c Hc) as [-> ->].
  now rewrite (takeWhile_id _ _ Hall).
Qed.

Lemma filter_digits_all s :
  Forall (fun c => is_digit c = true) (List.filter is_digit s).
Proof.
  apply List.Forall_forall. intros c Hc. now apply List.filter_In in Hc.
Qed.

(** [parsePrice] is [null] exactly when the text has no digit, and the
    decimal value of its digits otherwise, zero included. *)
Lemma parsePrice_digits s :
  parsePrice (Some s) =
  match List.filter is_digit s with
  | [] => JNull
  | ds => JNum (decimal ds)
  end.
Proof.
  destruct s as [|a s]; [reflexivity|].
  unfold parsePrice. pose proof (filter_digits_all (a :: s)) as Hall.
  destruct (List.filter is_digit (a :: s)) as [|c ds]; [reflexivity|].
  now apply parseInt_digits.
Qed.

(** The inline extraction of version 1.1.0 is [null] as well when the
    digits are worth zero. *)
Lemma inlinePrice_digits s :
  V1_1.inlinePrice s =
  match List.filter is_digit s with
  | [] => JNull
  | ds => if decimal ds =? 0 then JNull else JNum (decimal ds)
  end.
Proof.
  unfold V1_1.inlinePrice. pose proof (filter_digits_all s) as Hall.
  destruct (List.filter is_digit s) as [|c ds]; [reflexivity|].
  rewrite parseInt_digits by assumption.
  unfold or_null, truthy. now destruct (decimal (c :: ds) =? 0).
Qed.

Example parsePrice_750000 : parsePrice (Some (str "750 000 $")) = JNum 750000.
Proof. reflexivity. Qed.

Example parsePrice_empty : parsePrice (Some (str "")) = JNull.
Proof. reflexivity. Qed.

Example parsePrice_missing : parsePrice None = JNull.
Proof. reflexivity. Qed.

(** C3.  On the text ["0 $"] the standalone [parsePrice] keeps the price 0,
    and the inline extraction of the search-card extractor of version 1.1.0
    gives [null]: the card of a listing priced 0 comes out with an unknown
    price. *)
Theorem inlinePrice_drops_zero :
  parsePrice (Some (str "0 $")) = JNum 0 /\
  V1_1.inlinePrice (str "0 $") = JNull /\
  V1_1.cardPrice [Some (str "0 $")] = (Some (str "0 $"), JNull).
Proof. repeat split; reflexivity. Qed.

(** ** The filter predicate *)

(** C4.  A field that is [null] takes its range bounds out of the filter:
    for each of the ten bounds on price, bedrooms, bathrooms, living area and
    year built, when the field the bound constrains is [null], the result of
    [matchesFilters] under the active bound is the result with that bound
    set to 0. *)
Theorem matchesFilters_null_field :
  forall (cfg : Config) (listing : Listing) (b : bound),
    bound_field b listing = JNull ->
    0 < bound_value b cfg ->
    V2_0.matchesFilters cfg listing =
    V2_0.matchesFilters (set_bound b 0 cfg) listing.
Proof.
  intros cfg listing b Hnull _.
  unfold V2_0.matchesFilters.
  destruct b; cbn [bound_field] in Hnull; rewrite Hnull;
    cbn -[V2_0.typeMatched Z.ltb]; rewrite ?andb_false_r; reflexivity.
Qed.

(** A property that is missing, or holds [NaN], is not rejected either: the
    comparison with the bound is false. *)
Lemma matchesFilters_unknown_field :
  forall (cfg : Config) (listing : Listing) (b : bound),
    bound_field b listing = JUndefined \/ bound_field b listing = JNaN ->
    V2_0.matchesFilters cfg listing =
    V2_0.matchesFilters (set_bound b 0 cfg) listing.
Proof.
  intros cfg listing b Hu.
  unfold V2_0.matchesFilters.
  destruct b; cbn [bound_field] in Hu; destruct Hu as [Hu|Hu]; rewrite Hu;
    cbn -[V2_0.typeMatched Z.ltb]; rewrite ?andb_false_r; reflexivity.
Qed.

(** C10.  A price of exactly 0 is falsy, so both price checks are skipped:
    the result of [matchesFilters] is the result with the two price bounds
    set to 0, and it is the result for the same listing with a [null]
    price. *)
Theorem matchesFilters_price_zero :
  forall (cfg : Config) (listing : Listing),
    price listing = JNum 0 ->
    V2_0.matchesFilters cfg listing =
      V2_0.matchesFilters (set_bound MinPrice 0 (set_bound MaxPrice 0 cfg)) listing
    /\ V2_0.matchesFilters cfg listing =
      V2_0.matchesFilters cfg (set_price JNull listing).
Proof.
  intros cfg listing Hzero.
  unfold V2_0.matchesFilters. rewrite Hzero.
  cbn -[V2_0.typeMatched Z.ltb]; rewrite ?andb_false_r. split; reflexivity.
Qed.

(** [matchesFilters] is the conjunction of its checks: the listing passes
    when the price, the bedrooms, the bathrooms, the living area and the year
    built pass their bounds and the property type passes. *)
Lemma matchesFilters_conjunction :
  forall (cfg : Config) (listing : Listing),
    V2_0.matchesFilters cfg listing =
    if passes_price (minPrice cfg) (maxPrice cfg) (price listing)
       && passes_range (minBedrooms cfg) (maxBedrooms cfg) (bedrooms listing)
       && passes_range (minBathrooms cfg) (maxBathrooms cfg) (bathrooms listing)
       && passes_range (minLivingArea cfg) (maxLivingArea cfg) (livingArea listing)
       && passes_range (yearBuiltMin cfg) (yearBuiltMax cfg) (yearBuilt listing)
    then passes_type cfg listing
    else Returns false.
Proof.
  intros cfg listing.
  unfold V2_0.matchesFilters, passes_price, passes_range, passes_type.
  repeat match goal with
  | |- context [if ?c && ?d && ?e then Returns false else _] =>
      destruct (c && d && e); cbn [negb andb]; [reflexivity|]
  end.
  destruct (propertyTypes cfg) as [|? ?]; cbn [length Nat.eqb negb andb];
    [reflexivity|].
  destruct (propertyType listing) as [[|? ?]|]; reflexivity.
Qed.


(** The checks, said on their own terms. *)









(** ** The URL builder *)

(** The URL is a function of the region name, of five fields of the input
    and of whether the page number exceeds 1: inputs that agree on these
    give the same string. *)
Lemma buildRegionSearchUrl_deterministic :
  forall (cfg cfg' : Config) (name name' : jsstring) (n n' : Z),
    searchType cfg = searchType cfg' -> language cfg = language cfg' ->
    minPrice cfg = minPrice cfg' -> maxPrice cfg = maxPrice cfg' ->
    minBedrooms cfg = minBedrooms cfg' ->
    name = name' -> (1 <? n) = (1 <? n') ->
    V1_1.buildRegionSearchUrl cfg name n = V1_1.buildRegionSearchUrl cfg' name' n'.
Proof.
  intros cfg cfg' name name' n n' Hs Hl Hmin Hmax Hbed -> Hn.
  unfold V1_1.buildRegionSearchUrl, buildRegionSearchUrlIn, isRent.
  now rewrite Hs, Hl, Hmin, Hmax, Hbed, Hn.
Qed.

(** [Québec] and [quebec city] are the same region. *)
Lemma buildRegionSearchUrl_synonyms :
  forall (cfg : Config) (n : Z),
    V1_1.buildRegionSearchUrl cfg (str "Qu" ++ [233%N] ++ str "bec") n =
    V1_1.buildRegionSearchUrl cfg (str "quebec city") n.
Proof.
  intros cfg n.
  unfold V1_1.buildRegionSearchUrl, buildRegionSearchUrlIn.
  replace (regionSlugIn V1_1.REGION_MAP (str "Qu" ++ [233%N] ++ str "bec"))
    with (str "quebec") by (vm_compute; reflexivity).
  replace (regionSlugIn V1_1.REGION_MAP (str "quebec city"))
    with (str "quebec") by (vm_compute; reflexivity).
  reflexivity.
Qed.

(** A name the table read misses is lower-cased and hyphenated. *)
Lemma regionSlug_fallback :
  forall name : jsstring,
    object_get V1_1.REGION_MAP (toLowerCase name) = None ->
    V1_1.regionSlug name = hyphenate false (toLowerCase name).
Proof.
  intros name Hmiss. unfold V1_1.regionSlug, regionSlugIn. now rewrite Hmiss.
Qed.

Example regionSlug_unknown_region :
  V1_1.regionSlug (str "Saint  Bruno de Montarville") =
  str "saint-bruno-de-montarville".
Proof. vm_compute. reflexivity. Qed.

(** C8.  The name [constructor] is not an entry of the region table, and its
    slug is not its hyphenated lower case: the table read finds the function
    every object inherits, and the URL carries the text of that function. *)
Theorem regionSlug_inherited_name :
  V1_1.REGION_MAP !! str "constructor" = None /\
  hyphenate false (toLowerCase (str "constructor")) = str "constructor" /\
  V1_1.regionSlug (str "constructor") = str "function Object() { [native code] }" /\
  V1_1.buildRegionSearchUrl defaultInput (str "constructor") 1 =
    str "https://www.centris.ca/fr/propriete~a-vendre~function Object() { [native code] }".
Proof. repeat split; vm_compute; reflexivity. Qed.

Example regionSlug_proto :
  V1_1.regionSlug (str "__proto__") = str "[object Object]".
Proof. vm_compute. reflexivity. Qed.

(** ** The crawler *)

(** *** Quota *)

(** The listing branch of version 1.1.0 emits whatever the counters say. *)
Lemma V1_1_listing_task_emits :
  forall (cfg : Config) (r : Request) (page : Page) (st : RunState) (l : Listing),
    userData r = LISTING l ->
    exists st' item,
      V1_1.requestHandler cfg r page st = Finished st' /\
      dataset st' = dataset st ++ [ListingItem item] /\
      listingsScraped st' = listingsScraped st + 1.
Proof.
  intros cfg r page st l Hl. unfold V1_1.requestHandler. rewrite Hl.
  eexists _, _. split; [reflexivity|]. split; reflexivity.
Qed.

(** So does the listing branch of version 2.0.0 for a listing that passes
    the filter. *)
Lemma V2_0_listing_task_emits :
  forall (cfg : Config) (page : Page) (st : RunState) (l : Listing),
    evaluateThrows page = false ->
    V2_0.matchesFilters cfg
      (V2_0.parsePriceIfNeeded (V2_0.extractListingDetails page l)) = Returns true ->
    exists item,
      dataset (V2_0.handleListing cfg page l st) = dataset st ++ [ListingItem item] /\
      listingsScraped (V2_0.handleListing cfg page l st) = listingsScraped st + 1.
Proof.
  intros cfg page st l Hpage Hmatch.
  unfold V2_0.handleListing. rewrite Hpage, Hmatch.
  eexists. split; reflexivity.
Qed.

(** C1.  With [maxListings = 1]: version 2.0.0 finds two cards on the one
    results page, queues a detail task for each while nothing is emitted
    yet, and emits both listings; version 1.1.0 does the same with one card
    on each of two regions.  Both runs end with an empty queue and two
    listings emitted. *)
Theorem quota_exceeded_by_detail_tasks :
  (let st := V2_0.run 10 site (inputWith (str "buy") [str "Montreal"] 1 true) in
   queue st = [] /\ listingsScraped st = 2 /\
   List.map url (emitted st) = [Some houseUrl; Some condoUrl])
  /\
  (let st := V1_1.run 10 site (inputWith (str "buy") [str "Laval"; str "Longueuil"] 1 true) in
   queue st = [] /\ listingsScraped st = 2 /\
   List.map url (emitted st) = [Some houseUrl; Some condoUrl]).
Proof. vm_compute. repeat split; reflexivity. Qed.

(** *** Retries *)

(** What happens to a failed task: back to the queue below the retry limit,
    to the failure callback at the limit. *)
Lemma onFailure_retry :
  forall (c : Crawler) (cfg : Config) (r : Request) (st : RunState),
    (retryCount r < maxRequestRetries cfg)%nat ->
    dataset (onFailure c cfg r st) = dataset st /\
    errors (onFailure c cfg r st) = errors st /\
    queue (onFailure c cfg r st) =
      queue st ++ [{| requestUrl := requestUrl r; userData := userData r;
                      retryCount := S (retryCount r) |}].
Proof.
  intros c cfg r st Hlt. unfold onFailure.
  apply Nat.ltb_lt in Hlt. rewrite Hlt. repeat split; reflexivity.
Qed.

Lemma onFailure_exhausted_V1_1 :
  forall (cfg : Config) (r : Request) (st : RunState),
    (maxRequestRetries cfg <= retryCount r)%nat ->
    dataset (onFailure V1_1.crawler cfg r st) = dataset st ++ [FailedItem (requestUrl r)] /\
    errors (onFailure V1_1.crawler cfg r st) = errors st + 1 /\
    queue (onFailure V1_1.crawler cfg r st) = queue st.
Proof.
  intros cfg r st Hle. unfold onFailure.
  apply Nat.ltb_ge in Hle. rewrite Hle. repeat split; reflexivity.
Qed.

Lemma onFailure_exhausted_V1_0 :
  forall (cfg : Config) (r : Request) (st : RunState),
    (maxRequestRetries cfg <= retryCount r)%nat ->
    dataset (onFailure V1_0.crawler cfg r st) = dataset st ++ [FailedItem (requestUrl r)] /\
    errors (onFailure V1_0.crawler cfg r st) = errors st + 1 /\
    queue (onFailure V1_0.crawler cfg r st) = queue st.
Proof.
  intros cfg r st Hle. unfold onFailure.
  apply Nat.ltb_ge in Hle. rewrite Hle. repeat split; reflexivity.
Qed.

Lemma onFailure_exhausted_V2_0 :
  forall (cfg : Config) (r : Request) (st : RunState),
    (maxRequestRetries cfg <= retryCount r)%nat ->
    dataset (onFailure V2_0.crawler cfg r st) = dataset st /\
    errors (onFailure V2_0.crawler cfg r st) = errors st + 1 /\
    queue (onFailure V2_0.crawler cfg r st) = queue st.
Proof.
  intros cfg r st Hle. unfold onFailure.
  apply Nat.ltb_ge in Hle. rewrite Hle. repeat split; reflexivity.
Qed.

(** A request alone in the queue whose navigation fails at every attempt:
    after as many tasks as it has attempts left, the failure callback has
    run once, on the request at its last retry count, and the queue is
    empty. *)
Lemma crawl_retries_then_fails :
  forall (c : Crawler) (web : Web) (cfg : Config) (k : nat) (r : Request)
         (st : RunState),
    queue st = [r] ->
    (forall n, web (requestUrl r) n = NavigationError) ->
    (retryCount r + k = maxRequestRetries cfg)%nat ->
    crawl (S k) c web cfg st =
    onFailedRequest c cfg
      {| requestUrl := requestUrl r; userData := userData r;
         retryCount := maxRequestRetries cfg |}
      (with_queue [] st).
Proof.
  intros c web cfg k. induction k as [|k IH]; intros r st Hq Hweb Hk.
  - cbn [crawl]. unfold step. rewrite Hq, Hweb. unfold onFailure.
    rewrite Nat.add_0_r in Hk.
    replace (retryCount r <? maxRequestRetries cfg)%nat with false
      by (symmetry; apply Nat.ltb_ge; lia).
    destruct r as [u d n]. cbn in Hk |- *. now subst n.
  - remember (S k) as fuel. cbn [crawl]. unfold step. rewrite Hq, Hweb.
    unfold onFailure.
    replace (retryCount r <? maxRequestRetries cfg)%nat with true
      by (symmetry; apply Nat.ltb_lt; lia).
    subst fuel.
    rewrite (IH {| requestUrl := requestUrl r; userData := userData r;
                   retryCount := S (retryCount r) |});
      [reflexivity | reflexivity | exact Hweb | cbn; lia].
Qed.

(** In version 1.1.0 such a request leaves exactly one failure record and
    one error; in version 2.0.0 it leaves one error and no record. *)
Lemma V1_1_dead_request_one_record :
  forall (web : Web) (cfg : Config) (r : Request) (st : RunState),
    queue st = [r] -> retryCount r = 0%nat ->
    (forall n, web (requestUrl r) n = NavigationError) ->
    let st' := crawl (S (maxRequestRetries cfg)) V1_1.crawler web cfg st in
    queue st' = [] /\ errors st' = errors st + 1 /\
    dataset st' = dataset st ++ [FailedItem (requestUrl r)].
Proof.
  intros web cfg r st Hq Hr Hweb.
  rewrite (crawl_retries_then_fails _ _ _ _ r st Hq Hweb) by (rewrite Hr; reflexivity).
  repeat split; reflexivity.
Qed.

Lemma V2_0_dead_request_no_record :
  forall (web : Web) (cfg : Config) (r : Request) (st : RunState),
    queue st = [r] -> retryCount r = 0%nat ->
    (forall n, web (requestUrl r) n = NavigationError) ->
    let st' := crawl (S (maxRequestRetries cfg)) V2_0.crawler web cfg st in
    queue st' = [] /\ errors st' = errors st + 1 /\ dataset st' = dataset st.
Proof.
  intros web cfg r st Hq Hr Hweb.
  rewrite (crawl_retries_then_fails _ _ _ _ r st Hq Hweb) by (rewrite Hr; reflexivity).
  repeat split; reflexivity.
Qed.

(** A page that cannot be read is no failed task in version 2.0.0: the
    handler catches the exception, counts an error and ends normally, so the
    task is not tried again. *)
Lemma V2_0_handler_never_fails :
  forall (cfg : Config) (r : Request) (page : Page) (st : RunState),
    exists st', V2_0.requestHandler cfg r page st = Finished st'.
Proof.
  intros cfg r page st. unfold V2_0.requestHandler.
  destruct (userData r); [|eexists; reflexivity].
  destruct (evaluateThrows page); [eexists; reflexivity|].
  destruct (V2_0.processListings _ _ _); eexists; reflexivity.
Qed.

(** C5.  On a site where every navigation fails, with [maxRequestRetries = 3]:
    the run of version 2.0.0 tries the start URL four times, counts one
    error and leaves the dataset empty; the run of version 1.1.0 counts one
    error and pushes one failure record for the URL. *)
Theorem retries_exhausted_without_record :
  (let st := V2_0.run 10 deadSite (inputWith (str "buy") [str "Montreal"] 1 true) in
   queue st = [] /\ errors st = 1 /\ dataset st = [])
  /\
  (let st := V1_1.run 10 deadSite (inputWith (str "buy") [str "Montreal"] 1 true) in
   queue st = [] /\ errors st = 1 /\ dataset st = [FailedItem montrealUrl]).
Proof. vm_compute. repeat split; reflexivity. Qed.

(** The fourth attempt is the last one: after three tasks the request is
    still queued, with retry count 3, and nothing is counted yet. *)
Example retries_three_attempts :
  let st := V1_1.run 3 deadSite (inputWith (str "buy") [str "Montreal"] 1 true) in
  List.map retryCount (queue st) = [3%nat] /\ errors st = 0 /\ dataset st = [].
Proof. vm_compute. repeat split; reflexivity. Qed.

(** *** Transaction type *)

Lemma labelled_pushData allowed st l t :
  In t allowed -> labelled allowed st ->
  labelled allowed (pushData (ListingItem (set_transactionType t l)) st).
Proof.
  intros Ht Hst. unfold labelled, emitted. cbn [dataset pushData].
  rewrite omap_app. apply Forall_app. split; [exact Hst|].
  repeat constructor. exists t. split; [reflexivity | exact Ht].
Qed.

Lemma labelled_addRequest allowed st u lab :
  labelled allowed st -> labelled allowed (addRequest u lab st).
Proof. unfold addRequest. now destruct (existsb _ _). Qed.

Lemma labelled_failure allowed st u :
  labelled allowed st -> labelled allowed (pushData (FailedItem u) st).
Proof.
  intros Hst. unfold labelled, emitted. cbn [dataset pushData].
  rewrite omap_app. apply Forall_app. split; [exact Hst | constructor].
Qed.

Lemma labelled_enqueueAll allowed urls st :
  labelled allowed st -> labelled allowed (enqueueAll urls st).
Proof.
  unfold enqueueAll. revert st.
  induction urls as [|u urls IH]; intros st Hst; [exact Hst|].
  cbn [fold_left]. apply IH. now apply labelled_addRequest.
Qed.

(** A crawl keeps the labels when both callbacks do. *)
Lemma labelled_crawl allowed (c : Crawler) (web : Web) (cfg : Config) :
  (forall r page st, labelled allowed st ->
     match onRequest c cfg r page st with
     | Finished st' | Failed st' => labelled allowed st'
     end) ->
  (forall r st, labelled allowed st -> labelled allowed (onFailedRequest c cfg r st)) ->
  forall fuel st, labelled allowed st -> labelled allowed (crawl fuel c web cfg st).
Proof.
  intros Hreq Hfail.
  assert (Hon : forall r st, labelled allowed st -> labelled allowed (onFailure c cfg r st)).
  { intros r st Hst. unfold onFailure.
    destruct (retryCount r <? maxRequestRetries cfg)%nat; [exact Hst | now apply Hfail]. }
  induction fuel as [|fuel IH]; intros st Hst; [exact Hst|].
  cbn [crawl]. unfold step.
  destruct (queue st) as [|r rest] eqn:Hq; [exact Hst|].
  destruct (web (requestUrl r) (retryCount r)) as [|page].
  - apply IH, Hon. exact Hst.
  - specialize (Hreq r page (with_queue rest st) Hst).
    destruct (onRequest c cfg r page (with_queue rest st)) as [st'|st'].
    + now apply IH.
    + now apply IH, Hon.
Qed.

Lemma V2_0_transactionTypeOf cfg :
  In (V2_0.transactionTypeOf cfg) [str "Sale"; str "Rental"].
Proof. unfold V2_0.transactionTypeOf. destruct (isRent cfg); simpl; auto. Qed.

Lemma V2_0_processListings_labelled cfg listings :
  forall st, labelled [str "Sale"; str "Rental"] st ->
    match V2_0.processListings cfg listings st with
    | Finished st' | Failed st' => labelled [str "Sale"; str "Rental"] st'
    end.
Proof.
  induction listings as [|l rest IH]; intros st Hst; [exact Hst|].
  cbn [V2_0.processListings].
  repeat match goal with
  | |- context [if ?b then _ else _] => destruct b
  | |- context [match url ?l with _ => _ end] => destruct (url l) as [[|? ?]|]
  | |- context [match V2_0.matchesFilters ?c ?l with _ => _ end] =>
      destruct (V2_0.matchesFilters c l) as [[|]|]
  end;
  try exact Hst;
  try (apply IH; first [ exact Hst
                       | now apply labelled_addRequest
                       | apply labelled_pushData;
                         [apply V2_0_transactionTypeOf | exact Hst] ]).
Qed.

(** In version 2.0.0 every listing of the dataset is labelled [Sale] or
    [Rental], whatever the site and however long the run. *)
Lemma V2_0_emitted_Sale_or_Rental :
  forall (fuel : nat) (web : Web) (cfg : Config),
    labelled [str "Sale"; str "Rental"] (V2_0.run fuel web cfg).
Proof.
  intros fuel web cfg. unfold V2_0.run.
  apply labelled_crawl.
  - intros r page st Hst. cbn [onRequest V2_0.crawler].
    unfold V2_0.requestHandler.
    destruct (userData r) as [|basic].
    + destruct (evaluateThrows page); [exact Hst|].
      pose proof (V2_0_processListings_labelled cfg
                    (V2_0.extractListingsFromPage page) (incrPagesScraped st) Hst) as H.
      destruct (V2_0.processListings _ _ _) as [st'|st']; [|exact H].
      unfold V2_0.paginate.
      destruct (_ && _); [|exact H].
      destruct (nextHref page) as [[|? ?]|]; try exact H.
      now apply labelled_addRequest.
    + unfold V2_0.handleListing.
      destruct (evaluateThrows page); [exact Hst|].
      destruct (V2_0.matchesFilters _ _) as [[|]|]; try exact Hst.
      apply labelled_pushData; [apply V2_0_transactionTypeOf | exact Hst].
  - intros r st Hst. exact Hst.
  - apply labelled_enqueueAll. constructor.
Qed.

Lemma V1_1_transactionTypeOf cfg :
  In (V1_1.transactionTypeOf cfg) [str "Sale"; str "Rent"].
Proof. unfold V1_1.transactionTypeOf. destruct (isRent cfg); simpl; auto. Qed.

Lemma V1_1_processListings_labelled cfg listings :
  forall processed st, labelled [str "Sale"; str "Rent"] st ->
    labelled [str "Sale"; str "Rent"]
      (snd (V1_1.processListings cfg listings processed st)).
Proof.
  induction listings as [|l rest IH]; intros processed st Hst; [exact Hst|].
  cbn [V1_1.processListings].
  destruct (maxListings cfg <=? listingsScraped st + processed); [exact Hst|].
  destruct (url l) as [[|? ?]|]; try (now apply IH).
  apply IH. destruct (includeDetails cfg).
  - now apply labelled_addRequest.
  - apply labelled_pushData; [apply V1_1_transactionTypeOf | exact Hst].
Qed.

(** In version 1.1.0 every listing of the dataset is labelled [Sale] or
    [Rent]. *)
Lemma V1_1_emitted_Sale_or_Rent :
  forall (fuel : nat) (web : Web) (cfg : Config),
    labelled [str "Sale"; str "Rent"] (V1_1.run fuel web cfg).
Proof.
  intros fuel web cfg. unfold V1_1.run.
  apply labelled_crawl.
  - intros r page st Hst. cbn [onRequest V1_1.crawler].
    unfold V1_1.requestHandler.
    destruct (userData r) as [|basic].
    + destruct (evaluateThrows page); [exact Hst|].
      pose proof (V1_1_processListings_labelled cfg
                    (V1_1.extractListingsFromPage page) 0 (incrPagesScraped st) Hst) as H.
      destruct (V1_1.processListings _ _ _ _) as [processed st'].
      cbn [snd] in H. unfold V1_1.paginate.
      destruct (_ && _); [|exact H].
      destruct (nextHref page) as [[|? ?]|]; try exact H.
      destruct (negb _); [|exact H].
      now apply labelled_addRequest.
    + unfold V1_1.extractListingDetails.
      apply (labelled_pushData _ st _ _ (V1_1_transactionTypeOf cfg) Hst).
  - intros r st Hst. cbn [onFailedRequest V1_1.crawler].
    unfold V1_1.failedRequestHandler. now apply labelled_failure.
  - apply labelled_enqueueAll. constructor.
Qed.

(** C6.  With [searchType = 'rent'] the listing emitted by version 1.1.0 is
    labelled [Rent], from the detail page and from the card alike, and so is
    the listing version 1.0.0 builds from a card; version 2.0.0 labels the
    same listing [Rental]. *)
Theorem rentals_labelled_Rent :
  List.map transactionType
    (emitted (V1_1.run 10 site (inputWith (str "rent") [str "Montreal"] 1 true)))
    = [Some (str "Rent")]
  /\ List.map transactionType
    (emitted (V1_1.run 10 site (inputWith (str "rent") [str "Montreal"] 1 false)))
    = [Some (str "Rent")]
  /\ transactionType
       (V1_0.extractListingFromCard
          (inputWith (str "rent") [str "Montreal"] 1 true) (card (Some flatUrl)))
    = Some (str "Rent")
  /\ List.map transactionType
    (emitted (V2_0.run 10 site (inputWith (str "rent") [str "Montreal"] 1 true)))
    = [Some (str "Rental")].
Proof. vm_compute. repeat split; reflexivity. Qed.

(** *** Pagination *)

(** In versions 1.1.0 and 2.0.0 a results page without summaries adds no
    task to the queue. *)
Lemma V1_1_no_summaries_no_next_page :
  forall (cfg : Config) (r : Request) (page : Page) (st : RunState),
    userData r = LIST -> V1_1.extractListingsFromPage page = [] ->
    match V1_1.requestHandler cfg r page st with
    | Finished st' | Failed st' => queue st' = queue st
    end.
Proof.
  intros cfg r page st Hr Hnone. unfold V1_1.requestHandler.
  rewrite Hr, Hnone. destruct (evaluateThrows page); [reflexivity|].
  cbn [V1_1.processListings]. unfold V1_1.paginate.
  cbn [length]. now rewrite andb_false_r.
Qed.

Lemma V2_0_no_summaries_no_next_page :
  forall (cfg : Config) (r : Request) (page : Page) (st : RunState),
    userData r = LIST -> V2_0.extractListingsFromPage page = [] ->
    match V2_0.requestHandler cfg r page st with
    | Finished st' | Failed st' => queue st' = queue st
    end.
Proof.
  intros cfg r page st Hr Hnone. unfold V2_0.requestHandler.
  rewrite Hr, Hnone. destruct (evaluateThrows page); [reflexivity|].
  cbn [V2_0.processListings]. unfold V2_0.paginate.
  cbn [length]. now rewrite andb_false_r.
Qed.

(** In both, a page adds its successor only below the quota. *)
Lemma V2_0_paginate_below_quota :
  forall (cfg : Config) (page : Page) (listings : list Listing) (st : RunState),
    queue (V2_0.paginate cfg page listings st) <> queue st ->
    listingsScraped st < maxListings cfg /\ listings <> [].
Proof.
  intros cfg page listings st. unfold V2_0.paginate.
  destruct (listingsScraped st <? maxListings cfg) eqn:Hq; cbn [andb];
    [|congruence].
  destruct listings; cbn [length]; [cbn; congruence|].
  intros _. split; [now apply Z.ltb_lt | discriminate].
Qed.

(** C7.  In version 1.0.0 the results page whose only card has no link
    yields no summary, and the handler still adds the next page to the
    queue; a results page without any card is a failed task there. *)
Theorem v1_0_paginates_without_summaries :
  V1_0.collectListings defaultInput (incrPagesScraped initialState)
    (cards linklessPage) [] = []
  /\ (exists st',
        V1_0.requestHandler defaultInput (listRequest montrealUrl) linklessPage
          initialState = Finished st' /\
        dataset st' = [] /\
        queue st' =
          [listRequest (str "https://www.centris.ca/fr/propriete~a-vendre~montreal?page=2")])
  /\ V1_0.requestHandler defaultInput (listRequest montrealUrl)
       (resultsPage [] None) initialState = Failed (incrPagesScraped initialState).
Proof.
  split; [reflexivity|]. split; [|reflexivity].
  eexists. split; [reflexivity|]. split; vm_compute; reflexivity.
Qed.

(** *** The quota on the summary-only path *)

(** With [includeDetails = false] version 2.0.0 tests the quota before each
    emission: the loop never takes the counter past [maxListings]. *)
Lemma V2_0_summary_only_within_quota :
  forall (cfg : Config) (listings : list Listing) (st : RunState),
    includeDetails cfg = false ->
    listingsScraped st <= maxListings cfg ->
    match V2_0.processListings cfg listings st with
    | Finished st' | Failed st' => listingsScraped st' <= maxListings cfg
    end.
Proof.
  intros cfg listings st Hsummary. revert st.
  induction listings as [|l rest IH]; intros st Hst; [exact Hst|].
  cbn [V2_0.processListings]. rewrite Hsummary.
  destruct (maxListings cfg <=? listingsScraped st) eqn:Hq; [exact Hst|].
  apply Z.leb_gt in Hq.
  repeat match goal with
  | |- context [if ?b then _ else _] => destruct b
  | |- context [match url ?l with _ => _ end] => destruct (url l) as [[|? ?]|]
  | |- context [match V2_0.matchesFilters ?c ?l with _ => _ end] =>
      destruct (V2_0.matchesFilters c l) as [[|]|]
  end;
  try exact Hst; try (apply IH; cbn; lia).
Qed.

(** ** Instances *)

(** The bound [minBedrooms = 3] on a listing whose bedrooms are [null]. *)
Lemma matchesFilters_null_field_witness :
  bound_field MinBedrooms unknownBedrooms = JNull /\
  0 < bound_value MinBedrooms (set_bound MinBedrooms 3 defaultInput) /\
  V2_0.matchesFilters (set_bound MinBedrooms 3 defaultInput) unknownBedrooms =
    Returns true /\
  V2_0.matchesFilters (set_bound MinBedrooms 3 defaultInput) unknownBedrooms =
    V2_0.matchesFilters
      (set_bound MinBedrooms 0 (set_bound MinBedrooms 3 defaultInput))
      unknownBedrooms.
Proof.
  split; [reflexivity|]. split; [reflexivity|]. split; [reflexivity|].
  apply (matchesFilters_null_field
           (set_bound MinBedrooms 3 defaultInput) unknownBedrooms MinBedrooms);
    reflexivity.
Defined.

(** A listing priced 0 under the price range 400000 to 800000. *)
Lemma matchesFilters_price_zero_witness :
  price (set_price (JNum 0) unknownBedrooms) = JNum 0 /\
  V2_0.matchesFilters
    (set_bound MinPrice 400000 (set_bound MaxPrice 800000 defaultInput))
    (set_price (JNum 0) unknownBedrooms) = Returns true /\
  V2_0.matchesFilters
    (set_bound MinPrice 400000 (set_bound MaxPrice 800000 defaultInput))
    (set_price (JNum 0) unknownBedrooms) =
  V2_0.matchesFilters
    (set_bound MinPrice 0
       (set_bound MaxPrice 0
          (set_bound MinPrice 400000 (set_bound MaxPrice 800000 defaultInput))))
    (set_price (JNum 0) unknownBedrooms).
Proof.
  split; [reflexivity|]. split; [reflexivity|].
  apply (matchesFilters_price_zero
           (set_bound MinPrice 400000 (set_bound MaxPrice 800000 defaultInput))
           (set_price (JNum 0) unknownBedrooms)).
  reflexivity.
Defined.

(** * Further properties *)

(** ** Numbers and prices *)

Lemma decimal_acc_nonneg ds :
  forall acc, 0 <= acc ->
    0 <= fold_left (fun a c => 10 * a + digit_value c) ds acc.
Proof.
  induction ds as [|c ds IH]; intros acc Hacc; cbn [fold_left]; [exact Hacc|].
  apply IH. unfold digit_value. lia.
Qed.

Lemma decimal_nonneg ds : 0 <= decimal ds.
Proof. unfold decimal. apply decimal_acc_nonneg. lia. Qed.

(** X1.  [parsePrice] gives [null] exactly for a text without digits; for
    any other text it gives a number that is not negative.  It never gives
    [undefined] or [NaN]. *)
Theorem parsePrice_null_or_amount :
  forall s : jsstring,
    (parsePrice (Some s) = JNull <-> List.filter is_digit s = []) /\
    (parsePrice (Some s) = JNull \/
     exists z, 0 <= z /\ parsePrice (Some s) = JNum z).
Proof.
  intros s. rewrite parsePrice_digits.
  destruct (List.filter is_digit s) as [|c ds] eqn:Hf.
  - split; [tauto | left; reflexivity].
  - split; [split; discriminate|].
    right. exists (decimal (c :: ds)). split; [apply decimal_nonneg | reflexivity].
Qed.

(** X2.  A character that is no digit may be put anywhere into a price text,
    or taken out of it, and [parsePrice] reads the same price. *)
Theorem parsePrice_ignores_separators :
  forall (a b : jsstring) (c : N),
    is_digit c = false ->
    parsePrice (Some (a ++ c :: b)) = parsePrice (Some (a ++ b)).
Proof.
  intros a b c Hc. rewrite !parsePrice_digits.
  rewrite !List.filter_app. cbn [List.filter]. now rewrite Hc.
Qed.

Lemma parsePrice_ignores_separators_witness :
  is_digit 160%N = false /\
  parsePrice (Some (str "750" ++ 160%N :: str "000 $")) =
  parsePrice (Some (str "750" ++ str "000 $")).
Proof.
  split; [reflexivity|].
  apply (parsePrice_ignores_separators (str "750") (str "000 $") 160%N).
  reflexivity.
Defined.

(** X3.  The inline price extraction of version 1.1.0 gives what
    [parsePrice] gives for the same text, except that it gives [null] where
    [parsePrice] gives 0.  So a price it gives is positive and is the price
    [parsePrice] reads, and the two differ only where the digits are worth
    0. *)
Theorem inlinePrice_agrees_with_parsePrice :
  forall s : jsstring,
    (parsePrice (Some s) = JNum 0 -> V1_1.inlinePrice s = JNull) /\
    (parsePrice (Some s) <> JNum 0 -> V1_1.inlinePrice s = parsePrice (Some s)) /\
    (forall z, V1_1.inlinePrice s = JNum z ->
       0 < z /\ parsePrice (Some s) = JNum z).
Proof.
  intros s. rewrite inlinePrice_digits, parsePrice_digits.
  destruct (List.filter is_digit s) as [|c ds].
  { split; [discriminate|]. split; [reflexivity | discriminate]. }
  cbv zeta. pose proof (decimal_nonneg (c :: ds)) as Hpos.
  destruct (Z.eqb_spec (decimal (c :: ds)) 0) as [Hz|Hne].
  - split; [reflexivity|]. split; [|discriminate].
    intros H. exfalso. apply H. now rewrite Hz.
  - split; [intros [= H]; contradiction|]. split; [reflexivity|].
    intros z [= <-]. split; [lia | reflexivity].
Qed.

Lemma decimal_of_uint_acc d :
  forall p,
    fold_left (fun a c => 10 * a + digit_value c)
      (str (NilEmpty.string_of_uint d)) (Z.pos p) = Z.pos (Pos.of_uint_acc d p).
Proof.
  induction d; intros p; cbn [NilEmpty.string_of_uint Pos.of_uint_acc];
    [reflexivity| ..];
    change (str (String ?a ?s)) with (N_of_ascii a :: str s);
    cbn [fold_left]; rewrite <- IHd; f_equal; unfold digit_value; cbn; lia.
Qed.

Lemma decimal_of_uint d :
  decimal (str (NilEmpty.string_of_uint d)) = Z.of_N (Pos.of_uint d).
Proof.
  unfold decimal.
  induction d; cbn [NilEmpty.string_of_uint Pos.of_uint]; [reflexivity| ..];
    change (str (String ?a ?s)) with (N_of_ascii a :: str s);
    cbn [fold_left];
    first [ exact IHd | exact (decimal_of_uint_acc d _) ].
Qed.

Lemma digits_of_uint d :
  Forall (fun c => is_digit c = true) (str (NilEmpty.string_of_uint d)).
Proof.
  induction d; cbn [NilEmpty.string_of_uint]; [constructor| ..];
    change (str (String ?a ?s)) with (N_of_ascii a :: str s);
    (constructor; [reflexivity | exact IHd]).
Qed.

Lemma digits_of_spec z :
  0 <= z ->
  exists c ds,
    digits_of z = c :: ds /\
    Forall (fun c => is_digit c = true) (c :: ds) /\
    decimal (c :: ds) = z.
Proof.
  intros Hz. unfold digits_of.
  assert (Hval : decimal (str (NilZero.string_of_uint (N.to_uint (Z.to_N z)))) = z).
  { transitivity (Z.of_N (N.of_uint (N.to_uint (Z.to_N z)))).
    - unfold NilZero.string_of_uint.
      destruct (N.to_uint (Z.to_N z)); try apply decimal_of_uint. reflexivity.
    - rewrite DecimalN.Unsigned.of_to. lia. }
  assert (Hall : Forall (fun c => is_digit c = true)
                   (str (NilZero.string_of_uint (N.to_uint (Z.to_N z))))).
  { unfold NilZero.string_of_uint.
    destruct (N.to_uint (Z.to_N z)); try apply digits_of_uint.
    repeat constructor. }
  destruct (str (NilZero.string_of_uint (N.to_uint (Z.to_N z)))) as [|c ds] eqn:E.
  - exfalso. unfold NilZero.string_of_uint in E.
    destruct (N.to_uint (Z.to_N z)); discriminate E.
  - exists c, ds. auto.
Qed.

(** X4.  A bound written into the URL with [toString] reads back as the same
    number: for every integer from 0 to 2^53 - 1, the integers JavaScript
    writes in plain decimal and reads without rounding, [parseInt] and
    [parsePrice] of its decimal text give the integer. *)
Theorem digits_read_back :
  forall z : Z,
    0 <= z -> z <= 9007199254740991 ->
    parseInt (digits_of z) = JNum z /\ parsePrice (Some (digits_of z)) = JNum z.
Proof.
  intros z Hz _. destruct (digits_of_spec z Hz) as (c & ds & -> & Hall & Hval).
  split.
  - rewrite parseInt_digits by assumption. now rewrite Hval.
  - rewrite parsePrice_digits.
    assert (Hf : List.filter is_digit (c :: ds) = c :: ds).
    { clear Hval. induction Hall as [|x l Hx _ IH]; [reflexivity|].
      cbn [List.filter]. now rewrite Hx, IH. }
    now rewrite Hf, Hval.
Qed.

Lemma digits_read_back_witness :
  0 <= 400000 /\ 400000 <= 9007199254740991 /\
  parseInt (digits_of 400000) = JNum 400000 /\
  parsePrice (Some (digits_of 400000)) = JNum 400000.
Proof.
  split; [lia|]. split; [lia|]. apply (digits_read_back 400000); lia.
Defined.

Lemma takeWhile_run p ds b :
  Forall (fun c => p c = true) ds -> takeWhile p b = [] ->
  takeWhile p (ds ++ b) = ds /\ dropWhile p (ds ++ b) = b.
Proof.
  intros Hds Hb. induction Hds as [|d ds Hd _ [IH1 IH2]]; cbn [app].
  - split; [exact Hb|]. destruct b as [|c b]; [reflexivity|].
    cbn [takeWhile dropWhile] in *. destruct (p c); [discriminate Hb | reflexivity].
  - cbn [takeWhile dropWhile]. rewrite Hd. now rewrite IH1, IH2.
Qed.

(** X5.  [parseNumber] reads the first run of digits of a text: with no
    digit before the run and no digit right after it, the result is the
    decimal value of the run. *)
Theorem parseNumber_first_run :
  forall pre ds post : jsstring,
    Forall (fun c => is_digit c = false) pre ->
    ds <> [] -> Forall (fun c => is_digit c = true) ds ->
    takeWhile is_digit post = [] ->
    V2_0.parseNumber (Some (pre ++ ds ++ post)) = JNum (decimal ds).
Proof.
  intros pre ds post Hpre Hne Hds Hpost.
  destruct ds as [|d ds]; [congruence|].
  assert (Hd : is_digit d = true) by (now inversion Hds).
  assert (Hdrop : dropWhile (fun c => negb (is_digit c)) (pre ++ (d :: ds) ++ post)
                  = (d :: ds) ++ post).
  { rewrite dropWhile_all.
    - cbn [app dropWhile]. now rewrite Hd.
    - eapply Forall_impl; [exact Hpre|]. intros c Hc. cbn. now rewrite Hc. }
  unfold V2_0.parseNumber.
  destruct (pre ++ (d :: ds) ++ post) as [|x xs] eqn:Htext.
  { destruct pre; discriminate Htext. }
  rewrite Hdrop.
  destruct (takeWhile_run is_digit (d :: ds) post Hds Hpost) as [-> _].
  now apply parseInt_digits.
Qed.

Lemma parseNumber_first_run_witness :
  Forall (fun c => is_digit c = false) (str "Built in ") /\
  str "1987" <> [] /\
  Forall (fun c => is_digit c = true) (str "1987") /\
  takeWhile is_digit (str ", 3 floors") = [] /\
  V2_0.parseNumber (Some (str "Built in " ++ str "1987" ++ str ", 3 floors"))
    = JNum (decimal (str "1987")).
Proof.
  assert (H1 : Forall (fun c => is_digit c = false) (str "Built in "))
    by (repeat constructor).
  assert (H2 : Forall (fun c => is_digit c = true) (str "1987"))
    by (repeat constructor).
  split; [exact H1|]. split; [discriminate|]. split; [exact H2|].
  split; [reflexivity|].
  apply (parseNumber_first_run (str "Built in ") (str "1987") (str ", 3 floors"));
    [exact H1 | discriminate | exact H2 | reflexivity].
Defined.

(** ** The filter predicate, further *)

(** X6.  With no bound above 0 and no property type requested, every
    listing matches. *)
Theorem matchesFilters_no_filter :
  forall (cfg : Config) (listing : Listing),
    (forall b : bound, bound_value b cfg <= 0) ->
    propertyTypes cfg = [] ->
    V2_0.matchesFilters cfg listing = Returns true.
Proof.
  intros cfg listing Hb Ht. unfold V2_0.matchesFilters.
  pose proof (Hb MinPrice) as H1. pose proof (Hb MaxPrice) as H2.
  pose proof (Hb MinBedrooms) as H3. pose proof (Hb MaxBedrooms) as H4.
  pose proof (Hb MinBathrooms) as H5. pose proof (Hb MaxBathrooms) as H6.
  pose proof (Hb MinLivingArea) as H7. pose proof (Hb MaxLivingArea) as H8.
  pose proof (Hb YearBuiltMin) as H9. pose proof (Hb YearBuiltMax) as H10.
  cbn [bound_value] in *.
  repeat match goal with
  | H : ?v <= 0 |- context [0 <? ?v] =>
      replace (0 <? v) with false by (symmetry; apply Z.ltb_ge; exact H)
  end.
  rewrite Ht. reflexivity.
Qed.

Lemma matchesFilters_no_filter_witness :
  (forall b : bound, bound_value b defaultInput <= 0) /\
  propertyTypes defaultInput = [] /\
  V2_0.matchesFilters defaultInput unknownBedrooms = Returns true.
Proof.
  assert (Hb : forall b : bound, bound_value b defaultInput <= 0)
    by (intros b; destruct b; cbn; lia).
  split; [exact Hb|]. split; [reflexivity|].
  apply (matchesFilters_no_filter defaultInput unknownBedrooms Hb). reflexivity.
Defined.

(** X7.  A listing with a field known to break one of the ten bounds is
    rejected, whatever its other fields and whatever the property types
    requested: the filter returns [false] and does not raise. *)
Theorem matchesFilters_rejects :
  forall (cfg : Config) (listing : Listing) (b : bound),
    breaks b cfg listing ->
    V2_0.matchesFilters cfg listing = Returns false.
Proof.
  intros cfg listing b (Hact & z & Hz & Hbad).
  rewrite matchesFilters_conjunction.
  assert (Hfail :
    passes_price (minPrice cfg) (maxPrice cfg) (price listing)
    && passes_range (minBedrooms cfg) (maxBedrooms cfg) (bedrooms listing)
    && passes_range (minBathrooms cfg) (maxBathrooms cfg) (bathrooms listing)
    && passes_range (minLivingArea cfg) (maxLivingArea cfg) (livingArea listing)
    && passes_range (yearBuiltMin cfg) (yearBuiltMax cfg) (yearBuilt listing)
    = false).
  { apply Z.ltb_lt in Hact.
    destruct b; cbn [bound_value bound_field] in *; rewrite Hz;
      unfold passes_price, passes_range; cbn [truthy not_null js_lt js_gt];
      rewrite Hact;
      repeat match goal with
      | H : _ /\ _ |- _ => destruct H
      | H : ?z <> 0 |- context [Z.eqb ?z 0] =>
          replace (Z.eqb z 0) with false by (symmetry; apply Z.eqb_neq; exact H)
      | H : ?a < ?c |- context [?a <? ?c] =>
          replace (a <? c) with true by (symmetry; apply Z.ltb_lt; exact H)
      end;
      cbn [negb andb]; rewrite ?andb_false_r, ?andb_false_l; reflexivity. }
  now rewrite Hfail.
Qed.

Lemma matchesFilters_rejects_witness :
  breaks MaxBathrooms (set_bound MaxBathrooms 1 defaultInput) unknownBedrooms /\
  V2_0.matchesFilters (set_bound MaxBathrooms 1 defaultInput) unknownBedrooms
    = Returns false.
Proof.
  assert (H : breaks MaxBathrooms (set_bound MaxBathrooms 1 defaultInput)
                unknownBedrooms).
  { split; [cbn; lia|]. exists 2. split; [reflexivity | cbn; lia]. }
  split; [exact H|].
  apply (matchesFilters_rejects _ _ MaxBathrooms H).
Defined.

(** X8.  A listing whose property type is unknown (missing or empty) is not
    touched by the property-type filter: the result is the one for no
    property type requested. *)
Theorem matchesFilters_untyped :
  forall (cfg : Config) (listing : Listing),
    nonempty (propertyType listing) = false ->
    V2_0.matchesFilters cfg listing =
    V2_0.matchesFilters (set_propertyTypes [] cfg) listing.
Proof.
  intros cfg listing Hnone. unfold V2_0.matchesFilters.
  rewrite Hnone. cbn [set_propertyTypes propertyTypes minPrice maxPrice
    minBedrooms maxBedrooms minBathrooms maxBathrooms minLivingArea
    maxLivingArea yearBuiltMin yearBuiltMax length Nat.eqb negb andb].
  rewrite andb_false_r. reflexivity.
Qed.

Lemma matchesFilters_untyped_witness :
  nonempty (propertyType emptyListing) = false /\
  V2_0.matchesFilters (set_propertyTypes [str "condo"] defaultInput) emptyListing =
  V2_0.matchesFilters
    (set_propertyTypes [] (set_propertyTypes [str "condo"] defaultInput))
    emptyListing.
Proof.
  split; [reflexivity|].
  apply (matchesFilters_untyped (set_propertyTypes [str "condo"] defaultInput)
           emptyListing).
  reflexivity.
Defined.

Lemma typeMatched_Throws lt req :
  V2_0.typeMatched lt req = Throws ->
  exists t, In t req /\ V2_0.typeVariants t = None.
Proof.
  induction req as [|t req IH]; cbn [V2_0.typeMatched]; [discriminate|].
  destruct (V2_0.typeVariants t) as [variants|] eqn:Hv.
  - destruct (existsb _ variants); [discriminate|].
    intros H. destruct (IH H) as (t' & Hin & Ht'). exists t'. split; [now right | exact Ht'].
  - intros _. exists t. split; [now left | exact Hv].
Qed.

Lemma typeVariants_None t :
  V2_0.typeVariants t = None ->
  In (toLowerCase t) Object_prototype_methods \/ toLowerCase t = str "__proto__".
Proof.
  unfold V2_0.typeVariants, object_get.
  destruct (V2_0.PROPERTY_TYPE_MAP !! toLowerCase t); [discriminate|].
  destruct (existsb _ Object_prototype_methods) eqn:He.
  - intros _. left. apply existsb_exists in He as (x & Hin & Hx).
    unfold jsstring_eqb in Hx. apply bool_decide_eq_true in Hx. now subst x.
  - destruct (jsstring_eqb _ _) eqn:Hp; [|discriminate].
    intros _. right. unfold jsstring_eqb in Hp. now apply bool_decide_eq_true in Hp.
Qed.

(** X9.  [matchesFilters] raises only on a requested property type whose
    lower case names a property every object inherits (a method of
    [Object.prototype], or [__proto__]); with no such name among the
    requested types it returns [true] or [false]. *)
Theorem matchesFilters_raises_only_on_inherited :
  forall (cfg : Config) (listing : Listing),
    V2_0.matchesFilters cfg listing = Throws ->
    exists t, In t (propertyTypes cfg) /\
      (In (toLowerCase t) Object_prototype_methods \/
       toLowerCase t = str "__proto__").
Proof.
  intros cfg listing. rewrite matchesFilters_conjunction.
  destruct (_ && _); [|discriminate].
  unfold passes_type.
  destruct (propertyTypes cfg) as [|t0 ts] eqn:Hts; [discriminate|].
  destruct (propertyType listing) as [[|c t]|]; try discriminate.
  intros H. apply typeMatched_Throws in H as (t' & Hin & Hnone).
  exists t'. split; [exact Hin | now apply typeVariants_None].
Qed.

Lemma matchesFilters_raises_only_on_inherited_witness :
  V2_0.matchesFilters (set_propertyTypes [str "Constructor"] defaultInput)
    unknownBedrooms = Throws /\
  exists t, In t (propertyTypes (set_propertyTypes [str "Constructor"] defaultInput)) /\
    (In (toLowerCase t) Object_prototype_methods \/
     toLowerCase t = str "__proto__").
Proof.
  split; [reflexivity|].
  apply (matchesFilters_raises_only_on_inherited
           (set_propertyTypes [str "Constructor"] defaultInput) unknownBedrooms).
  reflexivity.
Defined.

(** ** The URL builders, further *)

Lemma Forall_check {A} (f : A -> bool) (l : list A) :
  forallb f l = true -> Forall (fun x => f x = true) l.
Proof.
  induction l as [|x l IH]; cbn [forallb]; [constructor|].
  intros H. apply andb_true_iff in H as [Hx Hl]. constructor; auto.
Qed.

Lemma spaceless_check (s : jsstring) :
  forallb (fun c => negb (is_space c)) s = true -> spaceless s.
Proof.
  intros H. apply Forall_check in H. unfold spaceless.
  eapply Forall_impl; [exact H|]. intros c Hc. now apply negb_true_iff in Hc.
Qed.

Lemma utf16_check (s : jsstring) :
  forallb (fun c => (c <? 65536)%N) s = true -> utf16 s.
Proof.
  intros H. apply Forall_check in H. unfold utf16.
  eapply Forall_impl; [exact H|]. intros c Hc. now apply N.ltb_lt in Hc.
Qed.

Lemma table_values (P : jsstring -> Prop) (l : list (jsstring * jsstring))
    (k v : jsstring) :
  Forall (fun kv => P (snd kv)) l ->
  (list_to_map l : gmap jsstring jsstring) !! k = Some v -> P v.
Proof.
  intros Hl Hk. apply elem_of_list_to_map_2 in Hk.
  rewrite Forall_forall in Hl. exact (Hl (k, v) Hk).
Qed.

Lemma hyphenate_spaceless s : forall b, spaceless (hyphenate b s).
Proof.
  induction s as [|c s IH]; intros b; cbn [hyphenate]; [constructor|].
  destruct (is_space c) eqn:Hc.
  - destruct b; [apply IH|]. constructor; [reflexivity | apply IH].
  - constructor; [exact Hc | apply IH].
Qed.

Lemma lookupOr_cases (P : jsstring -> Prop) table key fallback :
  (forall k v, table !! k = Some v -> P v) ->
  (forall name,
      P (str "function " ++ functionName name ++ str "() { [native code] }")) ->
  P (str "[object Object]") ->
  P fallback ->
  P (lookupOr table key fallback).
Proof.
  intros Hown Hfun Hproto Hfb. unfold lookupOr, object_get.
  destruct (table !! key) as [[|c v]|] eqn:Hk; [exact Hfb | exact (Hown _ _ Hk) |].
  destruct (existsb _ _); [apply Hfun|].
  destruct (jsstring_eqb _ _); [exact Hproto | exact Hfb].
Qed.

Lemma regionSlugIn_spaceless M name :
  (forall k v, M !! k = Some v -> spaceless v) ->
  inheritedName (toLowerCase name) = false ->
  spaceless (regionSlugIn M name).
Proof.
  intros Hown Hinh. unfold inheritedName in Hinh.
  apply orb_false_iff in Hinh as [Hm Hp].
  unfold regionSlugIn, object_get. cbv zeta.
  destruct (M !! toLowerCase name) as [[|c v]|] eqn:Hk.
  - apply hyphenate_spaceless.
  - exact (Hown _ _ Hk).
  - rewrite Hm, Hp. apply hyphenate_spaceless.
Qed.

Lemma digits_of_spaceless z : 0 < z -> spaceless (digits_of z).
Proof.
  intros Hz. destruct (digits_of_spec z) as (c & ds & -> & Hall & _); [lia|].
  unfold spaceless. eapply Forall_impl; [exact Hall|].
  intros x Hx. now apply is_digit_not_space.
Qed.

Lemma paramsToString_spaceless params :
  Forall (fun kv => spaceless (fst kv) /\ spaceless (snd kv)) params ->
  spaceless (paramsToString params).
Proof.
  unfold spaceless.
  induction params as [|[k v] rest IH]; intros H; [constructor|].
  apply Forall_cons in H as [[Hk Hv] Hrest]. cbn [fst snd] in *.
  cbn [paramsToString]. destruct rest as [|kv rest].
  - repeat (apply Forall_app; split); auto. now apply spaceless_check.
  - repeat (apply Forall_app; split); auto; now apply spaceless_check.
Qed.

Lemma baseUrl_spaceless (rent french : bool) slug :
  spaceless slug ->
  spaceless
    (if rent then
       if french
       then CENTRIS_BASE_URL ++ str "/fr/propriete~a-louer~" ++ slug
       else CENTRIS_BASE_URL ++ str "/en/properties~for-rent~" ++ slug
     else
       if french
       then CENTRIS_BASE_URL ++ str "/fr/propriete~a-vendre~" ++ slug
       else CENTRIS_BASE_URL ++ str "/en/properties~for-sale~" ++ slug).
Proof.
  intros Hs. unfold spaceless.
  destruct rent, french; repeat (apply Forall_app; split); auto;
    now apply spaceless_check.
Qed.

Lemma with_query_spaceless base qs :
  spaceless base -> spaceless qs ->
  spaceless match qs with
            | [] => base
            | _ => base ++ str "?" ++ qs
            end.
Proof.
  intros Hb Hq. destruct qs as [|c qs]; [exact Hb|].
  unfold spaceless. repeat (apply Forall_app; split); auto.
  now apply spaceless_check.
Qed.

Lemma buildRegionSearchUrlIn_spaceless M cfg name p :
  spaceless (regionSlugIn M name) ->
  spaceless (buildRegionSearchUrlIn M cfg name p).
Proof.
  intros Hslug. unfold buildRegionSearchUrlIn. cbv zeta.
  apply with_query_spaceless; [now apply baseUrl_spaceless|].
  apply paramsToString_spaceless.
  destruct (Z.ltb_spec 0 (minPrice cfg)), (Z.ltb_spec 0 (maxPrice cfg)),
    (Z.ltb_spec 0 (minBedrooms cfg)), (1 <? p);
    cbn [app]; repeat constructor; cbn [fst snd];
    try (apply digits_of_spaceless; assumption);
    now apply spaceless_check.
Qed.

(** The form encoding *)

Ltac bools :=
  repeat match goal with
  | H : _ && _ = true |- _ => apply andb_true_iff in H as [? ?]
  | H : _ || _ = true |- _ => apply orb_true_iff in H as [?|?]
  | H : _ || _ = false |- _ => apply orb_false_iff in H as [? ?]
  | H : negb _ = true |- _ => apply negb_true_iff in H
  | H : (_ <=? _)%N = true |- _ => apply N.leb_le in H
  | H : (_ <=? _)%N = false |- _ => apply N.leb_gt in H
  | H : (_ <? _)%N = true |- _ => apply N.ltb_lt in H
  | H : (_ <? _)%N = false |- _ => apply N.ltb_ge in H
  | H : (_ =? _)%N = true |- _ => apply N.eqb_eq in H
  | H : (_ =? _)%N = false |- _ => apply N.eqb_neq in H
  end.

Lemma hexDigit_safe n : (n < 16)%N -> is_form_safe (hexDigit n) = true.
Proof.
  intros Hn. unfold hexDigit.
  destruct (N.ltb_spec n 10).
  - unfold is_form_safe, is_digit.
    replace (48 <=? 48 + n)%N with true by (symmetry; apply N.leb_le; lia).
    replace (48 + n <=? 57)%N with true by (symmetry; apply N.leb_le; lia).
    reflexivity.
  - unfold is_form_safe, is_letter, is_upper.
    replace (65 <=? 55 + n)%N with true by (symmetry; apply N.leb_le; lia).
    replace (55 + n <=? 90)%N with true by (symmetry; apply N.leb_le; lia).
    cbn [andb orb]. now rewrite orb_true_r.
Qed.

Lemma encodeByte_units b :
  (b < 256)%N -> Forall encoded_unit (encodeByte b).
Proof.
  intros Hb. unfold encodeByte, encoded_unit.
  destruct (is_form_safe b) eqn:Hs.
  - repeat constructor. now rewrite Hs.
  - destruct (N.eqb_spec b 32).
    + repeat constructor.
    + assert (b / 16 < 16)%N by (apply N.Div0.div_lt_upper_bound; lia).
      assert (b mod 16 < 16)%N by (apply N.mod_lt; lia).
      repeat constructor; rewrite ?hexDigit_safe by assumption; reflexivity.
Qed.

Lemma encoded_unit_not_space c : encoded_unit c -> is_space c = false.
Proof.
  unfold encoded_unit, is_form_safe, is_digit, is_letter, is_upper, is_lower.
  intros H. destruct (is_space c) eqn:Hs; [|reflexivity].
  unfold is_space in Hs. bools; lia.
Qed.

Lemma utf8_bytes cp :
  (cp < 1114112)%N -> Forall (fun b => (b < 256)%N) (utf8 cp).
Proof.
  intros Hcp. unfold utf8.
  destruct (N.ltb_spec cp 128); [repeat constructor; lia|].
  destruct (N.ltb_spec cp 2048).
  { assert (cp / 64 < 32)%N by (apply N.Div0.div_lt_upper_bound; lia).
    assert (cp mod 64 < 64)%N by (apply N.mod_lt; lia).
    repeat constructor; lia. }
  destruct (N.ltb_spec cp 65536).
  { assert (cp / 4096 < 16)%N by (apply N.Div0.div_lt_upper_bound; lia).
    assert ((cp / 64) mod 64 < 64)%N by (apply N.mod_lt; lia).
    assert (cp mod 64 < 64)%N by (apply N.mod_lt; lia).
    repeat constructor; lia. }
  assert (cp / 262144 < 5)%N by (apply N.Div0.div_lt_upper_bound; lia).
  assert ((cp / 4096) mod 64 < 64)%N by (apply N.mod_lt; lia).
  assert ((cp / 64) mod 64 < 64)%N by (apply N.mod_lt; lia).
  assert (cp mod 64 < 64)%N by (apply N.mod_lt; lia).
  repeat constructor; lia.
Qed.

Lemma codePoints_range_below n :
  forall s, (length s <= n)%nat -> utf16 s ->
    Forall (fun cp => (cp < 1114112)%N) (codePoints s).
Proof.
  unfold utf16.
  induction n as [|n IH]; intros s Hlen Hs;
    (destruct s as [|c t]; cbn [codePoints]; [constructor|]);
    cbn [length] in Hlen; [lia|].
  apply Forall_cons in Hs as [Hc Ht].
  assert (IHt : Forall (fun cp => (cp < 1114112)%N) (codePoints t))
    by (apply IH; [lia | exact Ht]).
  destruct ((55296 <=? c) && (c <=? 56319))%N eqn:Hhi.
  - destruct t as [|d t']; [repeat constructor; lia|].
    destruct ((56320 <=? d) && (d <=? 57343))%N eqn:Hlo.
    + apply Forall_cons in Ht as [Hd Ht']. bools. cbn [length] in Hlen.
      constructor; [lia|]. apply IH; [lia | exact Ht'].
    + constructor; [lia | exact IHt].
  - destruct ((56320 <=? c) && (c <=? 57343))%N; constructor; (lia || exact IHt).
Qed.

Lemma codePoints_range s :
  utf16 s -> Forall (fun cp => (cp < 1114112)%N) (codePoints s).
Proof. apply (codePoints_range_below (length s)). lia. Qed.

Lemma formEncode_units s : utf16 s -> Forall encoded_unit (formEncode s).
Proof.
  intros Hs. unfold formEncode.
  apply Forall_flat_map.
  assert (Hb : Forall (fun b => (b < 256)%N) (flat_map utf8 (codePoints s))).
  { apply Forall_flat_map. eapply Forall_impl; [apply codePoints_range, Hs|].
    intros cp Hcp. now apply utf8_bytes. }
  eapply Forall_impl; [exact Hb|]. intros b Hlt. now apply encodeByte_units.
Qed.

Lemma formEncode_spaceless s : utf16 s -> spaceless (formEncode s).
Proof.
  intros Hs. unfold spaceless.
  eapply Forall_impl; [apply formEncode_units, Hs|].
  apply encoded_unit_not_space.
Qed.

Lemma join_Forall (P : N -> Prop) sep parts :
  Forall P sep -> Forall (Forall P) parts -> Forall P (join sep parts).
Proof.
  intros Hsep. induction parts as [|p rest IH]; intros H; [constructor|].
  apply Forall_cons in H as [Hp Hrest]. cbn [join].
  destruct rest as [|q rest]; [exact Hp|].
  repeat (apply Forall_app; split); auto.
Qed.

Lemma serializeParams_spaceless params :
  Forall (fun kv => utf16 (fst kv) /\ utf16 (snd kv)) params ->
  spaceless (serializeParams params).
Proof.
  intros H. unfold serializeParams, spaceless.
  apply join_Forall; [now apply spaceless_check|].
  apply Forall_map. eapply Forall_impl; [exact H|].
  intros [k v] [Hk Hv]. cbn [fst snd] in *.
  repeat (apply Forall_app; split);
    [now apply formEncode_spaceless | now apply spaceless_check
     | now apply formEncode_spaceless].
Qed.

Lemma digits_of_utf16 z : 0 < z -> utf16 (digits_of z).
Proof.
  intros Hz. destruct (digits_of_spec z) as (c & ds & -> & Hall & _); [lia|].
  unfold utf16. eapply Forall_impl; [exact Hall|].
  intros x Hx. unfold is_digit in Hx. bools. lia.
Qed.

Lemma functionName_utf16 name : utf16 name -> utf16 (functionName name).
Proof.
  intros H. unfold functionName.
  destruct (jsstring_eqb _ _); [now apply utf16_check | exact H].
Qed.

Lemma lookupOr_utf16 l key fallback :
  Forall (fun kv => utf16 (snd kv)) l ->
  utf16 key -> utf16 fallback ->
  utf16 (lookupOr (list_to_map l) key fallback).
Proof.
  intros Hl Hkey Hfb. unfold lookupOr, object_get.
  destruct (_ !! key) as [[|c v]|] eqn:Hk; [exact Hfb | |].
  - exact (table_values utf16 l _ _ Hl Hk).
  - destruct (existsb _ _).
    + unfold utf16. repeat (apply Forall_app; split);
        [now apply utf16_check | now apply functionName_utf16 | now apply utf16_check].
    + destruct (jsstring_eqb _ _); [now apply utf16_check | exact Hfb].
Qed.

(** X10.  The search URL of versions 1.1.0 and 2.0.0 holds no white space,
    for every input and every region name whose lower case does not name a
    property inherited from [Object.prototype]. *)
Theorem searchUrl_spaceless :
  forall (cfg : Config) (name : jsstring) (pageNumber : Z),
    inheritedName (toLowerCase name) = false ->
    spaceless (V1_1.buildRegionSearchUrl cfg name pageNumber) /\
    spaceless (V2_0.buildRegionSearchUrl cfg name pageNumber).
Proof.
  intros cfg name p Hname.
  split; apply buildRegionSearchUrlIn_spaceless, regionSlugIn_spaceless;
    try exact Hname; intros k v Hk.
  - unfold V1_1.REGION_MAP in Hk.
    refine (table_values spaceless _ _ _ _ Hk).
    apply Forall_forall. intros kv Hkv. apply spaceless_check.
    revert kv Hkv. apply Forall_forall. apply Forall_check. vm_compute. reflexivity.
  - unfold V2_0.REGION_MAP in Hk.
    refine (table_values spaceless _ _ _ _ Hk).
    apply Forall_forall. intros kv Hkv. apply spaceless_check.
    revert kv Hkv. apply Forall_forall. apply Forall_check. vm_compute. reflexivity.
Qed.

Lemma searchUrl_spaceless_witness :
  inheritedName (toLowerCase (str "Mont Saint Hilaire")) = false /\
  spaceless (V1_1.buildRegionSearchUrl defaultInput (str "Mont Saint Hilaire") 1) /\
  spaceless (V2_0.buildRegionSearchUrl defaultInput (str "Mont Saint Hilaire") 1).
Proof.
  split; [reflexivity|].
  apply (searchUrl_spaceless defaultInput (str "Mont Saint Hilaire") 1).
  reflexivity.
Defined.

(** X11.  The search URL of version 1.0.0 holds no white space either,
    whatever the property types and the sort order of the input are: the
    form encoding writes a space as [+] and escapes the rest. *)
Theorem V1_0_searchUrl_spaceless :
  forall (cfg : Config) (sortBy name : jsstring) (pageNumber : Z),
    inheritedName (toLowerCase name) = false ->
    Forall utf16 (propertyTypes cfg) ->
    utf16 sortBy ->
    spaceless (V1_0.buildRegionSearchUrl cfg sortBy name pageNumber).
Proof.
  intros cfg sortBy name p Hname Hpts Hsort.
  unfold V1_0.buildRegionSearchUrl. cbv zeta.
  apply with_query_spaceless.
  { apply baseUrl_spaceless, regionSlugIn_spaceless; [|exact Hname].
    intros k v Hk. unfold V1_0.REGION_MAP in Hk.
    refine (table_values spaceless _ _ _ _ Hk).
    apply Forall_forall. intros kv Hkv. apply spaceless_check.
    revert kv Hkv. apply Forall_forall. apply Forall_check. vm_compute. reflexivity. }
  apply serializeParams_spaceless.
  assert (Htypes : forall M : list (jsstring * jsstring),
             Forall (fun kv => utf16 (snd kv)) M ->
             utf16 (join (str ",")
                      (List.map (fun t => lookupOr (list_to_map M) t t) (propertyTypes cfg)))).
  { intros M HM. apply join_Forall; [now apply utf16_check|].
    apply Forall_map. eapply Forall_impl; [exact Hpts|].
    intros t Ht. now apply lookupOr_utf16. }
  assert (Hfr : Forall (fun kv : jsstring * jsstring => utf16 (snd kv))
            [ (str "house", str "maison"); (str "condo", str "condo");
              (str "plex", str "plex"); (str "land", str "terrain");
              (str "commercial", str "commercial"); (str "farm", str "ferme");
              (str "cottage", str "chalet") ]).
  { apply Forall_forall. intros kv Hkv. apply utf16_check.
    revert kv Hkv. apply Forall_forall. apply Forall_check. vm_compute. reflexivity. }
  assert (Hen : Forall (fun kv : jsstring * jsstring => utf16 (snd kv))
            [ (str "house", str "house"); (str "condo", str "condo");
              (str "plex", str "plex"); (str "land", str "land");
              (str "commercial", str "commercial"); (str "farm", str "farm");
              (str "cottage", str "cottage") ]).
  { apply Forall_forall. intros kv Hkv. apply utf16_check.
    revert kv Hkv. apply Forall_forall. apply Forall_check. vm_compute. reflexivity. }
  assert (Hso : utf16 (lookupOr V1_0.SORT_MAP sortBy (str "DateDescending"))).
  { unfold V1_0.SORT_MAP. apply lookupOr_utf16; [|exact Hsort | now apply utf16_check].
    apply Forall_forall. intros kv Hkv. apply utf16_check.
    revert kv Hkv. apply Forall_forall. apply Forall_check. vm_compute. reflexivity. }
  assert (Hpt : utf16 (join (str ",")
             (List.map (fun t => lookupOr
                 (if jsstring_eqb (language cfg) (str "fr")
                  then V1_0.PROPERTY_TYPE_MAP else V1_0.PROPERTY_TYPE_MAP_EN) t t)
               (propertyTypes cfg)))).
  { destruct (jsstring_eqb _ _); [apply (Htypes _ Hfr) | apply (Htypes _ Hen)]. }
  destruct (0 <? length (propertyTypes cfg))%nat,
    (Z.ltb_spec 0 (minPrice cfg)), (Z.ltb_spec 0 (maxPrice cfg)),
    (Z.ltb_spec 0 (minBedrooms cfg)), (Z.ltb_spec 0 (maxBedrooms cfg)),
    (Z.ltb_spec 0 (minBathrooms cfg)), (Z.ltb_spec 0 (maxBathrooms cfg)),
    (Z.ltb_spec 1 p);
    cbn [app]; repeat constructor; cbn [fst snd];
    try (apply digits_of_utf16; lia);
    try exact Hpt; try exact Hso;
    now apply utf16_check.
Qed.

Lemma V1_0_searchUrl_spaceless_witness :
  inheritedName (toLowerCase (str "Mont Saint Hilaire")) = false /\
  Forall utf16
    (propertyTypes (set_propertyTypes [str "maison de ville"] defaultInput)) /\
  utf16 (str "price asc") /\
  spaceless
    (V1_0.buildRegionSearchUrl
       (set_propertyTypes [str "maison de ville"] defaultInput)
       (str "price asc") (str "Mont Saint Hilaire") 2).
Proof.
  assert (Hp : Forall utf16
    (propertyTypes (set_propertyTypes [str "maison de ville"] defaultInput))).
  { constructor; [|constructor]. apply utf16_check. reflexivity. }
  assert (Hs : utf16 (str "price asc")) by (apply utf16_check; reflexivity).
  split; [reflexivity|]. split; [exact Hp|]. split; [exact Hs|].
  apply (V1_0_searchUrl_spaceless
           (set_propertyTypes [str "maison de ville"] defaultInput)
           (str "price asc") (str "Mont Saint Hilaire") 2); [reflexivity | exact Hp | exact Hs].
Defined.

(** The query string read back *)

Lemma split_no_sep sep p : ~ In sep p -> split sep p = [p].
Proof.
  induction p as [|c p IH]; intros Hp; [reflexivity|].
  cbn [split]. destruct (N.eqb_spec c sep) as [->|_];
    [exfalso; apply Hp; now left|].
  rewrite IH; [reflexivity|]. intros H. apply Hp. now right.
Qed.

Lemma split_app_sep sep p rest :
  ~ In sep p -> split sep (p ++ sep :: rest) = p :: split sep rest.
Proof.
  induction p as [|c p IH]; intros Hp; cbn [app split].
  - now rewrite N.eqb_refl.
  - destruct (N.eqb_spec c sep) as [->|_]; [exfalso; apply Hp; now left|].
    rewrite IH; [reflexivity|]. intros H. apply Hp. now right.
Qed.

Lemma split_join parts :
  parts <> [] -> Forall (fun p => ~ In 38%N p) parts ->
  split 38%N (join (str "&") parts) = parts.
Proof.
  induction parts as [|p rest IH]; intros Hne H; [congruence|].
  apply Forall_cons in H as [Hp Hrest]. cbn [join].
  destruct rest as [|q rest]; [now apply split_no_sep|].
  change (str "&") with [38%N]. cbn [app].
  rewrite split_app_sep by exact Hp. f_equal. apply IH; [discriminate | exact Hrest].
Qed.

Lemma hexDigit_no_sep n : hexDigit n <> 38%N /\ hexDigit n <> 61%N.
Proof. unfold hexDigit. destruct (N.ltb_spec n 10); lia. Qed.

Lemma formEncode_no_sep s :
  ~ In 38%N (formEncode s) /\ ~ In 61%N (formEncode s).
Proof.
  assert (H : Forall (fun c => c <> 38%N /\ c <> 61%N) (formEncode s)).
  { unfold formEncode. apply Forall_flat_map, Forall_forall. intros b _.
    unfold encodeByte. destruct (is_form_safe b) eqn:Hs.
    - repeat constructor; intros ->; discriminate Hs.
    - pose proof (hexDigit_no_sep (b / 16)). pose proof (hexDigit_no_sep (b mod 16)).
      destruct (b =? 32)%N; repeat constructor; try lia; tauto. }
  rewrite Forall_forall in H.
  split; intros Hin; apply list_elem_of_In in Hin; destruct (H _ Hin); congruence.
Qed.

(** X12.  The query string [URLSearchParams] writes reads back as the pairs
    that were appended: cut at [&] and then at [=], it gives one name and one
    value per pair, in order, whatever text the names and values hold. *)
Theorem serializeParams_reads_back :
  forall params : list (jsstring * jsstring),
    params <> [] ->
    List.map (split 61%N) (split 38%N (serializeParams params)) =
    List.map (fun kv => [formEncode (fst kv); formEncode (snd kv)]) params.
Proof.
  intros params Hne. unfold serializeParams.
  rewrite split_join.
  - rewrite List.map_map. apply List.map_ext. intros [k v]. cbn [fst snd].
    change (str "=") with [61%N]. cbn [app].
    rewrite split_app_sep by apply formEncode_no_sep.
    now rewrite split_no_sep by apply formEncode_no_sep.
  - destruct params; [congruence | discriminate].
  - apply Forall_map, Forall_forall. intros [k v] _. cbn [fst snd].
    intros Hin. apply in_app_or in Hin as [Hin|Hin];
      [now apply (proj1 (formEncode_no_sep k))|].
    apply in_app_or in Hin as [Hin|Hin];
      [destruct Hin as [Hin|[]]; discriminate Hin
      | now apply (proj1 (formEncode_no_sep v))].
Qed.

Lemma serializeParams_reads_back_witness :
  [(str "pt", str "a&b=c d"); (str "sort", str "DateDescending")] <> [] /\
  List.map (split 61%N)
    (split 38%N
       (serializeParams
          [(str "pt", str "a&b=c d"); (str "sort", str "DateDescending")])) =
  [[str "pt"; str "a%26b%3Dc+d"]; [str "sort"; str "DateDescending"]].
Proof.
  split; [discriminate|].
  apply (serializeParams_reads_back
           [(str "pt", str "a&b=c d"); (str "sort", str "DateDescending")]).
  discriminate.
Defined.

(** ** Addresses, further *)

Lemma dropWhile_idem p s : dropWhile p (dropWhile p s) = dropWhile p s.
Proof.
  induction s as [|c t IH]; [reflexivity|]. cbn [dropWhile].
  destruct (p c) eqn:Hc; [exact IH|]. cbn [dropWhile]. now rewrite Hc.
Qed.

Lemma dropWhile_head p s c t : dropWhile p s = c :: t -> p c = false.
Proof.
  induction s as [|x s IH]; cbn [dropWhile]; [discriminate|].
  destruct (p x) eqn:Hx; [exact IH|]. intros [= <- _]. exact Hx.
Qed.

Lemma dropWhile_length p s : (length (dropWhile p s) <= length s)%nat.
Proof.
  induction s as [|c t IH]; cbn [dropWhile length]; [lia|].
  destruct (p c); cbn [length]; lia.
Qed.

Lemma dropWhile_fixed p s :
  dropWhile p s = s <-> s = [] \/ exists c t, s = c :: t /\ p c = false.
Proof.
  split.
  - destruct s as [|c t]; [now left|]. intros H. right. exists c, t.
    split; [reflexivity|]. exact (dropWhile_head p _ _ _ H).
  - intros [->|(c & t & -> & Hc)]; [reflexivity|]. cbn [dropWhile]. now rewrite Hc.
Qed.

(** A text without white space at its ends. *)
Lemma trim_fixed s :
  dropWhile is_space s = s -> dropWhile is_space (rev s) = rev s -> trim s = s.
Proof. intros H1 H2. unfold trim. rewrite H1, H2. apply rev_involutive. Qed.

Lemma trim_ends s :
  dropWhile is_space (trim s) = trim s /\
  dropWhile is_space (rev (trim s)) = rev (trim s).
Proof.
  unfold trim.
  set (u := dropWhile is_space s). set (r := dropWhile is_space (rev u)).
  split.
  - destruct (rev r) as [|x xs] eqn:Hr; [reflexivity|].
    apply dropWhile_fixed. right. exists x, xs. split; [reflexivity|].
    assert (Hu : u = (x :: xs) ++ rev (takeWhile is_space (rev u))).
    { rewrite <- Hr. unfold r. rewrite <- rev_app_distr, takeWhile_dropWhile.
      symmetry. apply rev_involutive. }
    cbn [app] in Hu. exact (dropWhile_head is_space s _ _ Hu).
  - rewrite rev_involutive. apply dropWhile_idem.
Qed.

Lemma trim_trim s : trim (trim s) = trim s.
Proof. apply trim_fixed; apply trim_ends. Qed.

Lemma trim_edges x mid y :
  is_space x = false -> is_space y = false ->
  trim (x :: mid ++ [y]) = x :: mid ++ [y].
Proof.
  intros Hx Hy. apply trim_fixed.
  - cbn [dropWhile]. now rewrite Hx.
  - change (x :: mid ++ [y]) with ((x :: mid) ++ [y]).
    rewrite rev_app_distr. cbn [rev app dropWhile]. now rewrite Hy.
Qed.

Lemma upper_char_letter a :
  is_letter a = true -> exists x, upper_char a = [x] /\ is_space x = false.
Proof.
  unfold is_letter, is_upper. intros Ha. unfold upper_char.
  destruct (is_lower a) eqn:Hl.
  - exists (a - 32)%N. split; [reflexivity|].
    destruct (is_space (a - 32)) eqn:Hs; [|reflexivity].
    unfold is_lower, is_space in *. bools; lia.
  - rewrite orb_false_r in Ha.
    replace ((224 <=? a) && (a <=? 254) && negb (a =? 247))%N with false
      by (symmetry; bools; apply andb_false_iff; left; apply andb_false_iff;
          left; apply N.leb_gt; lia).
    replace (a =? 223)%N with false by (symmetry; bools; apply N.eqb_neq; lia).
    replace (a =? 181)%N with false by (symmetry; bools; apply N.eqb_neq; lia).
    replace (a =? 255)%N with false by (symmetry; bools; apply N.eqb_neq; lia).
    exists a. split; [reflexivity|].
    destruct (is_space a) eqn:Hs; [|reflexivity].
    unfold is_space in Hs. bools; lia.
Qed.

Lemma upper_char_digit f : is_digit f = true -> upper_char f = [f].
Proof.
  unfold is_digit. intros Hf. unfold upper_char, is_lower. bools.
  replace (97 <=? f)%N with false by (symmetry; apply N.leb_gt; lia).
  replace (224 <=? f)%N with false by (symmetry; apply N.leb_gt; lia).
  replace (f =? 223)%N with false by (symmetry; apply N.eqb_neq; lia).
  replace (f =? 181)%N with false by (symmetry; apply N.eqb_neq; lia).
  replace (f =? 255)%N with false by (symmetry; apply N.eqb_neq; lia).
  reflexivity.
Qed.

Lemma postal_code_upper_trimmed m :
  postal_code m -> trim (toUpperCase m) = toUpperCase m.
Proof.
  intros [a b c ws d e f Ha Hb Hc Hws Hd He Hf].
  destruct (upper_char_letter a Ha) as (x & Hx & Hxs).
  unfold toUpperCase.
  replace (a :: b :: c :: ws ++ [d; e; f])
    with ([a] ++ (b :: c :: ws ++ [d; e]) ++ [f])
    by (cbn [app]; now rewrite <- app_assoc).
  rewrite !flat_map_app. cbn [flat_map]. rewrite Hx, (upper_char_digit f Hf).
  cbn [app]. apply trim_edges; [exact Hxs | now apply is_digit_not_space].
Qed.

(** X13.  No field of a parsed address has white space at its ends: each of
    street, city, region and postal code is unset or is its own trim. *)
Theorem parseAddress_fields_trimmed :
  forall fullAddress : option jsstring,
    trimmed_field (street (V1_0.parseAddress fullAddress)) /\
    trimmed_field (city (V1_0.parseAddress fullAddress)) /\
    trimmed_field (region (V1_0.parseAddress fullAddress)) /\
    trimmed_field (postalCode (V1_0.parseAddress fullAddress)).
Proof.
  unfold trimmed_field.
  intros [[|c0 t0]|];
    [repeat apply conj; intros ? [=] | | repeat apply conj; intros ? [=]].
  unfold V1_0.parseAddress.
  assert (Hparts : Forall (fun p => trim p = p) (List.map trim (split 44%N (c0 :: t0)))).
  { apply Forall_map, Forall_forall. intros p _. apply trim_trim. }
  revert Hparts. generalize (List.map trim (split 44%N (c0 :: t0))). intros parts Hparts.
  cbv zeta.
  destruct parts as [|p0 [|p1 [|p2 [|p3 rest]]]];
    repeat match goal with
    | H : Forall _ (_ :: _) |- _ => apply Forall_cons in H as [? H]
    end;
    cbn -[searchPostal trim toUpperCase remove_first];
    try (destruct (searchPostal p2) as [[[before m] after]|] eqn:Hm;
         [destruct (searchPostal_Some _ _ _ _ Hm) as (_ & Hpc & _)|]);
    cbn -[searchPostal trim toUpperCase remove_first];
    repeat apply conj; intros ? [=]; subst;
    auto using trim_trim, postal_code_upper_trimmed.
Qed.

(** X14.  Versions 1.1.0 and 1.0.0 cut an address the same way: street and
    city of the address object of 1.1.0 are those [parseAddress] gives, with
    an empty text turned into [null]; so is the region when [parseAddress]
    finds no postal code. *)
Theorem detailAddress_agrees_with_parseAddress :
  forall fullAddress : jsstring,
    fullAddress <> [] ->
    street (detailAddress fullAddress) =
      partOrNull (street (V1_0.parseAddress (Some fullAddress))) /\
    city (detailAddress fullAddress) =
      partOrNull (city (V1_0.parseAddress (Some fullAddress))) /\
    (postalCode (V1_0.parseAddress (Some fullAddress)) = Unset ->
     region (detailAddress fullAddress) =
       partOrNull (region (V1_0.parseAddress (Some fullAddress)))).
Proof.
  intros [|c0 t0] Hne; [congruence|].
  unfold detailAddress, V1_0.parseAddress. cbv zeta.
  generalize (List.map trim (split 44%N (c0 :: t0))). intros parts.
  destruct parts as [|p0 [|p1 [|p2 [|p3 rest]]]];
    cbn -[searchPostal trim toUpperCase remove_first];
    try (destruct (searchPostal p2) as [[[before m] after]|]);
    cbn -[searchPostal trim toUpperCase remove_first];
    repeat apply conj; try reflexivity; discriminate.
Qed.

Lemma detailAddress_agrees_with_parseAddress_witness :
  str "1234 rue Sherbrooke, Montreal, Quebec" <> [] /\
  street (detailAddress (str "1234 rue Sherbrooke, Montreal, Quebec")) =
    partOrNull (street (V1_0.parseAddress (Some (str "1234 rue Sherbrooke, Montreal, Quebec")))) /\
  city (detailAddress (str "1234 rue Sherbrooke, Montreal, Quebec")) =
    partOrNull (city (V1_0.parseAddress (Some (str "1234 rue Sherbrooke, Montreal, Quebec")))) /\
  (postalCode (V1_0.parseAddress (Some (str "1234 rue Sherbrooke, Montreal, Quebec"))) = Unset ->
   region (detailAddress (str "1234 rue Sherbrooke, Montreal, Quebec")) =
     partOrNull (region (V1_0.parseAddress (Some (str "1234 rue Sherbrooke, Montreal, Quebec"))))).
Proof.
  split; [discriminate|].
  apply (detailAddress_agrees_with_parseAddress
           (str "1234 rue Sherbrooke, Montreal, Quebec")).
  discriminate.
Defined.

Lemma collapseSpaces_single_spaced s :
  forall b, single_spaced b (collapseSpaces b s) = true.
Proof.
  induction s as [|c t IH]; intros b; cbn [collapseSpaces]; [reflexivity|].
  destruct (is_space c) eqn:Hc.
  - destruct b; [apply IH|]. cbn [single_spaced].
    change (is_space 32) with true. cbn. apply IH.
  - cbn [single_spaced]. rewrite Hc. apply IH.
Qed.

Lemma collapseSpaces_fixed s :
  forall b, single_spaced b s = true -> collapseSpaces b s = s.
Proof.
  induction s as [|c t IH]; intros b; cbn [single_spaced collapseSpaces];
    [reflexivity|].
  destruct (is_space c) eqn:Hc.
  - intros H. apply andb_true_iff in H as [H Ht].
    apply andb_true_iff in H as [Hc32 Hb].
    apply N.eqb_eq in Hc32. apply negb_true_iff in Hb. subst c b.
    now rewrite (IH true Ht).
  - intros Ht. now rewrite (IH false Ht).
Qed.

Lemma collapseSpaces_snoc s y :
  is_space y = false ->
  forall b, collapseSpaces b (s ++ [y]) = collapseSpaces b s ++ [y].
Proof.
  intros Hy. induction s as [|c t IH]; intros b; cbn [app collapseSpaces].
  - now rewrite Hy.
  - destruct (is_space c); [destruct b|]; cbn [app]; now rewrite IH.
Qed.

Lemma collapseSpaces_ends s :
  dropWhile is_space s = s -> dropWhile is_space (rev s) = rev s ->
  dropWhile is_space (collapseSpaces false s) = collapseSpaces false s /\
  dropWhile is_space (rev (collapseSpaces false s)) = rev (collapseSpaces false s).
Proof.
  intros H1 H2. split.
  - apply dropWhile_fixed in H1 as [->|(c & t & -> & Hc)]; [reflexivity|].
    cbn [collapseSpaces]. rewrite Hc. cbn [dropWhile]. now rewrite Hc.
  - apply dropWhile_fixed in H2 as [H2|(y & r & H2 & Hy)].
    + apply (f_equal (@rev N)) in H2. rewrite rev_involutive in H2. now subst s.
    + apply (f_equal (@rev N)) in H2. rewrite rev_involutive in H2.
      cbn [rev] in H2. subst s.
      rewrite (collapseSpaces_snoc _ y Hy), rev_app_distr.
      cbn [rev app dropWhile]. now rewrite Hy.
Qed.

(** The full address is in normal form, and normalising it again leaves it
    as it is. *)
Lemma detailFullAddress_fixed_point :
  forall textContent : jsstring,
    match detailFullAddress textContent with
    | Some t =>
        t <> [] /\ trim t = t /\ single_spaced false t = true /\
        detailFullAddress t = Some t
    | None => trim textContent = []
    end.
Proof.
  intros text. unfold detailFullAddress.
  destruct (trim_ends text) as [H1 H2].
  destruct (collapseSpaces_ends (trim text) H1 H2) as [H3 H4].
  pose proof (collapseSpaces_single_spaced (trim text) false) as Hs.
  destruct (collapseSpaces false (trim text)) as [|c t] eqn:Ht.
  - destruct (trim text) as [|x xs]; [reflexivity|].
    cbn [collapseSpaces] in Ht. destruct (is_space x); discriminate Ht.
  - assert (Htrim : trim (c :: t) = c :: t) by (apply trim_fixed; assumption).
    split; [discriminate|]. split; [exact Htrim|]. split; [exact Hs|].
    rewrite Htrim, (collapseSpaces_fixed _ false Hs). reflexivity.
Qed.

(** *** The parser, by position *)

Lemma split_nonempty sep s : split sep s <> [].
Proof.
  destruct s as [|c t]; cbn [split]; [discriminate|].
  destruct (c =? sep)%N; [discriminate|]. destruct (split sep t); discriminate.
Qed.

Lemma split_pieces sep s : Forall (fun seg => ~ In sep seg) (split sep s).
Proof.
  induction s as [|c t IH]; cbn [split].
  - constructor; [intros [] | constructor].
  - destruct (N.eqb_spec c sep) as [->|Hc].
    + constructor; [intros [] | exact IH].
    + destruct (split sep t) as [|p ps]; [repeat constructor; intros [H|[]]; congruence|].
      apply Forall_cons in IH as [Hp Hps]. constructor; [|exact Hps].
      intros [H|H]; [congruence | exact (Hp H)].
Qed.

Lemma join_cons_head sep c p ps :
  join sep ((c :: p) :: ps) = c :: join sep (p :: ps).
Proof. destruct ps; reflexivity. Qed.

Lemma join_split sep s : join [sep] (split sep s) = s.
Proof.
  induction s as [|c t IH]; cbn [split]; [reflexivity|].
  destruct (N.eqb_spec c sep) as [->|Hc].
  - pose proof (split_nonempty sep t) as Hne.
    destruct (split sep t) as [|q qs]; [congruence|].
    change (join [sep] ([] :: q :: qs))
      with ([] ++ [sep] ++ join [sep] (q :: qs)).
    now rewrite IH.
  - pose proof (split_nonempty sep t) as Hne.
    destruct (split sep t) as [|p ps]; [congruence|].
    rewrite join_cons_head. now rewrite IH.
Qed.

Lemma split_join_at sep parts :
  parts <> [] -> Forall (fun p => ~ In sep p) parts ->
  split sep (join [sep] parts) = parts.
Proof.
  induction parts as [|p rest IH]; intros Hne H; [congruence|].
  apply Forall_cons in H as [Hp Hrest]. cbn [join].
  destruct rest as [|q rest]; [now apply split_no_sep|].
  cbn [app]. rewrite split_app_sep by exact Hp. f_equal.
  apply IH; [discriminate | exact Hrest].
Qed.

(** Cutting at the commas is what [split] does, and nothing else is. *)
Lemma cut_at_commas_split text : cut_at_commas text (split 44%N text).
Proof.
  split; [apply split_nonempty|]. split; [apply split_pieces|].
  change (str ",") with [44%N]. symmetry. apply join_split.
Qed.

Lemma cut_at_commas_unique text segs :
  cut_at_commas text segs -> segs = split 44%N text.
Proof.
  intros (Hne & Hpieces & ->). change (str ",") with [44%N].
  symmetry. now apply split_join_at.
Qed.

Lemma trim_stripped s : stripped s (trim s).
Proof.
  destruct (trim_ends s) as [Hhead Hlast].
  split; [|split].
  - exists (takeWhile is_space s),
           (rev (takeWhile is_space (rev (dropWhile is_space s)))).
    split; [|split].
    + unfold trim. rewrite <- rev_app_distr, takeWhile_dropWhile, rev_involutive.
      symmetry. apply takeWhile_dropWhile.
    + apply takeWhile_all.
    + apply List.Forall_rev, takeWhile_all.
  - intros c rest Ht. rewrite Ht in Hhead. exact (dropWhile_head _ _ _ _ Hhead).
  - intros init c Ht. rewrite Ht, rev_app_distr in Hlast. cbn [rev app] in Hlast.
    exact (dropWhile_head _ _ _ _ Hlast).
Qed.

Lemma searchPostal_first s :
  forall before m after,
    searchPostal s = Some (before, m, after) -> first_postal s before m after.
Proof.
  intros before m after Hs.
  destruct (searchPostal_Some _ _ _ _ Hs) as (Heq & Hm & _).
  split; [exact Heq|]. split; [exact Hm|]. clear Heq Hm.
  revert before Hs. induction s as [|c t IH]; intros before Hs b' m' a' Heq Hm'.
  - cbn in Hs. discriminate.
  - cbn [searchPostal] in Hs.
    destruct (matchPostalAt (c :: t)) as [[m0 r0]|] eqn:Hat.
    + injection Hs as <- _ _. cbn [length]. lia.
    + destruct (searchPostal t) as [[[b0 m1] r1]|] eqn:Ht; [|discriminate].
      injection Hs as <- <- <-.
      destruct b' as [|x b''].
      * exfalso. apply (matchPostalAt_prefix (c :: t) m' Hm'); [|exact Hat].
        cbn [app] in Heq. rewrite Heq. apply startsWith_app.
      * injection Heq as _ Heq. cbn [length].
        pose proof (IH b0 eq_refl b'' m' a' Heq Hm'). lia.
Qed.

Lemma upper_char_capital c :
  is_letter c = true \/ is_digit c = true \/ is_space c = true ->
  upper_char c = [capital c].
Proof.
  intros Hc. unfold upper_char, capital.
  destruct (is_lower c) eqn:Hl; [reflexivity|].
  assert (Hrange : (c <= 122 \/ 160 <= c < 181 \/ 5760 <= c)%N /\ c <> 181%N).
  { unfold is_letter, is_upper, is_lower, is_digit, is_space in Hc.
    destruct Hc as [Hc|[Hc|Hc]]; bools; lia. }
  replace ((224 <=? c) && (c <=? 254) && negb (c =? 247))%N with false.
  2:{ symmetry. destruct (N.leb_spec 224 c); [|reflexivity].
      destruct (N.leb_spec c 254); [lia | reflexivity]. }
  replace (c =? 223)%N with false by (symmetry; apply N.eqb_neq; lia).
  replace (c =? 181)%N with false by (symmetry; apply N.eqb_neq; lia).
  replace (c =? 255)%N with false by (symmetry; apply N.eqb_neq; lia).
  reflexivity.
Qed.

Lemma toUpperCase_postal m : postal_code m -> toUpperCase m = List.map capital m.
Proof.
  intros [a b c ws d e f Ha Hb Hc Hws Hd He Hf]. unfold toUpperCase.
  assert (Hall : Forall (fun x => upper_char x = [capital x])
                   (a :: b :: c :: ws ++ [d; e; f])).
  { repeat constructor; try (apply upper_char_capital; auto).
    apply Forall_app. split.
    - eapply Forall_impl; [exact Hws|]. intros x Hx. apply upper_char_capital. auto.
    - repeat constructor; apply upper_char_capital; auto. }
  induction Hall as [|x l Hx _ IH]; [reflexivity|].
  cbn [flat_map List.map]. now rewrite Hx, IH.
Qed.

Lemma parseAddress_split text :
  text <> [] ->
  by_position Unset (split 44%N text) (V1_0.parseAddress (Some text)).
Proof.
  destruct text as [|c0 t0]; [congruence|]. intros _.
  unfold V1_0.parseAddress. cbv zeta.
  generalize (split 44%N (c0 :: t0)). intros segs.
  assert (Hstrip : forall s, exists t, stripped s t /\ Text (trim s) = Text t)
    by (intros s; exists (trim s); split; [apply trim_stripped | reflexivity]).
  unfold by_position, filled.
  destruct segs as [|s0 [|s1 [|s2 [|s3 rest]]]];
    cbn -[searchPostal trim toUpperCase remove_first stripped];
    try (destruct (searchPostal (trim s2)) as [[[before m] after]|] eqn:Hm);
    cbn -[searchPostal trim toUpperCase remove_first stripped];
    repeat apply conj; try reflexivity; try apply Hstrip;
    try (intros s [=]; subst; apply Hstrip); try (intros s [=]).
  - exists (trim s2). split; [apply trim_stripped|]. right.
    destruct (searchPostal_Some _ _ _ _ Hm) as (_ & Hpc & Hrem).
    exists before, m, after, (trim (before ++ after)).
    split; [now apply searchPostal_first|].
    split; [apply trim_stripped|].
    split; [now rewrite Hrem|].
    intros _. now rewrite toUpperCase_postal.
  - exists (trim s2). split; [apply trim_stripped|]. left.
    split; [exact (searchPostal_None _ Hm)|]. split; reflexivity.
  - exists (trim s2). split; [apply trim_stripped|]. right.
    destruct (searchPostal_Some _ _ _ _ Hm) as (_ & Hpc & Hrem).
    exists before, m, after, (trim (before ++ after)).
    split; [now apply searchPostal_first|].
    split; [apply trim_stripped|].
    split; [now rewrite Hrem|].
    intros [=].
  - exists (trim s2). split; [apply trim_stripped|]. left.
    split; [exact (searchPostal_None _ Hm)|]. split; [reflexivity|]. intros [=].
Qed.

(** C9.  The claim fails on the empty text and on every missing segment.
    The empty text cut at its commas has one (empty) segment, which the
    claim makes the street, while [parseAddress] returns the empty object for
    it; and a field without segment is not [null] but unset: [12 rue A] has
    no city property. *)
Lemma parseAddress_not_as_claimed :
  ~ parsed_as_claimed [] /\ ~ parsed_as_claimed (str "12 rue A").
Proof.
  split; intros (segs & Hcut & Hpos);
    apply cut_at_commas_unique in Hcut; subst segs.
  - destruct Hpos as ((t & _ & Hstreet) & _). discriminate Hstreet.
  - destruct Hpos as (_ & Hcity & _). discriminate Hcity.
Qed.

(** C9 (amended).  [parseAddress] returns the empty object for a missing
    argument and for the empty text.  Every other text it cuts at the commas
    and fills street, city, region and postal code by position: segment 0,
    without the white space at its ends, is the street, segment 1 the city;
    segment 2 is the region, or, when a postal code (letter, digit, letter,
    any white space, digit, letter, digit, in either case) is found in it,
    the first one in capitals is the postal code and the rest of the
    segment is the region; segment 3, when there is one, replaces the postal
    code.  A field whose segment is missing is left unset.  The function is
    total and has no failure outcome. *)
Theorem parseAddress_by_position :
  V1_0.parseAddress None = emptyAddress /\
  V1_0.parseAddress (Some []) = emptyAddress /\
  forall text : jsstring, text <> [] -> parsed_by_position text.
Proof.
  split; [reflexivity|]. split; [reflexivity|].
  intros text Hne. exists (split 44%N text).
  split; [apply cut_at_commas_split | now apply parseAddress_split].
Qed.

Lemma parseAddress_by_position_witness :
  str "123 Rue Example, Montreal, QC h2t 1a1" <> [] /\
  parsed_by_position (str "123 Rue Example, Montreal, QC h2t 1a1").
Proof.
  split; [discriminate|].
  apply (proj2 (proj2 parseAddress_by_position)
           (str "123 Rue Example, Montreal, QC h2t 1a1")).
  discriminate.
Defined.

(** *** The full address, word by word *)

Lemma words_blank s : Forall (fun c => is_space c = true) s -> words s = [].
Proof.
  induction 1 as [|c t Hc _ IH]; [reflexivity|]. cbn [words]. now rewrite Hc.
Qed.

Lemma words_head c t : is_space c = false -> words (c :: t) <> [].
Proof.
  intros Hc. cbn [words]. rewrite Hc.
  destruct t as [|d t']; [discriminate|].
  destruct (is_space d); [discriminate|].
  destruct (words (d :: t')); discriminate.
Qed.

Lemma words_nil s : words s = [] -> Forall (fun c => is_space c = true) s.
Proof.
  induction s as [|c t IH]; intros H; [constructor|].
  destruct (is_space c) eqn:Hc.
  - constructor; [exact Hc|]. apply IH. cbn [words] in H. now rewrite Hc in H.
  - exfalso. exact (words_head c t Hc H).
Qed.

Lemma words_not_empty s : Forall (fun w => w <> []) (words s).
Proof.
  induction s as [|c t IH]; [constructor|]. cbn [words].
  destruct (is_space c); [exact IH|].
  destruct t as [|d t']; [repeat constructor; discriminate|].
  destruct (is_space d); [constructor; [discriminate | exact IH]|].
  destruct (words (d :: t')) as [|w ws]; [repeat constructor; discriminate|].
  apply Forall_cons in IH as [_ Hws]. constructor; [discriminate | exact Hws].
Qed.

Lemma words_after_spaces l s :
  Forall (fun c => is_space c = true) l -> words (l ++ s) = words s.
Proof.
  induction 1 as [|c l Hc _ IH]; [reflexivity|].
  cbn [app words]. now rewrite Hc.
Qed.

Lemma words_before_spaces s r :
  Forall (fun c => is_space c = true) r -> words (s ++ r) = words s.
Proof.
  intros Hr. induction s as [|c t IH]; [now apply words_blank|].
  cbn [app words]. destruct (is_space c); [exact IH|].
  destruct t as [|d t'].
  - cbn [app]. destruct Hr as [|x r Hx Hr]; [reflexivity|].
    rewrite Hx. now rewrite (words_blank (x :: r)) by now constructor.
  - cbn [app] in *. now rewrite IH.
Qed.

Lemma words_trim s : words (trim s) = words s.
Proof.
  destruct (trim_stripped s) as ((l & r & Hs & Hl & Hr) & _).
  rewrite Hs at 2. rewrite words_after_spaces by exact Hl.
  now rewrite words_before_spaces by exact Hr.
Qed.

Lemma join_not_empty sep w ws : w <> [] -> join sep (w :: ws) <> [].
Proof.
  intros Hw. destruct w as [|c w]; [congruence|].
  rewrite join_cons_head. discriminate.
Qed.

Lemma collapseSpaces_words s :
  (forall init c, s = init ++ [c] -> is_space c = false) ->
  collapseSpaces true s = join (str " ") (words s).
Proof.
  change (str " ") with [32%N].
  induction s as [|c t IH]; intros Hend; [reflexivity|].
  assert (Ht : forall init x, t = init ++ [x] -> is_space x = false).
  { intros init x ->. exact (Hend (c :: init) x eq_refl). }
  specialize (IH Ht). cbn [collapseSpaces words].
  destruct (is_space c) eqn:Hc; [exact IH|].
  destruct t as [|d t']; [reflexivity|].
  destruct (is_space d) eqn:Hd.
  - cbn [collapseSpaces] in IH |- *. rewrite Hd in IH |- *.
    assert (Hw : words (d :: t') <> []).
    { intros Hnil. apply words_nil in Hnil.
      destruct (exists_last (l := d :: t')) as (init & x & Hlast); [discriminate|].
      rewrite Hlast in Hnil. apply Forall_app in Hnil as [_ Hx].
      apply Forall_cons in Hx as [Hx _]. rewrite (Ht init x Hlast) in Hx.
      discriminate. }
    destruct (words (d :: t')) as [|w ws]; [congruence|].
    cbn [join app]. now rewrite IH.
  - pose proof (words_head d t' Hd) as Hw.
    destruct (words (d :: t')) as [|w ws]; [congruence|].
    rewrite join_cons_head, <- IH.
    cbn [collapseSpaces]. now rewrite Hd.
Qed.

Lemma collapseSpaces_trimmed s :
  dropWhile is_space s = s -> collapseSpaces false s = collapseSpaces true s.
Proof.
  intros H. apply dropWhile_fixed in H as [->|(c & t & -> & Hc)]; [reflexivity|].
  cbn [collapseSpaces]. now rewrite Hc.
Qed.

Lemma detailFullAddress_words text :
  detailFullAddress text =
  match words text with
  | [] => None
  | ws => Some (join (str " ") ws)
  end.
Proof.
  unfold detailFullAddress.
  destruct (trim_ends text) as [Hhead _].
  destruct (trim_stripped text) as (_ & _ & Hlast).
  rewrite (collapseSpaces_trimmed _ Hhead), (collapseSpaces_words _ Hlast), words_trim.
  pose proof (words_not_empty text) as Hne.
  destruct (words text) as [|w ws]; [reflexivity|].
  apply Forall_cons in Hne as [Hw _].
  pose proof (join_not_empty (str " ") w ws Hw) as Hj.
  destruct (join (str " ") (w :: ws)); [congruence | reflexivity].
Qed.

(** X15.  The full address read off a detail page is the words of the text
    joined by single plain spaces, and [null] exactly for a blank text (a
    text without words).  So it is in normal form: it is not empty, it has
    no white space at its ends, every white space in it is one plain space,
    and normalising it again leaves it as it is. *)
Theorem detailFullAddress_normal_form :
  forall textContent : jsstring,
    detailFullAddress textContent =
      match words textContent with
      | [] => None
      | ws => Some (join (str " ") ws)
      end /\
    (detailFullAddress textContent = None <->
     Forall (fun c => is_space c = true) textContent) /\
    match detailFullAddress textContent with
    | Some t =>
        t <> [] /\ trim t = t /\ single_spaced false t = true /\
        detailFullAddress t = Some t
    | None => trim textContent = []
    end.
Proof.
  intros text. split; [apply detailFullAddress_words|].
  split; [|apply detailFullAddress_fixed_point].
  rewrite detailFullAddress_words. split.
  - intros H. apply words_nil. destruct (words text); [reflexivity | discriminate].
  - intros H. now rewrite words_blank.
Qed.

(** ** Listing ids *)

Lemma digitRun_eq min s :
  digitRun min s =
  if (min <=? length (takeWhile is_digit s))%nat
  then Some (takeWhile is_digit s)
  else match s with
       | [] => None
       | _ :: t => digitRun min t
       end.
Proof. destruct s; reflexivity. Qed.

Lemma takeWhile_of_dropWhile p s : takeWhile p (dropWhile p s) = [].
Proof.
  induction s as [|c t IH]; [reflexivity|]. cbn [dropWhile].
  destruct (p c) eqn:Hc; [exact IH|]. cbn [takeWhile]. now rewrite Hc.
Qed.

Lemma digitRun_is_id min s : is_id_of min s (digitRun min s).
Proof.
  induction s as [|c t IH]; rewrite digitRun_eq.
  - destruct (Nat.leb_spec min (length (takeWhile is_digit []))) as [Hle|Hlt].
    + cbn [is_id_of]. split; [constructor|]. split; [exact Hle|].
      exists [], []. split; [reflexivity|]. split; [reflexivity|].
      intros a1 a2 Ha. destruct a1, a2; try discriminate Ha. congruence.
    + cbn [is_id_of]. intros a b Hab.
      destruct a, b; try discriminate Hab. exact Hlt.
  - destruct (Nat.leb_spec min (length (takeWhile is_digit (c :: t)))) as [Hle|Hlt].
    + cbn [is_id_of]. split; [apply takeWhile_all|]. split; [exact Hle|].
      exists [], (dropWhile is_digit (c :: t)).
      split; [cbn [app]; symmetry; apply takeWhile_dropWhile|].
      split; [apply takeWhile_of_dropWhile|].
      intros a1 a2 Ha. destruct a1, a2; try discriminate Ha. congruence.
    + destruct (digitRun min t) as [id|] eqn:Hrun; cbn [is_id_of] in *.
      * destruct IH as (Hall & Hlen & a & b & Ht & Hb & Hleft).
        split; [exact Hall|]. split; [exact Hlen|].
        exists (c :: a), b. split; [cbn [app]; now rewrite Ht|].
        split; [exact Hb|].
        intros a1 a2 Ha Hne. destruct a1 as [|x a1].
        -- cbn [app] in Ha. subst a2. cbn [app]. now rewrite <- Ht.
        -- injection Ha as _ Ha. exact (Hleft a1 a2 Ha Hne).
      * intros a b Hab. destruct a as [|x a].
        -- cbn [app] in Hab. now subst b.
        -- injection Hab as _ Hab. exact (IH a b Hab).
Qed.

(** X16.  The id versions 1.1.0 and 1.0.0 read off a URL is the leftmost
    run of at least seven (1.1.0) or eight (1.0.0) digits of the URL, taken
    to its end; without such a run there is no id. *)
Theorem centrisId_leftmost_digit_run :
  forall u : jsstring,
    is_id_of 7 u (V1_1.centrisIdOf u) /\ is_id_of 8 u (V1_0.idOf u).
Proof.
  intros u. split; apply digitRun_is_id.
Qed.

Lemma ends_path_no_digit b : ends_path b -> takeWhile is_digit b = [].
Proof.
  intros [->|(c & b' & -> & [->| ->])]; reflexivity.
Qed.

Lemma idAt_Some s id :
  V2_0.idAt s = Some id ->
  Forall (fun c => is_digit c = true) id /\
  (length id = 7 \/ length id = 8)%nat /\
  exists b, s = 47%N :: id ++ b /\ ends_path b.
Proof.
  unfold V2_0.idAt. destruct s as [|c t]; [discriminate|].
  destruct (N.eqb_spec c 47) as [->|Hc].
  2:{ destruct c as [|p]; [discriminate|].
      do 6 (destruct p as [p|p|]; try discriminate). congruence. }
  cbv zeta.
  destruct ((length (takeWhile is_digit t) =? 7)%nat
            || (length (takeWhile is_digit t) =? 8)%nat) eqn:Hlen;
    [|discriminate].
  destruct (dropWhile is_digit t) as [|x rest] eqn:Hdrop.
  - intros [= <-]. split; [apply takeWhile_all|].
    split; [apply orb_true_iff in Hlen as [H|H]; apply Nat.eqb_eq in H; auto|].
    exists []. split; [|now left].
    f_equal. rewrite <- Hdrop. symmetry. apply takeWhile_dropWhile.
  - cbn [andb]. destruct ((x =? 63)%N || (x =? 35)%N) eqn:Hx; [|discriminate].
    intros [= <-]. split; [apply takeWhile_all|].
    split; [apply orb_true_iff in Hlen as [H|H]; apply Nat.eqb_eq in H; auto|].
    exists (x :: rest). split.
    + f_equal. rewrite <- Hdrop. symmetry. apply takeWhile_dropWhile.
    + right. exists x, rest. split; [reflexivity|].
      apply orb_true_iff in Hx as [H|H]; apply N.eqb_eq in H; auto.
Qed.

Lemma idAt_complete id b :
  Forall (fun c => is_digit c = true) id ->
  (length id = 7 \/ length id = 8)%nat ->
  ends_path b ->
  V2_0.idAt (47%N :: id ++ b) = Some id.
Proof.
  intros Hid Hlen Hb. unfold V2_0.idAt. cbv zeta.
  destruct (takeWhile_run is_digit id b Hid (ends_path_no_digit b Hb)) as [-> ->].
  replace ((length id =? 7)%nat || (length id =? 8)%nat) with true
    by (symmetry; apply orb_true_iff; destruct Hlen as [H|H]; rewrite H; auto).
  destruct Hb as [->|(c & b' & -> & [->| ->])]; reflexivity.
Qed.

(** X17.  The id version 2.0.0 reads off a URL is seven or eight digits
    that stand right after a slash and are followed by the end of the URL, a
    query or a fragment; a URL with no such place has no id. *)
Theorem V2_0_centrisId_after_slash :
  forall u : jsstring,
    match V2_0.centrisIdOf u with
    | Some id =>
        Forall (fun c => is_digit c = true) id /\
        (length id = 7 \/ length id = 8)%nat /\
        exists a b, u = a ++ 47%N :: id ++ b /\ ends_path b
    | None =>
        forall a id b,
          u = a ++ 47%N :: id ++ b ->
          Forall (fun c => is_digit c = true) id ->
          (length id = 7 \/ length id = 8)%nat ->
          ~ ends_path b
    end.
Proof.
  induction u as [|c t IH]; cbn [V2_0.centrisIdOf].
  - change (V2_0.idAt []) with (@None jsstring).
    intros a id b Hu. destruct a; discriminate Hu.
  - destruct (V2_0.idAt (c :: t)) as [id|] eqn:Hat.
    + destruct (idAt_Some _ _ Hat) as (Hall & Hlen & b & Hs & Hb).
      split; [exact Hall|]. split; [exact Hlen|].
      exists [], b. split; [exact Hs | exact Hb].
    + destruct (V2_0.centrisIdOf t) as [id|].
      * destruct IH as (Hall & Hlen & a & b & Ht & Hb).
        split; [exact Hall|]. split; [exact Hlen|].
        exists (c :: a), b. split; [cbn [app]; now rewrite Ht | exact Hb].
      * intros a id b Hu Hall Hlen Hb. destruct a as [|x a].
        -- cbn [app] in Hu. rewrite Hu, (idAt_complete id b Hall Hlen Hb) in Hat.
           discriminate Hat.
        -- injection Hu as _ Hu. exact (IH a id b Hu Hall Hlen Hb).
Qed.

(** ** Images *)

Lemma arrayIncludes_In images src :
  arrayIncludes images src = true <-> In src images.
Proof.
  unfold arrayIncludes. rewrite existsb_exists. split.
  - intros (x & Hin & Hx). unfold jsstring_eqb in Hx.
    apply bool_decide_eq_true in Hx. now subst x.
  - intros Hin. exists src. split; [exact Hin|].
    unfold jsstring_eqb. now apply bool_decide_eq_true.
Qed.

Section Collect.

(** A loop over the images that keeps an address the first time it is seen,
    when [keep] holds of it. *)
Variable keep : jsstring -> bool.
Variable add : list jsstring -> Img -> list jsstring.
Hypothesis add_eq :
  forall images img,
    add images img =
    match srcOf img with
    | Some ((_ :: _) as src) =>
        if negb (arrayIncludes images src) && keep src
        then images ++ [src] else images
    | _ => images
    end.

Lemma collect_spec imgs :
  forall images,
    NoDup images ->
    NoDup (fold_left add imgs images) /\
    forall src,
      In src (fold_left add imgs images) <->
      In src images \/ (shown imgs src /\ keep src = true).
Proof.
  induction imgs as [|img rest IH]; intros images Hnd; cbn [fold_left].
  - split; [exact Hnd|]. intros src. split; [now left|].
    intros [H|[(_ & img & [] & _) _]]. exact H.
  - assert (Hstep : NoDup (add images img) /\
        forall src, In src (add images img) <->
          In src images \/
          (src <> [] /\ srcOf img = Some src /\ keep src = true)).
    { rewrite add_eq. destruct (srcOf img) as [[|c s]|] eqn:Hsrc.
      - split; [exact Hnd|]. intros src. split; [now left|].
        intros [H|(Hne & [= <-] & _)]; [exact H | congruence].
      - destruct (arrayIncludes images (c :: s)) eqn:Hinc; cbn [negb andb].
        + apply arrayIncludes_In in Hinc. split; [exact Hnd|].
          intros src. split; [now left|].
          intros [H|(_ & [= <-] & _)]; [exact H | exact Hinc].
        + destruct (keep (c :: s)) eqn:Hk.
          * split.
            -- apply NoDup_app. split; [exact Hnd|]. split; [|apply NoDup_singleton].
               intros x Hx Hx'. apply list_elem_of_singleton in Hx'. subst x.
               apply list_elem_of_In, arrayIncludes_In in Hx. congruence.
            -- intros src. rewrite in_app_iff. cbn [In]. split.
               ++ intros [H|[<-|[]]]; [now left|]. right.
                  split; [discriminate|]. split; [reflexivity | exact Hk].
               ++ intros [H|(_ & [= <-] & _)]; [now left | right; now left].
          * split; [exact Hnd|]. intros src. split; [now left|].
            intros [H|(_ & [= <-] & Hk')]; [exact H | congruence].
      - split; [exact Hnd|]. intros src. split; [now left|].
        intros [H|(_ & [=] & _)]. exact H. }
    destruct Hstep as [Hnd' Hin']. destruct (IH _ Hnd') as [Hnd'' Hin''].
    split; [exact Hnd''|]. intros src. rewrite Hin'', Hin'. unfold shown. split.
    + intros [[H|(Hne & Hsrc & Hk)]|[(Hne & img' & Hi & Hsrc) Hk]].
      * now left.
      * right. split; [|exact Hk]. split; [exact Hne|]. exists img.
        split; [now left | exact Hsrc].
      * right. split; [|exact Hk]. split; [exact Hne|]. exists img'.
        split; [now right | exact Hsrc].
    + intros [H|[(Hne & img' & [<-|Hi] & Hsrc) Hk]].
      * left. now left.
      * left. right. auto.
      * right. split; [|exact Hk]. split; [exact Hne|]. now exists img'.
Qed.

End Collect.

(** X18.  The images version 1.1.0 reports for a detail page are, without
    repetition, the non-empty image addresses of the page that contain
    neither [logo] nor [icon]; the property is [null] when there is none. *)
Theorem V1_1_pageImages_spec :
  forall imgs : list Img,
    match V1_1.pageImages imgs with
    | Some images =>
        images <> [] /\ NoDup images /\
        forall src,
          In src images <->
          shown imgs src /\
          includes src (str "logo") = false /\ includes src (str "icon") = false
    | None =>
        forall src,
          shown imgs src ->
          includes src (str "logo") = true \/ includes src (str "icon") = true
    end.
Proof.
  intros imgs.
  pose (keep := fun src : jsstring =>
    negb (includes src (str "logo")) && negb (includes src (str "icon"))).
  destruct (collect_spec keep V1_1.addImage) with (imgs := imgs) (images := @nil jsstring)
    as [Hnd Hin].
  { intros images img. unfold V1_1.addImage, keep.
    destruct (srcOf img) as [[|c s]|]; try reflexivity.
    now rewrite andb_assoc. }
  { apply NoDup_nil_2. }
  assert (Hkeep : forall src, keep src = true <->
            includes src (str "logo") = false /\ includes src (str "icon") = false).
  { intros src. unfold keep. rewrite andb_true_iff, !negb_true_iff. reflexivity. }
  unfold V1_1.pageImages.
  destruct (fold_left V1_1.addImage imgs []) as [|x xs] eqn:Hfold.
  - intros src Hshown.
    destruct (includes src (str "logo")) eqn:Hl; [now left|].
    destruct (includes src (str "icon")) eqn:Hi; [now right|].
    exfalso. apply (proj2 (Hin src)). right. split; [exact Hshown|].
    apply Hkeep. auto.
  - split; [discriminate|]. split; [exact Hnd|].
    intros src. rewrite Hin, Hkeep. cbn [In]. tauto.
Qed.

Lemma NoDup_take_of {A} (n : nat) (l : list A) : NoDup l -> NoDup (take n l).
Proof.
  intros H. rewrite <- (take_drop n l) in H. now apply NoDup_app in H as [H _].
Qed.

Lemma In_take {A} (n : nat) (l : list A) (x : A) : In x (take n l) -> In x l.
Proof.
  intros H. rewrite <- (take_drop n l). apply in_or_app. now left.
Qed.

(** X19.  The images version 2.0.0 reports for a detail page are at most
    twenty, without repetition, each a non-empty image address of the page
    that contains [media.ashx]; when fewer than twenty are reported, every
    such address of the page is among them. *)
Theorem V2_0_pageImages_spec :
  forall imgs : list Img,
    (length (V2_0.pageImages imgs) <= 20)%nat /\
    NoDup (V2_0.pageImages imgs) /\
    (forall src,
        In src (V2_0.pageImages imgs) ->
        shown imgs src /\ includes src (str "media.ashx") = true) /\
    ((length (V2_0.pageImages imgs) < 20)%nat ->
     forall src,
       shown imgs src -> includes src (str "media.ashx") = true ->
       In src (V2_0.pageImages imgs)).
Proof.
  intros imgs.
  destruct (collect_spec (fun src => includes src (str "media.ashx")) V2_0.addImage)
    with (imgs := imgs) (images := @nil jsstring) as [Hnd Hin].
  { intros images img. reflexivity. }
  { apply NoDup_nil_2. }
  unfold V2_0.pageImages.
  split; [apply firstn_le_length|].
  split; [now apply NoDup_take_of|].
  split.
  - intros src Hsrc. apply In_take in Hsrc. apply Hin in Hsrc as [[]|H]. exact H.
  - intros Hlen src Hshown Hmedia.
    rewrite length_take in Hlen.
    rewrite take_ge by lia. apply Hin. right. auto.
Qed.

Lemma V1_0_collect_all imgs :
  forall images,
    (forall s, shown imgs s -> ~ In s images) ->
    (forall s s', shown imgs s -> shown imgs s' -> V1_0.highRes s' <> s) ->
    fold_left V1_0.addImage imgs images =
    images ++ List.map V1_0.highRes (omap addressOf imgs).
Proof.
  induction imgs as [|img rest IH]; intros images Hnew Hpage;
    cbn [fold_left omap list_omap List.map]; [now rewrite app_nil_r|].
  assert (Hrest : forall s, shown rest s -> shown (img :: rest) s).
  { intros s (Hne & img' & Hin & Hsrc). split; [exact Hne|].
    exists img'. split; [now right | exact Hsrc]. }
  unfold V1_0.addImage at 2. unfold addressOf at 1.
  destruct (srcOf img) as [[|c src]|] eqn:Hsrc.
  - apply IH; auto.
  - assert (Hshown : shown (img :: rest) (c :: src)).
    { split; [discriminate|]. exists img. split; [now left | exact Hsrc]. }
    assert (Hinc : arrayIncludes images (c :: src) = false).
    { destruct (arrayIncludes images (c :: src)) eqn:E; [|reflexivity].
      apply arrayIncludes_In in E. now apply Hnew in E. }
    rewrite Hinc. cbn [negb List.map].
    rewrite IH.
    + now rewrite <- app_assoc.
    + intros s Hs Hin. apply in_app_or in Hin as [Hin|[Hin|[]]].
      * exact (Hnew s (Hrest s Hs) Hin).
      * exact (Hpage s (c :: src) (Hrest s Hs) Hshown Hin).
    + auto.
  - apply IH; auto.
Qed.

(** X20.  Version 1.0.0 tests an image address against the addresses it has
    stored, and stores the address rewritten to high resolution.  On a page
    where no image address is the rewriting of an image address of the page
    (as where every address carries a size segment other than 1200x800) the
    test never finds anything: with images asked for, every image is
    listed, rewritten, in page order and once for every time it occurs. *)
Theorem V1_0_pageImages_repeats :
  forall imgs : list Img,
    imgs <> [] ->
    (forall s s', shown imgs s -> shown imgs s' -> V1_0.highRes s' <> s) ->
    V1_0.pageImages true imgs =
    Some (List.map V1_0.highRes (omap addressOf imgs)).
Proof.
  intros imgs Hne Hpage. unfold V1_0.pageImages.
  destruct imgs as [|img rest]; [congruence|]. f_equal.
  rewrite V1_0_collect_all; [reflexivity | intros s _ [] | exact Hpage].
Qed.

Lemma V1_0_pageImages_repeats_witness :
  [imgOf (str "https://mspublic.centris.ca/media/320x240/a.jpg");
   imgOf (str "https://mspublic.centris.ca/media/320x240/b.jpg");
   imgOf (str "https://mspublic.centris.ca/media/320x240/a.jpg")] <> [] /\
  (forall s s',
      shown [imgOf (str "https://mspublic.centris.ca/media/320x240/a.jpg");
             imgOf (str "https://mspublic.centris.ca/media/320x240/b.jpg");
             imgOf (str "https://mspublic.centris.ca/media/320x240/a.jpg")] s ->
      shown [imgOf (str "https://mspublic.centris.ca/media/320x240/a.jpg");
             imgOf (str "https://mspublic.centris.ca/media/320x240/b.jpg");
             imgOf (str "https://mspublic.centris.ca/media/320x240/a.jpg")] s' ->
      V1_0.highRes s' <> s) /\
  V1_0.pageImages true
    [imgOf (str "https://mspublic.centris.ca/media/320x240/a.jpg");
     imgOf (str "https://mspublic.centris.ca/media/320x240/b.jpg");
     imgOf (str "https://mspublic.centris.ca/media/320x240/a.jpg")] =
  Some [str "https://mspublic.centris.ca/media/1200x800/a.jpg";
        str "https://mspublic.centris.ca/media/1200x800/b.jpg";
        str "https://mspublic.centris.ca/media/1200x800/a.jpg"].
Proof.
  assert (Hpage : forall s s',
      shown [imgOf (str "https://mspublic.centris.ca/media/320x240/a.jpg");
             imgOf (str "https://mspublic.centris.ca/media/320x240/b.jpg");
             imgOf (str "https://mspublic.centris.ca/media/320x240/a.jpg")] s ->
      shown [imgOf (str "https://mspublic.centris.ca/media/320x240/a.jpg");
             imgOf (str "https://mspublic.centris.ca/media/320x240/b.jpg");
             imgOf (str "https://mspublic.centris.ca/media/320x240/a.jpg")] s' ->
      V1_0.highRes s' <> s).
  { intros s s' (_ & img & Hin & Hs) (_ & img' & Hin' & Hs').
    destruct Hin as [<-|[<-|[<-|[]]]]; injection Hs as <-;
      (destruct Hin' as [<-|[<-|[<-|[]]]]; injection Hs' as <-);
      vm_compute; discriminate. }
  split; [discriminate|]. split; [exact Hpage|].
  apply (V1_0_pageImages_repeats
           [imgOf (str "https://mspublic.centris.ca/media/320x240/a.jpg");
            imgOf (str "https://mspublic.centris.ca/media/320x240/b.jpg");
            imgOf (str "https://mspublic.centris.ca/media/320x240/a.jpg")]);
    [discriminate | exact Hpage].
Defined.

(** ** Invariants of a run *)

Lemma listingsIn_app d d' : listingsIn (d ++ d') = listingsIn d ++ listingsIn d'.
Proof. apply omap_app. Qed.

Lemma failuresIn_app d d' : failuresIn (d ++ d') = failuresIn d ++ failuresIn d'.
Proof. apply omap_app. Qed.

Section Invariant.

Variable K : Z -> Z -> list Item -> Prop.
Variable Q : Listing -> Prop.

Lemma invariant_addRequest u lab st :
  label_ok Q {| requestUrl := u; userData := lab; retryCount := 0 |} ->
  invariant K Q st -> invariant K Q (addRequest u lab st).
Proof.
  intros Hlab [HK Hq]. unfold addRequest.
  destruct (existsb _ _); [now split|].
  split; [exact HK|]. cbn [queue]. apply Forall_app. split; [exact Hq|].
  now constructor.
Qed.

Lemma invariant_enqueueAll urls st :
  invariant K Q st -> invariant K Q (enqueueAll urls st).
Proof.
  unfold enqueueAll. revert st.
  induction urls as [|u urls IH]; intros st Hst; [exact Hst|].
  cbn [fold_left]. apply IH. now apply invariant_addRequest.
Qed.

Lemma invariant_same st st' :
  listingsScraped st' = listingsScraped st -> errors st' = errors st ->
  dataset st' = dataset st -> queue st' = queue st ->
  invariant K Q st -> invariant K Q st'.
Proof. unfold invariant. now intros -> -> -> ->. Qed.

Section Crawl.

Variables (c : Crawler) (web : Web) (cfg : Config).

Hypothesis handler_keeps :
  forall r page st,
    label_ok Q r -> invariant K Q st ->
    match onRequest c cfg r page st with
    | Finished s | Failed s => invariant K Q s
    end.

Hypothesis failed_keeps :
  forall r st, invariant K Q st -> invariant K Q (onFailedRequest c cfg r st).

Lemma invariant_onFailure r st :
  label_ok Q r -> invariant K Q st -> invariant K Q (onFailure c cfg r st).
Proof.
  intros Hr Hst. unfold onFailure.
  destruct (retryCount r <? maxRequestRetries cfg)%nat; [|now apply failed_keeps].
  destruct Hst as [HK Hq]. split; [exact HK|].
  cbn [queue with_queue]. apply Forall_app. split; [exact Hq|].
  constructor; [exact Hr | constructor].
Qed.

Lemma invariant_crawl fuel :
  forall st, invariant K Q st -> invariant K Q (crawl fuel c web cfg st).
Proof.
  induction fuel as [|fuel IH]; intros st Hst; [exact Hst|].
  cbn [crawl]. unfold step.
  destruct (queue st) as [|r rest] eqn:Hqueue; [exact Hst|].
  assert (Hr : label_ok Q r).
  { destruct Hst as [_ Hq]. rewrite Hqueue in Hq. now apply Forall_cons in Hq as [? _]. }
  assert (Hst1 : invariant K Q (with_queue rest st)).
  { destruct Hst as [HK Hq]. split; [exact HK|]. cbn [queue with_queue].
    rewrite Hqueue in Hq. now apply Forall_cons in Hq as [_ ?]. }
  destruct (web (requestUrl r) (retryCount r)) as [|page].
  - now apply IH, invariant_onFailure.
  - pose proof (handler_keeps r page _ Hr Hst1) as Hh.
    destruct (onRequest c cfg r page (with_queue rest st)) as [s|s].
    + now apply IH.
    + now apply IH, invariant_onFailure.
Qed.

End Crawl.

Lemma invariant_start urls : K 0 0 [] -> invariant K Q (enqueueAll urls initialState).
Proof. intros H0. apply invariant_enqueueAll. split; [exact H0 | constructor]. Qed.

End Invariant.

Lemma from_centris_url l l' : url l' = url l -> from_centris l -> from_centris l'.
Proof. unfold from_centris. now intros ->. Qed.

(** *** Version 2.0.0 *)

Lemma V2_0_extracted_from_centris page :
  Forall from_centris (V2_0.extractListingsFromPage page).
Proof.
  unfold V2_0.extractListingsFromPage.
  induction (cards page) as [|card rest IH]; [constructor|].
  cbn [omap list_omap]. unfold V2_0.extractCard at 1.
  destruct (linkHref card) as [[|c u]|]; try exact IH.
  destruct (includes (c :: u) (str "centris.ca")) eqn:Hinc; [|exact IH].
  constructor; [|exact IH]. exists (c :: u). split; [reflexivity | exact Hinc].
Qed.

Lemma V2_0_detailed_url page basic :
  url (V2_0.parsePriceIfNeeded (V2_0.extractListingDetails page basic)) = url basic.
Proof. unfold V2_0.parsePriceIfNeeded. now destruct (_ && _). Qed.

Section V2_0_invariant.

Variable K : Z -> Z -> list Item -> Prop.
Variable Q : Listing -> Prop.
Variable cfg : Config.

Hypothesis K_error : forall s e d, K s e d -> K s (e + 1) d.

Hypothesis K_detail :
  forall l0 l s e d,
    Q l0 -> url l = url l0 -> V2_0.matchesFilters cfg l = Returns true ->
    K s e d ->
    K (s + 1) e
      (d ++ [ListingItem (set_transactionType (V2_0.transactionTypeOf cfg) l)]).

Hypothesis K_summary :
  forall l s e d,
    includeDetails cfg = false -> from_centris l ->
    V2_0.matchesFilters cfg l = Returns true -> s < maxListings cfg ->
    K s e d ->
    K (s + 1) e
      (d ++ [ListingItem (set_transactionType (V2_0.transactionTypeOf cfg) l)]).

Hypothesis Q_card :
  forall l, includeDetails cfg = true -> from_centris l -> Q l.

Lemma V2_0_processListings_keeps listings :
  Forall from_centris listings ->
  forall st,
    invariant K Q st ->
    match V2_0.processListings cfg listings st with
    | Finished s | Failed s => invariant K Q s
    end.
Proof.
  induction 1 as [|l rest Hl _ IH]; intros st Hst; [exact Hst|].
  cbn [V2_0.processListings].
  destruct (Z.leb_spec (maxListings cfg) (listingsScraped st)) as [_|Hquota];
    [exact Hst|].
  cbv zeta.
  set (l1 := if nonempty (priceFormatted l)
             then set_price (parsePrice (priceFormatted l)) l else l).
  assert (Hl1 : from_centris l1).
  { apply (from_centris_url l); [|exact Hl]. unfold l1. now destruct (nonempty _). }
  assert (Hfiltered : invariant K Q (incrListingsFiltered st))
    by (apply (invariant_same K Q st); auto).
  destruct (_ && _ && _ && js_lt _ _); [now apply IH|].
  destruct (_ && _ && _ && js_gt _ _); [now apply IH|].
  destruct (url l1) as [[|c u]|] eqn:Hurl; try now apply IH.
  destruct (includeDetails cfg) eqn:Hdetails.
  - apply IH. apply invariant_addRequest; [|exact Hst].
    unfold label_ok. cbn [userData]. now apply Q_card.
  - set (l2 := set_price _ l1).
    assert (Hl2 : from_centris l2) by (now apply (from_centris_url l1)).
    destruct (V2_0.matchesFilters cfg l2) as [[|]|] eqn:Hmatch.
    + apply IH. destruct Hst as [HK Hq]. split; [|exact Hq].
      cbn [listingsScraped errors dataset incrListingsScraped pushData].
      now apply K_summary.
    + now apply IH.
    + exact Hst.
Qed.

Lemma V2_0_handler_keeps r page st :
  label_ok Q r -> invariant K Q st ->
  match V2_0.requestHandler cfg r page st with
  | Finished s | Failed s => invariant K Q s
  end.
Proof.
  intros Hr Hst. unfold V2_0.requestHandler.
  assert (Herr : forall s, invariant K Q s -> invariant K Q (incrErrors s)).
  { intros s [HK Hq]. split; [|exact Hq]. cbn. now apply K_error. }
  unfold label_ok in Hr. destruct (userData r) as [|basic].
  - assert (Hpages : invariant K Q (incrPagesScraped st))
      by (apply (invariant_same K Q st); auto).
    destruct (evaluateThrows page); [now apply Herr|].
    pose proof (V2_0_processListings_keeps _ (V2_0_extracted_from_centris page)
                  _ Hpages) as Hloop.
    destruct (V2_0.processListings cfg _ _) as [s|s]; [|now apply Herr].
    unfold V2_0.paginate. destruct (_ && _); [|exact Hloop].
    destruct (nextHref page) as [[|c href]|]; try exact Hloop.
    now apply invariant_addRequest.
  - unfold V2_0.handleListing.
    destruct (evaluateThrows page); [now apply Herr|]. cbv zeta.
    destruct (V2_0.matchesFilters cfg _) as [[|]|] eqn:Hmatch.
    + destruct Hst as [HK Hq]. split; [|exact Hq].
      cbn [listingsScraped errors dataset incrListingsScraped pushData].
      apply (K_detail basic); auto using V2_0_detailed_url.
    + apply (invariant_same K Q st); auto.
    + now apply Herr.
Qed.

Lemma V2_0_crawl_keeps fuel web st :
  invariant K Q st -> invariant K Q (crawl fuel V2_0.crawler web cfg st).
Proof.
  apply invariant_crawl.
  - intros r page s. apply V2_0_handler_keeps.
  - intros r s [HK Hq]. split; [|exact Hq]. cbn. now apply K_error.
Qed.

End V2_0_invariant.

(** *** Version 1.1.0 *)

Lemma V1_1_extracted_from_centris page :
  Forall from_centris (V1_1.extractListingsFromPage page).
Proof.
  unfold V1_1.extractListingsFromPage.
  induction (cards page) as [|card rest IH]; [constructor|].
  cbn [omap list_omap]. unfold V1_1.extractCard at 1. cbv zeta. cbn [url].
  destruct (linkHref card) as [u|] eqn:Hhref; [|exact IH].
  destruct (includes u (str "centris.ca")) eqn:Hinc; [|exact IH].
  constructor; [|exact IH]. exists u. split; [reflexivity | exact Hinc].
Qed.

Lemma V1_1_detailed_url cfg page basic :
  url (V1_1.extractListingDetails cfg page basic) = url basic.
Proof. unfold V1_1.extractListingDetails. now destruct (evaluateThrows page). Qed.

Section V1_1_invariant.

Variable K : Z -> Z -> list Item -> Prop.
Variable Q : Listing -> Prop.
Variable cfg : Config.

Hypothesis K_failure :
  forall u s e d, K s e d -> K s (e + 1) (d ++ [FailedItem u]).

Hypothesis K_detail :
  forall l0 l s e d,
    Q l0 -> url l = url l0 ->
    transactionType l = Some (V1_1.transactionTypeOf cfg) ->
    K s e d -> K (s + 1) e (d ++ [ListingItem l]).

Hypothesis K_summary :
  forall l s e d,
    includeDetails cfg = false -> from_centris l -> s < maxListings cfg ->
    K s e d ->
    K (s + 1) e
      (d ++ [ListingItem (set_transactionType (V1_1.transactionTypeOf cfg) l)]).

Hypothesis Q_card :
  forall l, includeDetails cfg = true -> from_centris l -> Q l.

Lemma V1_1_processListings_keeps listings :
  Forall from_centris listings ->
  forall processed st,
    0 <= processed -> invariant K Q st ->
    invariant K Q (snd (V1_1.processListings cfg listings processed st)).
Proof.
  induction 1 as [|l rest Hl _ IH]; intros processed st Hp Hst; [exact Hst|].
  cbn [V1_1.processListings].
  destruct (Z.leb_spec (maxListings cfg) (listingsScraped st + processed))
    as [_|Hquota]; [exact Hst|].
  destruct (url l) as [[|c u]|] eqn:Hurl; try now apply IH.
  apply IH; [lia|].
  destruct (includeDetails cfg) eqn:Hdetails.
  - apply invariant_addRequest; [|exact Hst].
    unfold label_ok. cbn [userData]. now apply Q_card.
  - destruct Hst as [HK Hq]. split; [|exact Hq].
    cbn [listingsScraped errors dataset incrListingsScraped pushData].
    apply K_summary; auto. lia.
Qed.

Lemma V1_1_handler_keeps r page st :
  label_ok Q r -> invariant K Q st ->
  match V1_1.requestHandler cfg r page st with
  | Finished s | Failed s => invariant K Q s
  end.
Proof.
  intros Hr Hst. unfold V1_1.requestHandler.
  unfold label_ok in Hr. destruct (userData r) as [|basic].
  - assert (Hpages : invariant K Q (incrPagesScraped st))
      by (apply (invariant_same K Q st); auto).
    cbv zeta. destruct (evaluateThrows page); [exact Hpages|].
    pose proof (V1_1_processListings_keeps _ (V1_1_extracted_from_centris page)
                  0 _ (Z.le_refl 0) Hpages) as Hloop.
    destruct (V1_1.processListings cfg _ 0 _) as [processed s].
    cbn [snd] in Hloop.
    unfold V1_1.paginate. destruct (_ && _); [|exact Hloop].
    destruct (nextHref page) as [[|c href]|]; try exact Hloop.
    destruct (negb _); [|exact Hloop].
    now apply invariant_addRequest.
  - cbv zeta. destruct Hst as [HK Hq]. split; [|exact Hq].
    cbn [listingsScraped errors dataset incrListingsScraped pushData].
    apply (K_detail basic); auto using V1_1_detailed_url.
Qed.

Lemma V1_1_crawl_keeps fuel web st :
  invariant K Q st -> invariant K Q (crawl fuel V1_1.crawler web cfg st).
Proof.
  apply invariant_crawl.
  - intros r page s. apply V1_1_handler_keeps.
  - intros r s [HK Hq]. split; [|exact Hq]. cbn. now apply K_failure.
Qed.

End V1_1_invariant.

(** *** Version 1.0.0 *)

Lemma V1_0_collectListings_length cfg st cards :
  forall acc,
    Z.of_nat (length (V1_0.collectListings cfg st cards acc)) <=
    Z.max (Z.of_nat (length acc)) (maxListings cfg - listingsScraped st).
Proof.
  induction cards as [|card rest IH]; intros acc; cbn [V1_0.collectListings]; [lia|].
  destruct (Z.leb_spec (maxListings cfg)
              (listingsScraped st + Z.of_nat (length acc))) as [_|Hquota]; [lia|].
  cbv zeta. destruct (nonempty _).
  - etransitivity; [apply IH|]. rewrite length_app. cbn [length]. lia.
  - apply IH.
Qed.

Section V1_0_invariant.

Variable K : Z -> Z -> list Item -> Prop.
Variable Q : Listing -> Prop.
Variable cfg : Config.

Hypothesis K_detail :
  forall l0 l s e d, Q l0 -> K s e d -> K (s + 1) e (d ++ [ListingItem l]).

Hypothesis K_summary :
  forall l s e d,
    includeDetails cfg = false -> s < maxListings cfg ->
    K s e d -> K (s + 1) e (d ++ [ListingItem l]).

Hypothesis Q_card : forall l, includeDetails cfg = true -> Q l.

Lemma V1_0_enqueue_keeps listings :
  includeDetails cfg = true ->
  forall st,
    invariant K Q st ->
    invariant K Q (fold_left V1_0.enqueueListing listings st).
Proof.
  intros Hdetails. induction listings as [|l rest IH]; intros st Hst; [exact Hst|].
  cbn [fold_left]. apply IH. unfold V1_0.enqueueListing.
  destruct (url l); [|exact Hst].
  apply invariant_addRequest; [|exact Hst].
  unfold label_ok. cbn [userData]. now apply Q_card.
Qed.

Lemma V1_0_save_keeps listings :
  includeDetails cfg = false ->
  forall st,
    listings = [] \/
      listingsScraped st + Z.of_nat (length listings) <= maxListings cfg ->
    invariant K Q st ->
    invariant K Q (fold_left V1_0.saveListing listings st).
Proof.
  intros Hsummary. induction listings as [|l rest IH]; intros st Hlen Hst;
    [exact Hst|].
  destruct Hlen as [Hnil|Hlen]; [discriminate Hnil|].
  cbn [length] in Hlen. cbn [fold_left]. apply IH.
  - right. unfold V1_0.saveListing. cbn [listingsScraped incrListingsScraped pushData].
    lia.
  - destruct Hst as [HK Hq]. split; [|exact Hq]. unfold V1_0.saveListing.
    cbn [listingsScraped errors dataset incrListingsScraped pushData].
    apply K_summary; auto. lia.
Qed.

Lemma V1_0_handler_keeps r page st :
  label_ok Q r -> invariant K Q st ->
  match V1_0.requestHandler cfg r page st with
  | Finished s | Failed s => invariant K Q s
  end.
Proof.
  intros Hr Hst. unfold V1_0.requestHandler.
  unfold label_ok in Hr. destruct (userData r) as [|basic].
  - assert (Hpages : invariant K Q (incrPagesScraped st))
      by (apply (invariant_same K Q st); auto).
    cbv zeta. destruct (_ || _); [exact Hpages|].
    set (ls := V1_0.collectListings cfg (incrPagesScraped st) (cards page) []).
    assert (Hloop : invariant K Q
              (if includeDetails cfg
               then fold_left V1_0.enqueueListing ls (incrPagesScraped st)
               else fold_left V1_0.saveListing ls (incrPagesScraped st))).
    { case_eq (includeDetails cfg); intros Hdetails.
      - now apply V1_0_enqueue_keeps.
      - apply V1_0_save_keeps; auto.
        pose proof (V1_0_collectListings_length cfg (incrPagesScraped st)
                      (cards page) []) as Hlen.
        fold ls in Hlen. cbn [length] in Hlen.
        destruct ls as [|l ls']; [now left|]. right.
        cbn [length] in *. lia. }
    unfold V1_0.paginate. destruct (_ <? _); [|exact Hloop].
    destruct (nextHref page) as [[|c href]|]; try exact Hloop.
    now apply invariant_addRequest.
  - cbv zeta. destruct Hst as [HK Hq]. split; [|exact Hq].
    cbn [listingsScraped errors dataset incrListingsScraped pushData].
    now apply (K_detail basic).
Qed.

End V1_0_invariant.

(** *** What one task adds *)

Lemma listingsIn_push d l :
  listingsIn (d ++ [ListingItem l]) = listingsIn d ++ [l].
Proof. now rewrite listingsIn_app. Qed.

Lemma listingsIn_failure d u : listingsIn (d ++ [FailedItem u]) = listingsIn d.
Proof. rewrite listingsIn_app. apply app_nil_r. Qed.

Lemma failuresIn_push d l : failuresIn (d ++ [ListingItem l]) = failuresIn d.
Proof. rewrite failuresIn_app. apply app_nil_r. Qed.

Lemma failuresIn_failure d u :
  failuresIn (d ++ [FailedItem u]) = failuresIn d ++ [u].
Proof. now rewrite failuresIn_app. Qed.

Ltac count_items :=
  rewrite ?listingsIn_push, ?listingsIn_failure, ?failuresIn_push,
    ?failuresIn_failure, ?length_app; cbn [length]; try lia.

Lemma label_ok_any (q : list Request) : Forall (label_ok (fun _ => True)) q.
Proof.
  apply Forall_forall. intros r _. unfold label_ok. now destruct (userData r).
Qed.

Lemma dataset_addRequest u lab st : dataset (addRequest u lab st) = dataset st.
Proof. unfold addRequest. now destruct (existsb _ _). Qed.

Lemma tallied_refl b st : tallied b st st.
Proof.
  exists []. rewrite app_nil_r. split; [reflexivity|]. split; [cbn; lia|].
  destruct b; [cbn; lia | reflexivity].
Qed.

(** The tally as a property of the counters and the dataset, relative to
    the state [st0] the task began in. *)
Lemma tally_push (b : bool) (st0 : RunState) l (s e : Z) (d : list Item) :
  (exists items,
      d = dataset st0 ++ items /\
      s = listingsScraped st0 + Z.of_nat (length (listingsIn items)) /\
      if b then e = errors st0 + Z.of_nat (length (failuresIn items))
      else failuresIn items = []) ->
  exists items,
    d ++ [ListingItem l] = dataset st0 ++ items /\
    s + 1 = listingsScraped st0 + Z.of_nat (length (listingsIn items)) /\
    if b then e = errors st0 + Z.of_nat (length (failuresIn items))
    else failuresIn items = [].
Proof.
  intros (items & -> & -> & He). exists (items ++ [ListingItem l]).
  split; [now rewrite app_assoc|]. split; [count_items|].
  destruct b; rewrite failuresIn_push; exact He.
Qed.

(** X21.  Every task accounts for the records it writes.  A run of
    [requestHandler] raises [listingsScraped] by exactly the number of
    listing records it pushes to the dataset, in all three variants.  In
    versions 1.1.0 and 1.0.0 a run of [requestHandler] or of
    [failedRequestHandler] raises [errors] by exactly the number of failure
    records it pushes; version 2.0.0 pushes no failure record.  Records are
    only ever appended. *)
Theorem tasks_tally_their_records :
  forall (cfg : Config) (r : Request) (page : Page) (st : RunState),
    (match V1_1.requestHandler cfg r page st with
     | Finished s | Failed s => tallied true st s
     end /\
     tallied true st (V1_1.failedRequestHandler cfg r st)) /\
    (match V1_0.requestHandler cfg r page st with
     | Finished s | Failed s => tallied true st s
     end /\
     tallied true st (V1_0.failedRequestHandler cfg r st)) /\
    (match V2_0.requestHandler cfg r page st with
     | Finished s | Failed s => tallied false st s
     end /\
     tallied false st (V2_0.failedRequestHandler cfg r st)).
Proof.
  intros cfg r page st.
  pose (K := fun b (s e : Z) (d : list Item) =>
    exists items,
      d = dataset st ++ items /\
      s = listingsScraped st + Z.of_nat (length (listingsIn items)) /\
      if b : bool then e = errors st + Z.of_nat (length (failuresIn items))
      else failuresIn items = []).
  assert (Hstart : forall b, invariant (K b) (fun _ => True) st).
  { intros b. split; [apply (tallied_refl b st) | apply label_ok_any]. }
  assert (Hr : label_ok (fun _ => True) r)
    by (unfold label_ok; now destruct (userData r)).
  assert (Hfailed : tallied true st (pushData (FailedItem (requestUrl r)) (incrErrors st))).
  { exists [FailedItem (requestUrl r)]. split; [reflexivity|]. split; cbn; lia. }
  split; [|split]; split.
  - pose proof (V1_1_handler_keeps (K true) (fun _ => True) cfg) as H.
    specialize (H ltac:(intros; now apply tally_push)
                  ltac:(intros; now apply tally_push)
                  ltac:(constructor) r page st Hr (Hstart true)).
    destruct (V1_1.requestHandler cfg r page st); exact (proj1 H).
  - exact Hfailed.
  - pose proof (V1_0_handler_keeps (K true) (fun _ => True) cfg) as H.
    specialize (H ltac:(intros; now apply tally_push)
                  ltac:(intros; now apply tally_push)
                  ltac:(constructor) r page st Hr (Hstart true)).
    destruct (V1_0.requestHandler cfg r page st); exact (proj1 H).
  - exact Hfailed.
  - pose proof (V2_0_handler_keeps (K false) (fun _ => True) cfg) as H.
    specialize (H ltac:(intros s e d Hk; exact Hk)
                  ltac:(intros; now apply tally_push)
                  ltac:(intros; now apply tally_push)
                  ltac:(constructor) r page st Hr (Hstart false)).
    destruct (V2_0.requestHandler cfg r page st); exact (proj1 H).
  - exists []. rewrite app_nil_r. split; [reflexivity|].
    split; [cbn; lia | reflexivity].
Qed.

(** *** What a run emits *)

(** X22.  Version 2.0.0 emits a listing only after [matchesFilters] has
    returned [true] for it: every listing of the dataset passes the filter
    of the run. *)
Theorem V2_0_emitted_pass_filter :
  forall (fuel : nat) (web : Web) (cfg : Config),
    Forall (fun l => V2_0.matchesFilters cfg l = Returns true)
           (emitted (V2_0.run fuel web cfg)).
Proof.
  intros fuel web cfg.
  pose (K := fun (s e : Z) (d : list Item) =>
    Forall (fun l => V2_0.matchesFilters cfg l = Returns true) (listingsIn d)).
  refine (proj1 (V2_0_crawl_keeps K (fun _ => True) cfg _ _ _ _ fuel web _ _)).
  - intros s e d H. exact H.
  - intros l0 l s e d _ _ Hm H. unfold K. rewrite listingsIn_push.
    apply Forall_app. split; [exact H|]. constructor; [exact Hm | constructor].
  - intros l s e d _ _ Hm _ H. unfold K. rewrite listingsIn_push.
    apply Forall_app. split; [exact H|]. constructor; [exact Hm | constructor].
  - constructor.
  - apply invariant_start. constructor.
Qed.

(** X23.  Versions 1.1.0 and 2.0.0 emit only listings that have a URL with
    [centris.ca] in it. *)
Theorem emitted_from_centris :
  forall (fuel : nat) (web : Web) (cfg : Config),
    Forall from_centris (emitted (V1_1.run fuel web cfg)) /\
    Forall from_centris (emitted (V2_0.run fuel web cfg)).
Proof.
  intros fuel web cfg.
  pose (K := fun (s e : Z) (d : list Item) => Forall from_centris (listingsIn d)).
  assert (Hpush : forall l d, from_centris l -> K 0 0 d ->
            K 0 0 (d ++ [ListingItem l])).
  { intros l d Hl H. unfold K. rewrite listingsIn_push.
    apply Forall_app. split; [exact H|]. constructor; [exact Hl | constructor]. }
  split.
  - refine (proj1 (V1_1_crawl_keeps K from_centris cfg _ _ _ _ fuel web _ _)).
    + intros u s e d H. unfold K. now rewrite listingsIn_failure.
    + intros l0 l s e d Hl0 Hurl _ H. apply Hpush; [|exact H].
      now apply (from_centris_url l0).
    + intros l s e d _ Hl _ H. apply Hpush; [|exact H].
      now apply (from_centris_url l).
    + intros l _ Hl. exact Hl.
    + apply invariant_start. constructor.
  - refine (proj1 (V2_0_crawl_keeps K from_centris cfg _ _ _ _ fuel web _ _)).
    + intros s e d H. exact H.
    + intros l0 l s e d Hl0 Hurl _ H. apply Hpush; [|exact H].
      apply (from_centris_url l); [reflexivity|].
      now apply (from_centris_url l0).
    + intros l s e d _ Hl _ _ H. apply Hpush; [|exact H].
      now apply (from_centris_url l).
    + intros l _ Hl. exact Hl.
    + apply invariant_start. constructor.
Qed.

(** *** The quota on a results page without detail pages *)

Lemma quota_start cfg (st0 : RunState) :
  exists items,
    dataset st0 = dataset st0 ++ items /\
    listingsScraped st0 = listingsScraped st0 + Z.of_nat (length (listingsIn items)) /\
    Z.of_nat (length (listingsIn items))
      <= Z.max 0 (maxListings cfg - listingsScraped st0).
Proof. exists []. rewrite app_nil_r. cbn. repeat split; lia. Qed.

Lemma quota_push cfg (st0 : RunState) l (s e : Z) (d : list Item) :
  s < maxListings cfg ->
  (exists items,
      d = dataset st0 ++ items /\
      s = listingsScraped st0 + Z.of_nat (length (listingsIn items)) /\
      Z.of_nat (length (listingsIn items))
        <= Z.max 0 (maxListings cfg - listingsScraped st0)) ->
  exists items,
    d ++ [ListingItem l] = dataset st0 ++ items /\
    s + 1 = listingsScraped st0 + Z.of_nat (length (listingsIn items)) /\
    Z.of_nat (length (listingsIn items))
      <= Z.max 0 (maxListings cfg - listingsScraped st0).
Proof.
  intros Hq (items & -> & -> & Hle). exists (items ++ [ListingItem l]).
  split; [now rewrite app_assoc|]. split; count_items.
Qed.

Lemma quota_result cfg (st0 s : RunState) :
  (exists items,
      dataset s = dataset st0 ++ items /\
      listingsScraped s = listingsScraped st0 + Z.of_nat (length (listingsIn items)) /\
      Z.of_nat (length (listingsIn items))
        <= Z.max 0 (maxListings cfg - listingsScraped st0)) ->
  forall s', dataset s' = dataset s -> page_within_quota cfg st0 s'.
Proof.
  intros (items & Hd & _ & Hle) s' Hs'. exists items. now rewrite Hs'.
Qed.

(** X24.  Without detail pages ([includeDetails = false]) a results page of
    version 2.0.0 adds at most as many listings to the dataset as were left
    of the quota when its task began: the loop tests the quota before every
    record it pushes. *)
Theorem V2_0_summary_page_within_quota :
  forall (cfg : Config) (r : Request) (page : Page) (st : RunState),
    includeDetails cfg = false -> userData r = LIST ->
    match V2_0.requestHandler cfg r page st with
    | Finished s | Failed s => page_within_quota cfg st s
    end.
Proof.
  intros cfg r page st Hsummary Hr. unfold V2_0.requestHandler. rewrite Hr.
  cbv zeta.
  pose (K := fun (s e : Z) (d : list Item) =>
    exists items,
      d = dataset st ++ items /\
      s = listingsScraped st + Z.of_nat (length (listingsIn items)) /\
      Z.of_nat (length (listingsIn items))
        <= Z.max 0 (maxListings cfg - listingsScraped st)).
  destruct (evaluateThrows page).
  { apply (quota_result cfg st st (quota_start cfg st)). reflexivity. }
  pose proof (V2_0_processListings_keeps K (fun _ => True) cfg) as H.
  specialize (H ltac:(intros; now apply quota_push) ltac:(constructor)
                _ (V2_0_extracted_from_centris page) (incrPagesScraped st)).
  specialize (H (conj (quota_start cfg st) (label_ok_any _))).
  destruct (V2_0.processListings cfg _ _) as [s|s]; destruct H as [H _].
  - apply (quota_result cfg st s H). unfold V2_0.paginate.
    destruct (_ && _); [|reflexivity].
    destruct (nextHref page) as [[|c href]|]; try reflexivity.
    apply dataset_addRequest.
  - apply (quota_result cfg st s H). reflexivity.
Qed.

Lemma V2_0_summary_page_within_quota_witness :
  includeDetails (inputWith (str "buy") [str "Montreal"] 1 false) = false /\
  userData (listRequest montrealUrl) = LIST /\
  match V2_0.requestHandler (inputWith (str "buy") [str "Montreal"] 1 false)
          (listRequest montrealUrl)
          (resultsPage [card (Some houseUrl); card (Some condoUrl)] None)
          initialState with
  | Finished s | Failed s =>
      page_within_quota (inputWith (str "buy") [str "Montreal"] 1 false)
        initialState s
  end.
Proof.
  split; [reflexivity|]. split; [reflexivity|].
  apply (V2_0_summary_page_within_quota
           (inputWith (str "buy") [str "Montreal"] 1 false)
           (listRequest montrealUrl)
           (resultsPage [card (Some houseUrl); card (Some condoUrl)] None)
           initialState); reflexivity.
Defined.

(** X25.  Without detail pages a results page of version 1.1.0 adds at most
    as many listings to the dataset as were left of the quota when its task
    began. *)
Theorem V1_1_summary_page_within_quota :
  forall (cfg : Config) (r : Request) (page : Page) (st : RunState),
    includeDetails cfg = false -> userData r = LIST ->
    match V1_1.requestHandler cfg r page st with
    | Finished s | Failed s => page_within_quota cfg st s
    end.
Proof.
  intros cfg r page st Hsummary Hr. unfold V1_1.requestHandler. rewrite Hr.
  cbv zeta.
  pose (K := fun (s e : Z) (d : list Item) =>
    exists items,
      d = dataset st ++ items /\
      s = listingsScraped st + Z.of_nat (length (listingsIn items)) /\
      Z.of_nat (length (listingsIn items))
        <= Z.max 0 (maxListings cfg - listingsScraped st)).
  destruct (evaluateThrows page).
  { apply (quota_result cfg st st (quota_start cfg st)). reflexivity. }
  pose proof (V1_1_processListings_keeps K (fun _ => True) cfg) as H.
  specialize (H ltac:(intros; now apply quota_push) ltac:(constructor)
                _ (V1_1_extracted_from_centris page) 0 (incrPagesScraped st)
                (Z.le_refl 0)).
  specialize (H (conj (quota_start cfg st) (label_ok_any _))).
  destruct (V1_1.processListings cfg _ 0 _) as [processed s].
  destruct H as [H _]. cbn [snd] in H.
  apply (quota_result cfg st s H). unfold V1_1.paginate.
  destruct (_ && _); [|reflexivity].
  destruct (nextHref page) as [[|c href]|]; try reflexivity.
  destruct (negb _); [|reflexivity].
  apply dataset_addRequest.
Qed.

Lemma V1_1_summary_page_within_quota_witness :
  includeDetails (inputWith (str "buy") [str "Montreal"] 1 false) = false /\
  userData (listRequest montrealUrl) = LIST /\
  match V1_1.requestHandler (inputWith (str "buy") [str "Montreal"] 1 false)
          (listRequest montrealUrl)
          (resultsPage [card (Some houseUrl); card (Some condoUrl)] None)
          initialState with
  | Finished s | Failed s =>
      page_within_quota (inputWith (str "buy") [str "Montreal"] 1 false)
        initialState s
  end.
Proof.
  split; [reflexivity|]. split; [reflexivity|].
  apply (V1_1_summary_page_within_quota
           (inputWith (str "buy") [str "Montreal"] 1 false)
           (listRequest montrealUrl)
           (resultsPage [card (Some houseUrl); card (Some condoUrl)] None)
           initialState); reflexivity.
Defined.

Lemma V1_1_processListings_twice cfg listings :
  includeDetails cfg = false ->
  forall processed st,
    listingsScraped (snd (V1_1.processListings cfg listings processed st))
      - listingsScraped st
    = fst (V1_1.processListings cfg listings processed st) - processed /\
    processed <= fst (V1_1.processListings cfg listings processed st) /\
    (processed < fst (V1_1.processListings cfg listings processed st) ->
     listingsScraped st + processed
       + 2 * (fst (V1_1.processListings cfg listings processed st) - processed)
     <= maxListings cfg + 1).
Proof.
  intros Hsummary. induction listings as [|l rest IH]; intros processed st;
    cbn [V1_1.processListings].
  - cbn [fst snd]. lia.
  - destruct (Z.leb_spec (maxListings cfg) (listingsScraped st + processed))
      as [_|Hquota]; [cbn [fst snd]; lia|].
    destruct (url l) as [[|c u]|]; try apply IH.
    rewrite Hsummary.
    match goal with
    | |- context [V1_1.processListings cfg rest (processed + 1) ?s] =>
        specialize (IH (processed + 1) s);
        destruct (V1_1.processListings cfg rest (processed + 1) s) as [p s']
    end.
    cbn [fst snd listingsScraped incrListingsScraped pushData] in *. lia.
Qed.

(** X26.  Without detail pages version 1.1.0 counts every listing it saves
    twice against the quota, once in [listingsScraped] and once in
    [processed]: a results page adds as many listings as the loop processed,
    and twice that number exceeds what was left of the quota by at most 1. *)
Theorem V1_1_summary_page_half_quota :
  forall (cfg : Config) (listings : list Listing) (st : RunState),
    includeDetails cfg = false ->
    listingsScraped (snd (V1_1.processListings cfg listings 0 st))
      = listingsScraped st + fst (V1_1.processListings cfg listings 0 st) /\
    (0 < fst (V1_1.processListings cfg listings 0 st) ->
     2 * fst (V1_1.processListings cfg listings 0 st)
     <= maxListings cfg - listingsScraped st + 1).
Proof.
  intros cfg listings st Hsummary.
  pose proof (V1_1_processListings_twice cfg listings Hsummary 0 st) as H. lia.
Qed.

Lemma V1_1_summary_page_half_quota_witness :
  includeDetails (inputWith (str "buy") [str "Montreal"] 4 false) = false /\
  fst (V1_1.processListings (inputWith (str "buy") [str "Montreal"] 4 false)
         (repeat unknownBedrooms 10) 0 initialState) = 2 /\
  listingsScraped
    (snd (V1_1.processListings (inputWith (str "buy") [str "Montreal"] 4 false)
            (repeat unknownBedrooms 10) 0 initialState))
  = listingsScraped initialState
    + fst (V1_1.processListings (inputWith (str "buy") [str "Montreal"] 4 false)
             (repeat unknownBedrooms 10) 0 initialState) /\
  (0 < fst (V1_1.processListings (inputWith (str "buy") [str "Montreal"] 4 false)
              (repeat unknownBedrooms 10) 0 initialState) ->
   2 * fst (V1_1.processListings (inputWith (str "buy") [str "Montreal"] 4 false)
              (repeat unknownBedrooms 10) 0 initialState)
   <= maxListings (inputWith (str "buy") [str "Montreal"] 4 false)
      - listingsScraped initialState + 1).
Proof.
  split; [reflexivity|]. split; [reflexivity|].
  apply (V1_1_summary_page_half_quota
           (inputWith (str "buy") [str "Montreal"] 4 false)
           (repeat unknownBedrooms 10) initialState).
  reflexivity.
Defined.

(** X27.  Without detail pages a results page of version 1.0.0 adds at most
    as many listings to the dataset as were left of the quota when its task
    began: the loop over the cards stops collecting at the quota, and every
    listing collected is saved. *)
Theorem V1_0_summary_page_within_quota :
  forall (cfg : Config) (r : Request) (page : Page) (st : RunState),
    includeDetails cfg = false -> userData r = LIST ->
    match V1_0.requestHandler cfg r page st with
    | Finished s | Failed s => page_within_quota cfg st s
    end.
Proof.
  intros cfg r page st Hsummary Hr. unfold V1_0.requestHandler. rewrite Hr.
  cbv zeta.
  pose (K := fun (s e : Z) (d : list Item) =>
    exists items,
      d = dataset st ++ items /\
      s = listingsScraped st + Z.of_nat (length (listingsIn items)) /\
      Z.of_nat (length (listingsIn items))
        <= Z.max 0 (maxListings cfg - listingsScraped st)).
  destruct (_ || _).
  { apply (quota_result cfg st st (quota_start cfg st)). reflexivity. }
  set (ls := V1_0.collectListings cfg (incrPagesScraped st) (cards page) []).
  pose proof (V1_0_save_keeps K (fun _ => True) cfg) as H.
  specialize (H ltac:(intros; now apply quota_push) ls Hsummary
                (incrPagesScraped st)).
  assert (Hlen : ls = [] \/
            listingsScraped (incrPagesScraped st) + Z.of_nat (length ls)
              <= maxListings cfg).
  { pose proof (V1_0_collectListings_length cfg (incrPagesScraped st)
                  (cards page) []) as Hlen.
    fold ls in Hlen. cbn [length] in Hlen.
    destruct ls as [|l ls']; [now left|]. right.
    cbn [length listingsScraped incrPagesScraped] in *. lia. }
  specialize (H Hlen (conj (quota_start cfg st) (label_ok_any _))).
  rewrite Hsummary. destruct H as [H _].
  apply (quota_result cfg st _ H). unfold V1_0.paginate.
  destruct (_ <? _); [|reflexivity].
  destruct (nextHref page) as [[|c href]|]; try reflexivity.
  apply dataset_addRequest.
Qed.

Lemma V1_0_summary_page_within_quota_witness :
  includeDetails (inputWith (str "buy") [str "Montreal"] 1 false) = false /\
  userData (listRequest montrealUrl) = LIST /\
  match V1_0.requestHandler (inputWith (str "buy") [str "Montreal"] 1 false)
          (listRequest montrealUrl)
          (resultsPage [card (Some houseUrl); card (Some condoUrl)] None)
          initialState with
  | Finished s | Failed s =>
      page_within_quota (inputWith (str "buy") [str "Montreal"] 1 false)
        initialState s
  end.
Proof.
  split; [reflexivity|]. split; [reflexivity|].
  apply (V1_0_summary_page_within_quota
           (inputWith (str "buy") [str "Montreal"] 1 false)
           (listRequest montrealUrl)
           (resultsPage [card (Some houseUrl); card (Some condoUrl)] None)
           initialState); reflexivity.
Defined.
